(** * sotodlib: [get_batch] and the level-3 housekeeping driver

    A shallow embedding of two pieces of the repository:

    - [sotodlib/io/g3tsmurf_utils.py], function [get_batch]: the resolution
      of the chunking controls into a list of detector chunks and a list of
      sample chunks, and the generator that walks their product;
    - [sotodlib/site_pipeline/make_level3_hk.py], function [main]: the
      construction of the observation query and the loop over the
      observations it returns.

    Python integers are unbounded, so they are [Z]; [//] is floor division,
    which is [Z.div], except that Python raises [ZeroDivisionError] where
    [Z.div] returns 0, so every division is guarded.  [int(np.ceil(a/b))]
    goes through a float quotient in the source; it is taken here as the
    exact ceiling, which it is for the detector and sample counts of an
    observation (magnitudes far below 2^53).  [ram_limit] is a whole
    number of bytes.  Calls of [logger] are not part of the model. *)

From Stdlib Require Import ZArith List Lia Bool String Ascii.
From Stdlib Require Import DecimalString Permutation.
Import ListNotations.
Open Scope Z_scope.

(* ------------------------------------------------------------------ *)
(** ** Python values and exceptions *)

Module Py.

(** The exceptions the modelled code can meet.  [GeneratorExit],
    [KeyboardInterrupt] and [SystemExit] derive from [BaseException]
    only; everything else derives from [Exception]. *)
Inductive exn : Type :=
| ZeroDivisionError
| GeneratorExit
| KeyboardInterrupt
| SystemExit
| OtherException (msg : string).

Definition is_Exception (e : exn) : bool :=
  match e with
  | ZeroDivisionError | OtherException _ => true
  | GeneratorExit | KeyboardInterrupt | SystemExit => false
  end.

(** Outcome of a computation: a value, a raised exception, or a loop
    that used up the iterations it was given. *)
Inductive result (A : Type) : Type :=
| Ok (a : A)
| Raise (e : exn)
| OutOfFuel.
Arguments Ok {A} a.
Arguments Raise {A} e.
Arguments OutOfFuel {A}.

Definition bind {A B} (m : result A) (k : A -> result B) : result B :=
  match m with
  | Ok a => k a
  | Raise e => Raise e
  | OutOfFuel => OutOfFuel
  end.

(** [a // b] *)
Definition floordiv (a b : Z) : result Z :=
  if b =? 0 then Raise ZeroDivisionError else Ok (a / b).

(** [int(np.ceil(a / b))] *)
Definition ceildiv (a b : Z) : result Z :=
  if b =? 0 then Raise ZeroDivisionError else Ok (- ((- a) / b)).

(** [range(n)], as the list of its elements *)
Fixpoint range_from (i : Z) (k : nat) : list Z :=
  match k with
  | O => []
  | S k' => i :: range_from (i + 1) k'
  end.

Definition range (n : Z) : list Z := range_from 0 (Z.to_nat n).

End Py.

Import Py.

Declare Scope py_scope.
Notation "x <- m ;; k" := (bind m (fun x => k))
  (at level 61, m at next level, right associativity) : py_scope.
Open Scope py_scope.

(* ------------------------------------------------------------------ *)
(** ** [get_batch]: data *)

Module GetBatch.

(** An entry of [det_chunks]: the source builds [range(lo, hi)] objects;
    a caller may also pass explicit lists or tuples of channels. *)
Inductive det_chunk : Type :=
| DRange (lo hi : Z)
| DList (chans : list Z).

(** An entry of [samp_chunks]: a tuple [(start, stop)]. *)
Definition samp_chunk : Type := (Z * Z)%type.

(** [len(det_chunk)] *)
Definition det_len (d : det_chunk) : Z :=
  match d with
  | DRange lo hi => Z.max 0 (hi - lo)
  | DList l => Z.of_nat (List.length l)
  end.

(** The keyword arguments of [get_batch] that control the chunking;
    [None] is Python's [None]. *)
Record controls : Type := mkControls {
  ram_limit : option Z;
  n_det_chunks : option Z;
  n_samp_chunks : option Z;
  n_dets : option Z;
  n_samps : option Z;
  det_chunks : option (list det_chunk);
  samp_chunks : option (list samp_chunk)
}.

Definition no_controls : controls :=
  mkControls None None None None None None None.

(** The six local variables the body rewrites while it resolves the
    controls (lines 161-193). *)
Record locals : Type := mkLocals {
  l_n_det_chunks : option Z;
  l_n_samp_chunks : option Z;
  l_n_dets : option Z;
  l_n_samps : option Z;
  l_det_chunks : option (list det_chunk);
  l_samp_chunks : option (list samp_chunk)
}.

Definition locals_of (c : controls) : locals :=
  mkLocals (n_det_chunks c) (n_samp_chunks c) (n_dets c) (n_samps c)
           (det_chunks c) (samp_chunks c).

(** [[range(i*n, min((i+1)*n, total)) for i in range(k)]] *)
Definition det_ranges (n total k : Z) : list det_chunk :=
  map (fun i => DRange (i * n) (Z.min ((i + 1) * n) total)) (range k).

(** [[(i*n, min((i+1)*n, total)) for i in range(k)]] *)
Definition samp_ranges (n total k : Z) : list samp_chunk :=
  map (fun i => (i * n, Z.min ((i + 1) * n) total)) (range k).

(** The [while n_dets == 0] loop of lines 166-169.  [fuel] bounds the
    number of iterations; the loop state is
    [(n_samp_chunks, n_samps, n_dets)]. *)
Fixpoint ram_while (fuel : nat) (pts_limit obs_samps : Z)
         (nsc ns nd : Z) : result (Z * Z * Z) :=
  if nd =? 0 then
    match fuel with
    | O => OutOfFuel
    | S fuel' =>
        let nsc := nsc + 1 in
        ns <- floordiv obs_samps nsc ;;
        nd <- floordiv pts_limit ns ;;
        ram_while fuel' pts_limit obs_samps nsc ns nd
    end
  else Ok (nsc, ns, nd).

(** Lines 162-169: the search for the sample chunk count; returns the
    final [(n_samp_chunks, n_samps, n_dets)]. *)
Definition ram_search (fuel : nat) (ram obs_samps : Z) : result (Z * Z * Z) :=
  let pts_limit := ram / 4 in
  let nsc := 1 in
  let ns := obs_samps in
  nd <- floordiv pts_limit ns ;;
  ram_while fuel pts_limit obs_samps nsc ns nd.

(** Lines 161-170 *)
Definition step_ram (fuel : nat) (ram : option Z) (obs_dets obs_samps : Z)
           (l : locals) : result locals :=
  match ram with
  | None => Ok l
  | Some r =>
      found <- ram_search fuel r obs_samps ;;
      let '(nsc, ns, nd) := found in
      ndc <- ceildiv obs_dets nd ;;
      Ok (mkLocals (Some ndc) (Some nsc) (Some nd) (Some ns)
                   (l_det_chunks l) (l_samp_chunks l))
  end.

(** Lines 172-175 *)
Definition step_det_count (obs_dets : Z) (l : locals) : result locals :=
  match l_n_det_chunks l with
  | None => Ok l
  | Some ndc =>
      nd <- ceildiv obs_dets ndc ;;
      Ok (mkLocals (Some ndc) (l_n_samp_chunks l) (Some nd) (l_n_samps l)
                   (Some (det_ranges nd obs_dets ndc)) (l_samp_chunks l))
  end.

(** Lines 176-179 *)
Definition step_samp_count (obs_samps : Z) (l : locals) : result locals :=
  match l_n_samp_chunks l with
  | None => Ok l
  | Some nsc =>
      ns <- ceildiv obs_samps nsc ;;
      Ok (mkLocals (l_n_det_chunks l) (Some nsc) (l_n_dets l) (Some ns)
                   (l_det_chunks l) (Some (samp_ranges ns obs_samps nsc)))
  end.

(** Lines 181-184 *)
Definition step_det_size (obs_dets : Z) (l : locals) : result locals :=
  match l_n_dets l with
  | None => Ok l
  | Some nd =>
      ndc <- ceildiv obs_dets nd ;;
      Ok (mkLocals (Some ndc) (l_n_samp_chunks l) (Some nd) (l_n_samps l)
                   (Some (det_ranges nd obs_dets ndc)) (l_samp_chunks l))
  end.

(** Lines 185-188 *)
Definition step_samp_size (obs_samps : Z) (l : locals) : result locals :=
  match l_n_samps l with
  | None => Ok l
  | Some ns =>
      nsc <- ceildiv obs_samps ns ;;
      Ok (mkLocals (l_n_det_chunks l) (Some nsc) (l_n_dets l) (Some ns)
                   (l_det_chunks l) (Some (samp_ranges ns obs_samps nsc)))
  end.

(** Lines 190-193 *)
Definition final_chunks (obs_dets obs_samps : Z) (l : locals)
  : list det_chunk * list samp_chunk :=
  (match l_det_chunks l with
   | None => [DRange 0 obs_dets]
   | Some d => d
   end,
   match l_samp_chunks l with
   | None => [(0, obs_samps)]
   | Some s => s
   end).

(** Lines 172-193 *)
Definition resolve (obs_dets obs_samps : Z) (l : locals)
  : result (list det_chunk * list samp_chunk) :=
  l <- step_det_count obs_dets l ;;
  l <- step_samp_count obs_samps l ;;
  l <- step_det_size obs_dets l ;;
  l <- step_samp_size obs_samps l ;;
  Ok (final_chunks obs_dets obs_samps l).

(** Lines 161-193: the detector chunks and the sample chunks the
    generator will loop over. *)
Definition plan (fuel : nat) (obs_dets obs_samps : Z) (c : controls)
  : result (list det_chunk * list samp_chunk) :=
  l <- step_ram fuel (ram_limit c) obs_dets obs_samps (locals_of c) ;;
  resolve obs_dets obs_samps l.

(* ------------------------------------------------------------------ *)
(** ** [get_batch]: the generator *)

(** What the body does to the outside world, in order. *)
Inductive event : Type :=
| EvSessionOpen                       (* archive.Session(), line 141 *)
| EvSessionClose                      (* session.close(), line 151 *)
| EvStatusFromFile                    (* SmurfStatus.from_file, line 202 *)
| EvLoadFile (d : det_chunk) (s : samp_chunk).   (* load_file, line 213 *)

Definition trace : Type := list event.

(** The number of sessions a trace leaves open. *)
Fixpoint open_sessions (t : trace) : Z :=
  match t with
  | [] => 0
  | EvSessionOpen :: t' => open_sessions t' + 1
  | EvSessionClose :: t' => open_sessions t' - 1
  | _ :: t' => open_sessions t'
  end.

(** The arguments of one call.  [obs_dets] and [obs_samps] are what the
    database query of lines 141-150 returns for the observation;
    [status_given] says whether [load_file_args] has a ["status"] key. *)
Record call : Type := mkCall {
  obs_dets : Z;
  obs_samps : Z;
  ctl : controls;
  test : bool;
  status_given : bool
}.

Section Generator.

(** The loaded AxisManager and the loader are external. *)
Variable aman : Type.
Variable load_file : det_chunk -> samp_chunk -> result aman.

(** What a [yield] hands to the consumer: the tuple of line 211 or
    the AxisManager of line 213. *)
Inductive item : Type :=
| Pair (d : det_chunk) (s : samp_chunk)
| Loaded (a : aman).

(** Where the body is suspended.  In [Suspended d ds ss sall] the body
    waits at the [yield] for detector chunk [d] and the sample chunk
    before [ss]; [ds] are the detector chunks after [d], [sall] is the
    whole [samp_chunks] list the inner loop restarts from. *)
Inductive frame : Type :=
| Created
| Suspended (d : det_chunk) (ds : list det_chunk)
            (ss : list samp_chunk) (sall : list samp_chunk)
| Finished.

(** What a call of [next], [throw] or [close] returns to its caller. *)
Inductive signal : Type :=
| Yield (v : item)
| StopIteration
| Raised (e : exn)
| Returned            (* close() returning None *)
| Diverges.

(** The [for det_chunk in det_chunks] loop entered with [ds] left:
    the next [(det_chunk, samp_chunk)] the body reaches, and the
    frame it will be suspended in; [None] when both loops are over. *)
Fixpoint outer_loop (ds : list det_chunk) (sall : list samp_chunk)
  : option (det_chunk * samp_chunk * frame) :=
  match ds with
  | [] => None
  | d :: ds' =>
      match sall with
      | s :: ss => Some (d, s, Suspended d ds' ss sall)
      | [] => outer_loop ds' sall
      end
  end.

(** The [for samp_chunk in samp_chunks] loop continued with [ss]
    left for detector chunk [d]. *)
Definition inner_loop (d : det_chunk) (ds : list det_chunk)
           (ss sall : list samp_chunk)
  : option (det_chunk * samp_chunk * frame) :=
  match ss with
  | s :: ss' => Some (d, s, Suspended d ds ss' sall)
  | [] => outer_loop ds sall
  end.

(** Lines 210-222 for the pair the loops reached: evaluate the
    operand of [yield] and suspend, or leave the loops.  An
    exception of [load_file] leaves the [try]; the handler takes
    [GeneratorExit] only. *)
Definition emit (tst : bool) (t : trace)
           (nxt : option (det_chunk * samp_chunk * frame))
  : signal * frame * trace :=
  match nxt with
  | None => (StopIteration, Finished, t)
  | Some (d, s, fr) =>
      if tst then (Yield (Pair d s), fr, t)
      else
        let t' := t ++ [EvLoadFile d s] in
        match load_file d s with
        | Ok a => (Yield (Loaded a), fr, t')
        | Raise Py.GeneratorExit => (StopIteration, Finished, t')
        | Raise e => (Raised e, Finished, t')
        | OutOfFuel => (Diverges, Finished, t')
        end
  end.

(** [next(gen)] *)
Definition next (fuel : nat) (c : call) (fr : frame) (t : trace)
  : signal * frame * trace :=
  match fr with
  | Created =>
      let t := t ++ [EvSessionOpen; EvSessionClose] in
      match plan fuel (obs_dets c) (obs_samps c) (ctl c) with
      | Raise e => (Raised e, Finished, t)
      | OutOfFuel => (Diverges, Finished, t)
      | Ok (D, sall) =>
          let t := if status_given c then t else t ++ [EvStatusFromFile] in
          emit (test c) t (outer_loop D sall)
      end
  | Suspended d ds ss sall => emit (test c) t (inner_loop d ds ss sall)
  | Finished => (StopIteration, Finished, t)
  end.

(** [gen.throw(e)]: the exception is raised at the [yield] the body
    is suspended at, inside the [try] of line 207, whose only handler
    is [except GeneratorExit: pass]; after it the body ends.  A
    generator that has not started, or has finished, raises [e] to
    the caller without running any of the body. *)
Definition throw (e : exn) (fr : frame) (t : trace)
  : signal * frame * trace :=
  match fr with
  | Suspended _ _ _ _ =>
      match e with
      | Py.GeneratorExit => (StopIteration, Finished, t)
      | _ => (Raised e, Finished, t)
      end
  | Created | Finished => (Raised e, Finished, t)
  end.

(** [gen.close()]: nothing to do on a finished generator; otherwise
    throw [GeneratorExit] and return if the body ends or lets it
    through; a body that yields again is a [RuntimeError]. *)
Definition close (fr : frame) (t : trace) : signal * frame * trace :=
  match fr with
  | Finished => (Returned, Finished, t)
  | _ =>
      match throw Py.GeneratorExit fr t with
      | (StopIteration, fr', t') => (Returned, fr', t')
      | (Raised Py.GeneratorExit, fr', t') => (Returned, fr', t')
      | (Yield _, fr', t') =>
          (Raised (OtherException "generator ignored GeneratorExit"), fr', t')
      | other => other
      end
  end.

(** Up to [k] calls of [next], stopping at the first that does not
    yield: the items yielded, the signal that ended the iteration
    ([None] if all [k] calls yielded), the frame and the trace. *)
Fixpoint iterate (k : nat) (fuel : nat) (c : call) (fr : frame) (t : trace)
  : list item * option signal * frame * trace :=
  match k with
  | O => ([], None, fr, t)
  | S k' =>
      match next fuel c fr t with
      | (Yield v, fr', t') =>
          let '(vs, sg, fr'', t'') := iterate k' fuel c fr' t' in
          (v :: vs, sg, fr'', t'')
      | (sg, fr', t') => ([], Some sg, fr', t')
      end
  end.

(** The number of yields a frame still has in it. *)
Definition pending (fr : frame) : nat :=
  match fr with
  | Suspended _ ds ss sall =>
      (List.length ss + List.length ds * List.length sall)%nat
  | _ => O
  end.

(** [for x in get_batch(...)] run to its end: one [next] to start
    the body, then as many as the frame has pending, and one more. *)
Definition get_batch (fuel : nat) (c : call)
  : list item * option signal * frame * trace :=
  match next fuel c Created [] with
  | (Yield v, fr, t) =>
      let '(vs, sg, fr', t') := iterate (S (pending fr)) fuel c fr t in
      (v :: vs, sg, fr', t')
  | (sg, fr, t) => ([], Some sg, fr, t)
  end.

End Generator.

Arguments Pair {aman} d s.
Arguments Loaded {aman} a.
Arguments Yield {aman} v.
Arguments StopIteration {aman}.
Arguments Raised {aman} e.
Arguments Returned {aman}.
Arguments Diverges {aman}.

(** The cost the source charges a chunk: 4 bytes for each sample of
    each detector (line 162). *)
Definition chunk_bytes (d : det_chunk) (s : samp_chunk) : Z :=
  det_len d * (snd s - fst s) * 4.

End GetBatch.

(* ------------------------------------------------------------------ *)
(** ** [make_level3_hk.main]: the observation query and the driver loop *)

Module Level3HK.

Local Open Scope string_scope.

(** [f"{n}"] for an integer [n] *)
Definition str_of_int (n : Z) : string :=
  NilZero.string_of_int (Z.to_int n).

(** [s[4:-4]] *)
Definition slice_4_m4 (s : string) : string :=
  substring 4 (String.length s - 4 - 4) s.

(** The arguments of [main] the query is built from. *)
Record query_args : Type := mkQueryArgs {
  query_text : option string;
  min_ctime : option Z;
  max_ctime : option Z;
  obs_id : option string
}.

(** The keys of the configuration file that stand in for an argument
    that was not given; [None] is a key that is absent (or null). *)
Record config : Type := mkConfig {
  cfg_query_text : option string;
  cfg_min_ctime : option Z;
  cfg_max_ctime : option Z
}.

Definition or_else {A} (x dflt : option A) : option A :=
  match x with
  | Some _ => x
  | None => dflt
  end.

(** Lines 89-100 (the [query_tags] fallback does not enter the query
    text). *)
Definition with_config (cfg : config) (a : query_args) : query_args :=
  mkQueryArgs (or_else (query_text a) (cfg_query_text cfg))
              (or_else (min_ctime a) (cfg_min_ctime cfg))
              (or_else (max_ctime a) (cfg_max_ctime cfg))
              (obs_id a).

(** Lines 123-135 *)
Definition tot_query (a : query_args) : string :=
  match obs_id a with
  | Some o => "obs_id=='" ++ o ++ "'"
  | None =>
      let q := "and " in
      let q := match query_text a with
               | Some t => q ++ t ++ " and "
               | None => q
               end in
      let q := match min_ctime a with
               | Some m => q ++ "timestamp>=" ++ str_of_int m ++ " and "
               | None => q
               end in
      let q := match max_ctime a with
               | Some m => q ++ "timestamp<=" ++ str_of_int m ++ " and "
               | None => q
               end in
      let q := slice_4_m4 q in
      if String.eqb q "" then "1" else q
  end.

(** The filters the caller supplied, in the order the source appends
    them. *)
Definition filters (a : query_args) : list string :=
  (match query_text a with Some t => [t] | None => [] end ++
   match min_ctime a with
   | Some m => [("timestamp>=" ++ str_of_int m)%string]
   | None => []
   end ++
   match max_ctime a with
   | Some m => [("timestamp<=" ++ str_of_int m)%string]
   | None => []
   end)%list.

(** The parts of the [try] body of lines 144-179, in order: metadata
    and observation lookup (144-145), assembly of the housekeeping
    AxisManager (149-175), [hkman.save] (176), [man_db.add_entry]
    (177). *)
Inductive stage : Type := Resolve | Build | Save | Index.

Inductive event : Type :=
| EvGetMeta (obs : string)         (* ctx.get_meta(obs_id), line 144 *)
| EvSave (obs : string)            (* hkman.save, line 176 *)
| EvAddEntry (obs : string)        (* man_db.add_entry, line 177 *)
| EvLogSaved (obs : string)        (* logger.info, line 179 *)
| EvLogError (e : exn) (obs : string).   (* logger.error, line 182 *)

Section Driver.

(** Which part of the processing of which observation raises, and
    what. *)
Variable fault : string -> stage -> option exn.

(** The [try] body for one observation: the events it adds, and the
    exception that ended it, if any.  A stage that raises has no
    event of its own; the ones before it have happened. *)
Definition try_body (obs : string) : list event * option exn :=
  let t := [EvGetMeta obs] in
  match fault obs Resolve with
  | Some e => (t, Some e)
  | None =>
  match fault obs Build with
  | Some e => (t, Some e)
  | None =>
  match fault obs Save with
  | Some e => (t, Some e)
  | None =>
  let t := (t ++ [EvSave obs])%list in
  match fault obs Index with
  | Some e => (t, Some e)
  | None => ((t ++ [EvAddEntry obs; EvLogSaved obs])%list, None)
  end end end end.

(** Lines 141-183: [for obs in obs_list: try: ... except Exception
    as e: logger.error(...); continue].  Returns the trace and the
    exception that left the loop, if one did. *)
Fixpoint main_loop (obs_list : list string) (t : list event)
  : list event * option exn :=
  match obs_list with
  | [] => (t, None)
  | obs :: rest =>
      match try_body obs with
      | (evs, None) => main_loop rest (t ++ evs)%list
      | (evs, Some e) =>
          if is_Exception e
          then main_loop rest (t ++ evs ++ [EvLogError e obs])%list
          else ((t ++ evs)%list, Some e)
      end
  end.

Definition raises (obs : string) : bool :=
  match snd (try_body obs) with Some _ => true | None => false end.

End Driver.

(** The observations whose processing was started, was logged as
    saved, was logged as failed. *)
Fixpoint started (t : list event) : list string :=
  match t with
  | [] => []
  | EvGetMeta o :: t' => o :: started t'
  | _ :: t' => started t'
  end.

Fixpoint logged_saved (t : list event) : list string :=
  match t with
  | [] => []
  | EvLogSaved o :: t' => o :: logged_saved t'
  | _ :: t' => logged_saved t'
  end.

Fixpoint logged_error (t : list event) : list string :=
  match t with
  | [] => []
  | EvLogError _ o :: t' => o :: logged_error t'
  | _ :: t' => logged_error t'
  end.

End Level3HK.

(* ------------------------------------------------------------------ *)
(** ** [make_level3_hk.main]: the fields wrapped for one observation *)

Module Level3Fields.

Definition IndexError : exn := OtherException "IndexError".

(** [s.split(sep)] for a separator of one character *)
Fixpoint split_on (sep : ascii) (s : string) : list string :=
  match s with
  | EmptyString => [EmptyString]
  | String ch s' =>
      if Ascii.eqb ch sep then EmptyString :: split_on sep s'
      else match split_on sep s' with
           | h :: t => String ch h :: t
           | [] => [String ch EmptyString]
           end
  end.

(** [full_field.split('.')[1]] *)
Definition data_field_of (full_field : string) : result string :=
  match nth_error (split_on "."%char full_field) 1 with
  | Some f => Ok f
  | None => Raise IndexError
  end.

(** Line 166: [[full_field.split('.')[1] for full_field in full_fields]] *)
Fixpoint data_fields_of (full_fields : list string) : result (list string) :=
  match full_fields with
  | [] => Ok []
  | f :: rest =>
      df <- data_field_of f ;;
      dfs <- data_fields_of rest ;;
      Ok (df :: dfs)
  end.

(** [zip(full_fields, data_fields, aliases)] *)
Fixpoint zip3 (a b c : list string) : list (string * string * string) :=
  match a, b, c with
  | x :: a', y :: b', z :: c' => (x, y, z) :: zip3 a' b' c'
  | _, _, _ => []
  end.

(** One call [hkman.wrap(alias, _hkman[data_field][data_field][index],
    [(0, 'samps')])] of line 172. *)
Record wrap_call : Type := mkWrap {
  w_alias : string;
  w_data_field : string;
  w_index : Z
}.

(** Lines 167-172, from iteration [i] on: [data_fields] is the whole
    list of line 166, [num_different_field] the counter as the
    iteration finds it. *)
Fixpoint wrap_loop (data_fields : list string) (i : nat)
         (num_different_field : Z)
         (items : list (string * string * string)) : list wrap_call :=
  match items with
  | [] => []
  | (full_field, data_field, alias) :: rest =>
      let num_different_field :=
        if (0 <? i)%nat
        then num_different_field
             + (if String.eqb (nth (i - 1) data_fields EmptyString) data_field
                then 0 else 1)
        else num_different_field in
      let i_in_same_field := Z.of_nat i - num_different_field in
      mkWrap alias data_field i_in_same_field
      :: wrap_loop data_fields (S i) num_different_field rest
  end.

(** Lines 164-172: the wraps made for one observation, in order. *)
Definition wraps (full_fields aliases : list string) : result (list wrap_call) :=
  data_fields <- data_fields_of full_fields ;;
  Ok (wrap_loop data_fields 0 0 (zip3 full_fields data_fields aliases)).

End Level3Fields.

(* ------------------------------------------------------------------ *)
(** ** [get_obs_folder], [get_obs_outputs], [get_obs_plots] *)

Module ObsPaths.

Local Open Scope string_scope.

(** [b.startswith('/')] and [path.endswith('/')] *)
Definition starts_with_sep (s : string) : bool :=
  match s with
  | String ch _ => Ascii.eqb ch "/"
  | EmptyString => false
  end.

Fixpoint ends_with_sep (s : string) : bool :=
  match s with
  | EmptyString => false
  | String ch EmptyString => Ascii.eqb ch "/"
  | String _ s' => ends_with_sep s'
  end.

(** One turn of the loop of [posixpath.join]: an absolute component
    replaces what came before, any other is appended, after a ['/']
    unless the path is empty or ends with one. *)
Definition join_step (path b : string) : string :=
  if starts_with_sep b then b
  else if String.eqb path "" || ends_with_sep path then path ++ b
  else path ++ "/" ++ b.

(** [os.path.join(a, *p)] *)
Definition path_join (a : string) (p : list string) : string :=
  fold_left join_step p a.

(** A row of the [Observations] table, with the columns the functions
    read. *)
Record observation : Type := mkObservation {
  o_obs_id : string;
  action_ctime : Z;
  stream_id : string;
  action_name : string
}.

(** The [G3tSmurf] archive: where its metadata lives, and its table of
    observations.  [obs_id] is the primary key of the table, so a query
    by [obs_id] sees at most one row: the first of the list that has
    it. *)
Record archive : Type := mkArchive {
  meta_path : string;
  observations : list observation
}.

(** [session.query(Observations).filter(Observations.obs_id == obs_id)] *)
Definition query_by_id (obs_id : string) (a : archive) : option observation :=
  find (fun o => String.eqb (o_obs_id o) obs_id) (observations a).

Definition NoResultFound : exn := OtherException "NoResultFound".
Definition NameError : exn := OtherException "NameError".
Definition FileNotFoundError : exn := OtherException "FileNotFoundError".
Definition NotADirectoryError : exn := OtherException "NotADirectoryError".

(** [query.one()] on a query by primary key: the row, or
    [NoResultFound]. *)
Definition one {A} (row : option A) : result A :=
  match row with
  | Some r => Ok r
  | None => Raise NoResultFound
  end.

Inductive db_event : Type :=
| DbSessionOpen        (* archive.Session() *)
| DbSessionClose.      (* session.close() *)

(** [get_obs_folder] (lines 19-34): the folder, or the exception of the
    query, and what happened to the session. *)
Definition get_obs_folder (obs_id : string) (a : archive)
  : result string * list db_event :=
  match one (query_by_id obs_id a) with
  | Ok obs =>
      (Ok (path_join (meta_path a)
             [substring 0 5 (Level3HK.str_of_int (action_ctime obs));
              stream_id obs;
              Level3HK.str_of_int (action_ctime obs) ++ "_" ++ action_name obs]),
       [DbSessionOpen; DbSessionClose])
  | Raise e => (Raise e, [DbSessionOpen])
  | OutOfFuel => (OutOfFuel, [DbSessionOpen])
  end.

(** What is at a path of the file system. *)
Inductive node : Type :=
| Dir (entries : list string)
| File.

Section FileSystem.

Variable fs : string -> option node.

(** [os.path.exists(path)] and [os.listdir(path)] *)
Definition exists_path (path : string) : bool :=
  match fs path with
  | Some _ => true
  | None => false
  end.

Definition listdir (path : string) : result (list string) :=
  match fs path with
  | Some (Dir entries) => Ok entries
  | Some File => Raise NotADirectoryError
  | None => Raise FileNotFoundError
  end.

(** The body shared by [get_obs_outputs] (lines 37-51) and
    [get_obs_plots] (lines 54-68).  When the path does not exist, the
    argument of [logger.error] reads [obs.obs_id], and no [obs] is
    bound in these functions. *)
Definition get_obs_subfolder (sub : string) (obs_id : string) (a : archive)
  : result (list string) * list db_event :=
  match get_obs_folder obs_id a with
  | (Ok folder, t) =>
      let path := path_join folder [sub] in
      if negb (exists_path path) then (Raise NameError, t)
      else
        (files <- listdir path ;;
         Ok (map (fun f => path_join path [f]) files), t)
  | (Raise e, t) => (Raise e, t)
  | (OutOfFuel, t) => (OutOfFuel, t)
  end.

Definition get_obs_outputs := get_obs_subfolder "outputs".
Definition get_obs_plots := get_obs_subfolder "plots".

End FileSystem.

End ObsPaths.

(* ------------------------------------------------------------------ *)
(** ** [replace_none] and the loop of [add_detmap_info] *)

Module DetMap.

Local Open Scope string_scope.

Definition TypeError : exn := OtherException "TypeError".
Definition ValueError : exn := OtherException "ValueError".
Definition OverflowError : exn := OtherException "OverflowError".

(** What is passed as [dtype]: the types [str], [float], [int], or
    anything else. *)
Inductive pytype : Type := TStr | TFloat | TInt | TOther.

(** [np.isnan] turns a Python integer into an array first: of 64-bit
    integers, signed or unsigned, when the integer fits one of them,
    and of objects when it does not. *)
Definition fits_64_bits (n : Z) : bool :=
  ((-9223372036854775808 <=? n) && (n <=? 18446744073709551615))%Z.

(** What a column made with [dtype=int] can hold. *)
Definition fits_int64 (n : Z) : bool :=
  ((-9223372036854775808 <=? n) && (n <=? 9223372036854775807))%Z.

Section Floats.

(** Double-precision numbers are kept abstract: [isnan] is [np.isnan],
    [nan] is [np.nan], [zero] is what [wrap_new] fills a float column
    with, [radians] is [np.radians], [eq_int] is [==] between an integer
    of the AxisManager and a number of the detector map, [fmt] is how
    a number prints ([str], an f-string).  [int_of_float] is [int(x)],
    the integer part of [x], which an infinity and a NaN do not have;
    [float_of_int] is [float(n)], which an integer beyond the doubles
    does not have; [float_of_str] and [int_of_str] are [float(s)] and
    [int(s)], which only the strings that spell a number have. *)
Variable f8 : Type.
Variable isnan : f8 -> bool.
Variable nan : f8.
Variable zero : f8.
Variable radians : f8 -> f8.
Variable eq_int : Z -> f8 -> bool.
Variable fmt : f8 -> string.
Variable int_of_float : f8 -> option Z.
Variable float_of_int : Z -> option f8.
Variable float_of_str : string -> option f8.
Variable int_of_str : string -> option Z.

Inductive value : Type :=
| VStr (s : string)
| VFloat (x : f8)
| VInt (n : Z).

(** [val == "..."]: a number is never equal to a string. *)
Definition is_str (v : value) (s : string) : bool :=
  match v with
  | VStr s' => String.eqb s' s
  | _ => false
  end.

(** [np.isnan(val)]: not defined on strings, nor on an integer that
    does not fit 64 bits. *)
Definition np_isnan (v : value) : result bool :=
  match v with
  | VStr _ => Raise TypeError
  | VFloat x => Ok (isnan x)
  | VInt n => if fits_64_bits n then Ok false else Raise TypeError
  end.

(** [replace_none] (lines 229-236) *)
Definition replace_none (val : value) (dtype : pytype) (replace_val : value)
  : result value :=
  match dtype with
  | TStr =>
      if is_str val "null" || is_str val "NC" then Ok replace_val else Ok val
  | TFloat | TInt =>
      b <- np_isnan val ;;
      if b then Ok replace_val else Ok val
  | TOther => Ok val
  end.

(** A row of the detector map, with the columns the loop reads. *)
Record detmap_row : Type := mkRow {
  smurf_band : f8;
  smurf_channel : f8;
  pol : string;
  bandpass : string;
  det_row : f8;
  det_col : f8;
  det_x : f8;
  det_y : f8;
  angle_actual_deg : f8;
  det_type : string;
  detector_id : string
}.

(** A detector of the AxisManager: [det_info.smurf.band[i]] and
    [det_info.smurf.channel[i]]. *)
Record detector : Type := mkDetector {
  band : Z;
  channel : Z
}.

(** Position [i] of the eight columns of [wafer], each with the type
    [wrap_new] gave it (lines 269-276): strings of at most four
    characters, doubles, 64-bit integers. *)
Record entry : Type := mkEntry {
  e_pol : string;
  e_det_x : f8;
  e_det_y : f8;
  e_angle : f8;
  e_det_row : Z;
  e_det_col : Z;
  e_type : string;
  e_bandpass : string
}.

(** What [wrap_new] leaves at every position (lines 266-276): empty
    strings and zeros. *)
Definition blank : entry := mkEntry "" zero zero zero 0 0 "" "".

(** [msk] of lines 279-280, as the rows it selects. *)
Definition matching (d : detector) (detmap : list detmap_row)
  : list detmap_row :=
  filter (fun r => eq_int (band d) (smurf_band r)
                   && eq_int (channel d) (smurf_channel r)) detmap.

(** [f"{v}"], and [f"f{bandpass}"] *)
Definition str_of_value (v : value) : string :=
  match v with
  | VStr s => s
  | VFloat x => fmt x
  | VInt n => Level3HK.str_of_int n
  end.

Definition f_prefixed (v : value) : value := VStr ("f" ++ str_of_value v).

(** [column[i] = v] for a column of strings of at most [width]
    characters: the value is printed and what goes beyond the width is
    cut off. *)
Definition store_str (width : nat) (v : value) : string :=
  substring 0 width (str_of_value v).

(** [column[i] = v] for a column of doubles *)
Definition store_float (v : value) : result f8 :=
  match v with
  | VFloat x => Ok x
  | VInt n =>
      match float_of_int n with
      | Some x => Ok x
      | None => Raise OverflowError
      end
  | VStr s =>
      match float_of_str s with
      | Some x => Ok x
      | None => Raise ValueError
      end
  end.

(** A Python integer into a 64-bit one *)
Definition to_int64 (n : Z) : result Z :=
  if fits_int64 n then Ok n else Raise OverflowError.

(** [column[i] = v] for a column of 64-bit integers: the value goes
    through [int(v)] first. *)
Definition store_int (v : value) : result Z :=
  match v with
  | VInt n => to_int64 n
  | VFloat x =>
      if isnan x then Raise ValueError
      else match int_of_float x with
           | Some n => to_int64 n
           | None => Raise OverflowError
           end
  | VStr s =>
      match int_of_str s with
      | Some n => to_int64 n
      | None => Raise ValueError
      end
  end.

(** Lines 287-297 for the row [r] that matched: each value goes
    through [replace_none] and is stored in its column of [wafer]. *)
Definition fill (r : detmap_row) : result entry :=
  p <- replace_none (VStr (pol r)) TStr (VStr "NC") ;;
  let p := store_str 4 p in
  x <- replace_none (VFloat (det_x r)) TFloat (VFloat nan) ;;
  x <- store_float x ;;
  y <- replace_none (VFloat (det_y r)) TFloat (VFloat nan) ;;
  y <- store_float y ;;
  a <- replace_none (VFloat (radians (angle_actual_deg r))) TFloat
                    (VFloat nan) ;;
  a <- store_float a ;;
  row <- replace_none (VFloat (det_row r)) TInt (VInt (-1)) ;;
  row <- store_int row ;;
  col <- replace_none (VFloat (det_col r)) TInt (VInt (-1)) ;;
  col <- store_int col ;;
  ty <- replace_none (VStr (det_type r)) TStr (VStr "NC") ;;
  let ty := store_str 4 ty in
  bp <- replace_none (VStr (bandpass r)) TStr (VStr "NC") ;;
  let bp := if negb (is_str bp "NC") then f_prefixed bp else bp in
  Ok (mkEntry p x y a row col ty (store_str 4 bp)).

(** [xs[i] = v] *)
Fixpoint set_nth {A} (i : nat) (v : A) (xs : list A) : list A :=
  match xs, i with
  | [], _ => []
  | _ :: xs', O => v :: xs'
  | x :: xs', S i' => x :: set_nth i' v xs'
  end.

(** The loop of lines 278-297 from detector [i] on.  [ids] is the
    column [aman.det_info.det_id], of strings of at most fifty
    characters, and [entries] the columns of [wafer], as they are so
    far.  [wafer] is a local of [add_detmap_info], wrapped into [aman]
    at line 299 once the loop is over: when a store raises, the
    function is left with the exception and what is left behind is
    [det_id], already written for detector [i] (line 285). *)
Fixpoint detmap_loop (detmap : list detmap_row) (dets : list detector)
         (i : nat) (ids : list string) (entries : list entry)
  : result (list entry) * list string :=
  match dets with
  | [] => (Ok entries, ids)
  | d :: dets' =>
      match matching d detmap with
      | [r] =>
          let ids := set_nth i (store_str 50 (VStr (detector_id r))) ids in
          match fill r with
          | Ok e => detmap_loop detmap dets' (S i) ids (set_nth i e entries)
          | Raise ex => (Raise ex, ids)
          | OutOfFuel => (OutOfFuel, ids)
          end
      | _ => detmap_loop detmap dets' (S i) ids entries
      end
  end.

(** Lines 266-297: the columns are made, one position for each
    detector, and the loop fills them.  The result is the columns of
    [wafer], or the exception, and the column [det_id]. *)
Definition detmap_entries (detmap : list detmap_row) (dets : list detector)
  : result (list entry) * list string :=
  detmap_loop detmap dets 0 (map (fun _ => "") dets)
              (map (fun _ => blank) dets).

End Floats.

Arguments VStr {f8} s.
Arguments VFloat {f8} x.
Arguments VInt {f8} n.

End DetMap.

Import GetBatch Level3HK Level3Fields ObsPaths DetMap.

(* ------------------------------------------------------------------ *)
(** ** Properties of a list of ranges *)

(** [(lo, hi)] is the half-open range [lo <= x < hi]. *)
Definition in_range (x : Z) (r : Z * Z) : Prop := fst r <= x < snd r.

(** Every range ends where the next one starts. *)
Fixpoint contiguous (R : list (Z * Z)) : Prop :=
  match R with
  | r :: (r' :: _) as tl => snd r = fst r' /\ contiguous tl
  | _ => True
  end.

(** A range earlier in the list lies wholly before a later one. *)
Definition ordered_disjoint (R : list (Z * Z)) : Prop :=
  forall i j ri rj, (i < j)%nat ->
    nth_error R i = Some ri -> nth_error R j = Some rj ->
    snd ri <= fst rj.

(** The union of the ranges is exactly [lo, hi). *)
Definition covers (lo hi : Z) (R : list (Z * Z)) : Prop :=
  forall x, lo <= x < hi <-> exists r, In r R /\ in_range x r.

Definition is_partition (lo hi : Z) (R : list (Z * Z)) : Prop :=
  Forall (fun r => fst r < snd r) R /\
  contiguous R /\ ordered_disjoint R /\ covers lo hi R.

(** The bounds of a detector chunk that is a [range]. *)
Definition as_range (p : Z * Z) : det_chunk := DRange (fst p) (snd p).

(** The ranges of [R] laid end to end from [a] to [c]. *)
Inductive chain : Z -> Z -> list (Z * Z) -> Prop :=
| chain_nil a : chain a a []
| chain_cons a b c R : a < b -> chain b c R -> chain a c ((a, b) :: R).

(** What the detector controls alone determine, and what the sample
    controls alone determine, when no [ram_limit] is given. *)
Definition dets_only (od : Z) (ndc nd : option Z)
           (dcs : option (list det_chunk)) : list det_chunk :=
  match ndc, nd, dcs with
  | Some k, _, _ =>
      let n := - ((- od) / k) in det_ranges n od (- ((- od) / n))
  | None, Some n, _ => det_ranges n od (- ((- od) / n))
  | None, None, Some d => d
  | None, None, None => [DRange 0 od]
  end.

Definition samps_only (os : Z) (nsc ns : option Z)
           (scs : option (list samp_chunk)) : list samp_chunk :=
  match nsc, ns, scs with
  | Some k, _, _ =>
      let n := - ((- os) / k) in samp_ranges n os (- ((- os) / n))
  | None, Some n, _ => samp_ranges n os (- ((- os) / n))
  | None, None, Some s => s
  | None, None, None => [(0, os)]
  end.

(** The chunks a suspended frame has not reached yet, in the order the
    loops will reach them. *)
Definition rest_of (fr : frame) : list (det_chunk * samp_chunk) :=
  match fr with
  | Suspended d ds ss sall => map (pair d) ss ++ list_prod ds sall
  | _ => []
  end.

(** The chunks [load_file] was called on, in order. *)
Fixpoint loads (t : trace) : list (det_chunk * samp_chunk) :=
  match t with
  | [] => []
  | EvLoadFile d s :: t' => (d, s) :: loads t'
  | _ :: t' => loads t'
  end.

(** What a [yield] hands out for a chunk when the loader returns
    [ld d s], and the events the body has on the way to it. *)
Definition item_for {aman} (tst : bool) (ld : det_chunk -> samp_chunk -> aman)
           (p : det_chunk * samp_chunk) : item aman :=
  if tst then Pair (fst p) (snd p) else Loaded (ld (fst p) (snd p)).

Definition events_for (tst : bool) (R : list (det_chunk * samp_chunk))
  : trace :=
  if tst then [] else map (fun p => EvLoadFile (fst p) (snd p)) R.

(** The events of lines 141-202, before the loops. *)
Definition prologue (c : call) : trace :=
  [EvSessionOpen; EvSessionClose] ++
  if status_given c then [] else [EvStatusFromFile].

(** The outcome of an iteration and its components. *)
Definition outcome (aman : Type) : Type :=
  (list (item aman) * option (signal aman) * frame * trace)%type.

Definition items_of {aman} (r : outcome aman) : list (item aman) :=
  fst (fst (fst r)).
Definition frame_of {aman} (r : outcome aman) : frame := snd (fst r).
Definition trace_of {aman} (r : outcome aman) : trace := snd r.

(** The chunk lists of a call, empty when the controls do not resolve. *)
Definition planned (fuel : nat) (c : call) : list (det_chunk * samp_chunk) :=
  match plan fuel (obs_dets c) (obs_samps c) (ctl c) with
  | Ok (D, sall) => list_prod D sall
  | _ => []
  end.

(** What the loops reach next is the head of the product, and the frame
    they suspend in holds its tail. *)
Definition reaches (nxt : option (det_chunk * samp_chunk * frame))
           (R : list (det_chunk * samp_chunk)) : Prop :=
  match nxt with
  | None => R = []
  | Some (d, s, fr) => R = (d, s) :: rest_of fr /\ fr <> Created
  end.

(** The rest of an iteration after one call of [next] returned [r],
    with [k] more calls allowed. *)
Definition continue_with {aman}
           (load_file : det_chunk -> samp_chunk -> result aman)
           (k fuel : nat) (c : call) (r : signal aman * frame * trace)
  : outcome aman :=
  match r with
  | (Yield v, fr', t') =>
      let '(vs, sg, fr'', t'') := iterate aman load_file k fuel c fr' t' in
      (v :: vs, sg, fr'', t'')
  | (sg, fr', t') => ([], Some sg, fr', t')
  end.

(** The events of a run of [k] calls from a started frame are those
    of at most [k] of the chunks it had left. *)
Definition prefix_run {aman}
           (load_file : det_chunk -> samp_chunk -> result aman)
           (fuel : nat) (c : call) (k : nat) : Prop :=
  forall fr t, fr <> Created ->
    exists n, (n <= k)%nat /\
      trace_of (iterate aman load_file k fuel c fr t)
      = t ++ events_for (test c) (firstn n (rest_of fr)).

(** Whether detector [x] at sample [y] lies in a chunk. *)
Definition det_has (x : Z) (d : det_chunk) : bool :=
  match d with
  | DRange lo hi => (lo <=? x) && (x <? hi)
  | DList l => existsb (Z.eqb x) l
  end.

Definition samp_has (y : Z) (s : samp_chunk) : bool :=
  (fst s <=? y) && (y <? snd s).

Definition in_chunk (x y : Z) (p : det_chunk * samp_chunk) : bool :=
  det_has x (fst p) && samp_has y (snd p).

(** [len] of a sample chunk seen as a range. *)
Definition samp_len (s : samp_chunk) : Z := snd s - fst s.

(** The events of one turn of the driver loop for an observation:
    those of the [try] body and, if it raised, the error logged. *)
Definition obs_events (fault : string -> stage -> option exn) (obs : string)
  : list Level3HK.event :=
  fst (try_body fault obs) ++
  match snd (try_body fault obs) with
  | Some e => [EvLogError e obs]
  | None => []
  end.

(** The observations whose group was written, whose entry was added. *)
Fixpoint saved (t : list Level3HK.event) : list string :=
  match t with
  | [] => []
  | EvSave o :: t' => o :: saved t'
  | _ :: t' => saved t'
  end.

Fixpoint indexed (t : list Level3HK.event) : list string :=
  match t with
  | [] => []
  | EvAddEntry o :: t' => o :: indexed t'
  | _ :: t' => indexed t'
  end.

(** The processing of an observation gets as far as [hkman.save]. *)
Definition gets_saved (fault : string -> stage -> option exn) (obs : string)
  : bool :=
  match fault obs Resolve, fault obs Build, fault obs Save with
  | None, None, None => true
  | _, _, _ => false
  end.

(** No ['/'] anywhere in a name. *)
Fixpoint no_sep (s : string) : bool :=
  match s with
  | EmptyString => true
  | String ch s' => negb (Ascii.eqb ch "/") && no_sep s'
  end.

(** The marker a string column gets for a missing value. *)
Definition or_nc (s : string) : string :=
  if String.eqb s "null" || String.eqb s "NC" then "NC"%string else s.

(** What a column of 64-bit integers gets for the number [x] of the
    detector map: -1 for a NaN, else the integer part of [x]; nothing
    when [x] has no integer part, or one that does not fit. *)
Definition int_col {f8} (isnan : f8 -> bool) (int_of_float : f8 -> option Z)
           (x : f8) : option Z :=
  if isnan x then Some (-1)
  else match int_of_float x with
       | Some n => if fits_int64 n then Some n else None
       | None => None
       end.

(** The entry the loop of [add_detmap_info] writes for a matching row,
    when its [det_row] and [det_col] have a place in their columns. *)
Definition entry_of {f8} (isnan : f8 -> bool) (nan : f8)
           (radians : f8 -> f8) (int_of_float : f8 -> option Z)
           (r : detmap_row f8) : option (entry f8) :=
  let num := fun x => if isnan x then nan else x in
  match int_col isnan int_of_float (det_row f8 r),
        int_col isnan int_of_float (det_col f8 r) with
  | Some row, Some col =>
      Some (mkEntry f8 (substring 0 4 (or_nc (pol f8 r)))
                    (num (det_x f8 r)) (num (det_y f8 r))
                    (num (radians (angle_actual_deg f8 r)))
                    row col
                    (substring 0 4 (or_nc (det_type f8 r)))
                    (substring 0 4
                       (if String.eqb (or_nc (bandpass f8 r)) "NC"
                        then "NC"%string
                        else ("f" ++ bandpass f8 r)%string)))
  | _, _ => None
  end.

(** What the loop of [add_detmap_info] leaves when it is run from
    detector [i] on, with [ids] and [entries] in the columns: [out] is
    what [detmap_loop] gives. *)
Definition loop_post {f8} (isnan : f8 -> bool) (nan : f8)
           (radians : f8 -> f8) (eq_int : Z -> f8 -> bool)
           (int_of_float : f8 -> option Z)
           (detmap : list (detmap_row f8)) (dets : list detector)
           (i : nat) (ids : list string) (entries : list (entry f8))
           (out : result (list (entry f8)) * list string) : Prop :=
  let entry_for := entry_of isnan nan radians int_of_float in
  let det_id_of := fun r => substring 0 50 (detector_id f8 r) in
  List.length (snd out) = List.length ids /\
  (forall j, (j < i)%nat -> nth_error (snd out) j = nth_error ids j) /\
  match fst out with
  | Ok es =>
      List.length es = List.length entries /\
      (forall j, (j < i)%nat -> nth_error es j = nth_error entries j) /\
      forall j d, nth_error dets j = Some d ->
        nth_error es (i + j)
        = match matching f8 eq_int d detmap with
          | [r] => entry_for r
          | _ => nth_error entries (i + j)
          end /\
        nth_error (snd out) (i + j)
        = match matching f8 eq_int d detmap with
          | [r] => Some (det_id_of r)
          | _ => nth_error ids (i + j)
          end
  | Raise e =>
      e = OverflowError /\
      exists k d r,
        nth_error dets k = Some d /\ matching f8 eq_int d detmap = [r] /\
        entry_for r = None /\
        (forall j d' r', (j < k)%nat -> nth_error dets j = Some d' ->
           matching f8 eq_int d' detmap = [r'] -> entry_for r' <> None) /\
        forall j d', nth_error dets j = Some d' ->
          nth_error (snd out) (i + j)
          = match matching f8 eq_int d' detmap with
            | [r'] => if (j <=? k)%nat then Some (det_id_of r')
                      else nth_error ids (i + j)
            | _ => nth_error ids (i + j)
            end
  | OutOfFuel => False
  end.

(** A stand-in for double-precision numbers where they have to be
    written down: an integer, or NaN. *)
Definition toy_isnan (x : option Z) : bool :=
  match x with Some _ => false | None => true end.

Definition toy_eq_int (n : Z) (x : option Z) : bool :=
  match x with Some m => n =? m | None => false end.

(** A control is usable as a count or a size when it is at least 1. *)
Definition positive (o : option Z) : Prop :=
  match o with
  | Some v => 1 <= v
  | None => True
  end.

(** A control is a natural number when it is not negative. *)
Definition nonneg (o : option Z) : Prop :=
  match o with
  | Some v => 0 <= v
  | None => True
  end.

Definition given {A} (o : option A) : Prop := o <> None.

(* ------------------------------------------------------------------ *)
(** ** Arithmetic of the source's divisions *)

Lemma floordiv_ok a b : b <> 0 -> floordiv a b = Ok (a / b).
Proof.
  intros Hb. unfold floordiv.
  destruct (Z.eqb_spec b 0); [contradiction | reflexivity].
Qed.

Lemma ceildiv_zero a : ceildiv a 0 = Raise ZeroDivisionError.
Proof. reflexivity. Qed.

Lemma ceildiv_spec a b :
  1 <= b -> exists k, ceildiv a b = Ok k /\ (k - 1) * b < a <= k * b.
Proof.
  intros Hb. exists (- ((- a) / b)). split.
  - unfold ceildiv. destruct (Z.eqb_spec b 0); [lia | reflexivity].
  - pose proof (Z.mul_div_le (- a) b ltac:(lia)).
    pose proof (Z.mul_succ_div_gt (- a) b ltac:(lia)).
    nia.
Qed.

(* ------------------------------------------------------------------ *)
(** ** Chains are partitions *)

Lemma chain_le a c R : chain a c R -> a <= c.
Proof. induction 1; lia. Qed.

Lemma chain_within a c R :
  chain a c R -> forall r, In r R -> a <= fst r /\ fst r < snd r /\ snd r <= c.
Proof.
  induction 1 as [a | a b c R Hab Hch IH]; intros r Hin.
  - destruct Hin.
  - destruct Hin as [<- | Hin]; simpl.
    + apply chain_le in Hch. lia.
    + specialize (IH r Hin). lia.
Qed.

Lemma chain_nonempty a c R : chain a c R -> Forall (fun r => fst r < snd r) R.
Proof.
  intros H. apply Forall_forall. intros r Hin.
  destruct (chain_within _ _ _ H r Hin) as (_ & ? & _). assumption.
Qed.

Lemma chain_contiguous a c R : chain a c R -> contiguous R.
Proof.
  induction 1 as [a | a b c R Hab Hch IH]; simpl; [exact I |].
  destruct Hch; simpl in *; [exact I | split; [reflexivity | exact IH]].
Qed.

Lemma chain_ordered a c R : chain a c R -> ordered_disjoint R.
Proof.
  induction 1 as [a | a b c R Hab Hch IH]; intros i j ri rj Hij Hi Hj.
  - destruct i; discriminate.
  - destruct j as [| j]; [lia |]. simpl in Hj.
    destruct i as [| i]; simpl in Hi.
    + injection Hi as <-. simpl.
      apply nth_error_In in Hj.
      destruct (chain_within _ _ _ Hch rj Hj) as (? & _). assumption.
    + apply (IH i j ri rj); [lia | assumption | assumption].
Qed.

Lemma chain_covers a c R : chain a c R -> covers a c R.
Proof.
  induction 1 as [a | a b c R Hab Hch IH]; intros x; split.
  - lia.
  - intros (r & [] & _).
  - intros Hx. destruct (Z_lt_le_dec x b) as [Hlt | Hge].
    + exists (a, b). split; [left; reflexivity | unfold in_range; simpl; lia].
    + apply chain_le in Hch.
      destruct (proj1 (IH x) ltac:(lia)) as (r & Hin & Hr).
      exists r. split; [right; assumption | assumption].
  - intros (r & [<- | Hin] & Hr); unfold in_range in Hr; simpl in Hr.
    + apply chain_le in Hch. lia.
    + destruct (chain_within _ _ _ Hch r Hin) as (? & ? & ?). lia.
Qed.

Lemma chain_partition a c R : chain a c R -> is_partition a c R.
Proof.
  intros H. split; [| split; [| split]].
  - eapply chain_nonempty; eassumption.
  - eapply chain_contiguous; eassumption.
  - eapply chain_ordered; eassumption.
  - apply chain_covers; assumption.
Qed.

(** The list comprehension of lines 178 and 187, started at index [i]. *)
Lemma samp_ranges_chain_from n total :
  1 <= n ->
  forall (k : nat) (i : Z),
    0 <= i -> i * n <= total -> total <= (i + Z.of_nat k) * n ->
    ((0 < k)%nat -> (i + Z.of_nat k - 1) * n < total) ->
    chain (i * n) total
          (map (fun i => (i * n, Z.min ((i + 1) * n) total)) (range_from i k)).
Proof.
  intros Hn. induction k as [| k IH]; intros i Hi Hlo Hhi Hlast; simpl.
  - replace total with (i * n) by lia. constructor.
  - specialize (Hlast ltac:(lia)).
    destruct k as [| k'].
    + simpl. replace (Z.min ((i + 1) * n) total) with total by lia.
      constructor; [lia | constructor].
    + replace (Z.min ((i + 1) * n) total) with ((i + 1) * n) by nia.
      constructor; [nia |].
      apply IH; [lia | nia | | intros _]; nia.
Qed.

Lemma samp_ranges_chain n total k :
  1 <= n -> 0 <= total -> (k - 1) * n < total <= k * n ->
  chain 0 total (samp_ranges n total k).
Proof.
  intros Hn Ht Hk. unfold samp_ranges, range.
  assert (0 <= k) by nia.
  change 0 with (0 * n) at 1.
  apply samp_ranges_chain_from; lia.
Qed.

Lemma det_ranges_as_range n total k :
  det_ranges n total k = map as_range (samp_ranges n total k).
Proof. unfold det_ranges, samp_ranges. rewrite map_map. reflexivity. Qed.

(* ------------------------------------------------------------------ *)
(** ** The search for the sample chunk count *)

Lemma ram_while_exits pts os :
  1 <= pts ->
  forall (n : nat) (nsc : Z),
    1 <= nsc <= os -> (Z.to_nat (os - nsc) <= n)%nat ->
    exists nsc' ns' nd',
      (forall fuel, (n <= fuel)%nat ->
         ram_while fuel pts os nsc (os / nsc) (pts / (os / nsc))
         = Ok (nsc', ns', nd')) /\
      nsc <= nsc' <= os /\ ns' = os / nsc' /\ nd' = pts / ns' /\
      1 <= ns' /\ 0 < nd'.
Proof.
  intros Hpts. induction n as [| n IH]; intros nsc Hnsc Hn.
  - (* no iteration left: n_samp_chunks has reached obs_samps *)
    assert (nsc = os) by lia. subst nsc.
    rewrite Z.div_same by lia. rewrite Z.div_1_r.
    exists os, 1, pts. split.
    + intros fuel _. destruct fuel; simpl;
        destruct (Z.eqb_spec pts 0); try lia; reflexivity.
    + rewrite Z.div_same by lia. rewrite Z.div_1_r. lia.
  - assert (Hns : 1 <= os / nsc)
      by (apply Z.div_le_lower_bound; lia).
    destruct (Z.eq_dec (pts / (os / nsc)) 0) as [Hz | Hnz].
    + (* the body runs once more *)
      assert (Hlt : pts < os / nsc).
      { apply Z.div_small_iff in Hz; lia. }
      assert (Hroom : 2 * nsc <= os).
      { pose proof (Z.mul_div_le os nsc ltac:(lia)). nia. }
      destruct (IH (nsc + 1) ltac:(lia) ltac:(lia))
        as (nsc' & ns' & nd' & Hrun & Hb & Hrest).
      exists nsc', ns', nd'. split; [| split; [lia | exact Hrest]].
      intros fuel Hfuel. destruct fuel as [| fuel]; [lia |].
      simpl. rewrite Hz. simpl.
      assert (Hns1 : 1 <= os / (nsc + 1))
        by (apply Z.div_le_lower_bound; lia).
      rewrite (floordiv_ok os (nsc + 1)) by lia. simpl.
      rewrite (floordiv_ok pts (os / (nsc + 1))) by lia. simpl.
      apply Hrun. lia.
    + exists nsc, (os / nsc), (pts / (os / nsc)).
      assert (0 <= pts / (os / nsc)) by (apply Z.div_pos; lia).
      split; [| lia].
      intros fuel _. destruct fuel; simpl;
        destruct (Z.eqb_spec (pts / (os / nsc)) 0); try lia; reflexivity.
Qed.

Lemma ram_search_exits ram os :
  4 <= ram -> 1 <= os ->
  exists nsc ns nd,
    (forall fuel, (Z.to_nat os <= fuel)%nat ->
       ram_search fuel ram os = Ok (nsc, ns, nd)) /\
    1 <= nsc <= os /\ ns = os / nsc /\ nd = (ram / 4) / ns /\
    1 <= ns /\ 0 < nd.
Proof.
  intros Hram Hos.
  assert (Hpts : 1 <= ram / 4) by (apply Z.div_le_lower_bound; lia).
  destruct (ram_while_exits (ram / 4) os Hpts (Z.to_nat os) 1
              ltac:(lia) ltac:(lia))
    as (nsc & ns & nd & Hrun & Hb & Hrest).
  exists nsc, ns, nd. split; [| split; [lia | exact Hrest]].
  intros fuel Hfuel. unfold ram_search.
  rewrite floordiv_ok by lia. simpl.
  specialize (Hrun fuel Hfuel). rewrite Z.div_1_r in Hrun. exact Hrun.
Qed.

(** C5. The search that sizes the chunks from [ram_limit] ends: for a
    [ram_limit] of at least 4 bytes and an observation of at least one
    sample, the [while n_dets == 0] loop, entered with
    [n_samp_chunks = 1], leaves after fewer than [obs_samps] iterations
    with a positive [n_dets] and with [n_samp_chunks] at most
    [obs_samps]; no division in it has a zero divisor. *)
Theorem ram_search_terminates (ram obs_samps : Z) :
  4 <= ram -> 1 <= obs_samps ->
  exists nsc ns nd,
    (forall fuel, (Z.to_nat obs_samps <= fuel)%nat ->
       ram_search fuel ram obs_samps = Ok (nsc, ns, nd)) /\
    1 <= nsc <= obs_samps /\ 0 < nd /\
    ns = obs_samps / nsc /\ nd = (ram / 4) / ns.
Proof.
  intros Hram Hos.
  destruct (ram_search_exits ram obs_samps Hram Hos)
    as (nsc & ns & nd & Hrun & Hb & Hns & Hnd & _ & Hpos).
  exists nsc, ns, nd. auto.
Qed.

Lemma ram_search_terminates_witness :
  4 <= 12 /\ 1 <= 10 /\
  exists nsc ns nd,
    (forall fuel, (Z.to_nat 10 <= fuel)%nat ->
       ram_search fuel 12 10 = Ok (nsc, ns, nd)) /\
    1 <= nsc <= 10 /\ 0 < nd /\ ns = 10 / nsc /\ nd = (12 / 4) / ns.
Proof.
  split; [lia | split; [lia |]].
  apply (ram_search_terminates 12 10); lia.
Defined.

(* ------------------------------------------------------------------ *)
(** ** Chunk lists computed from counts and sizes *)

Ltac ceil_step :=
  match goal with
  | |- context [ceildiv ?x ?y] =>
      let k := fresh "k" in
      let Hk := fresh "Hk" in
      let Hb := fresh "Hb" in
      assert (1 <= y) by (first [lia | nia]);
      destruct (ceildiv_spec x y) as (k & Hk & Hb); [assumption |];
      rewrite Hk;
      cbn [bind l_n_det_chunks l_n_samp_chunks l_n_dets l_n_samps
           l_det_chunks l_samp_chunks]
  end.

Ltac not_given :=
  let H := fresh in
  intros [H | H]; exfalso; apply H; reflexivity.

Lemma resolve_partition od os l :
  1 <= od -> 1 <= os ->
  positive (l_n_det_chunks l) -> positive (l_n_samp_chunks l) ->
  positive (l_n_dets l) -> positive (l_n_samps l) ->
  exists D S,
    resolve od os l = Ok (D, S) /\
    (given (l_n_det_chunks l) \/ given (l_n_dets l) ->
     exists R, D = map as_range R /\ chain 0 od R) /\
    (given (l_n_samp_chunks l) \/ given (l_n_samps l) -> chain 0 os S).
Proof.
  intros Hod Hos.
  destruct l as [ndc nsc nd ns dcs scs].
  destruct ndc as [ndc |], nsc as [nsc |], nd as [nd |], ns as [ns |];
    cbn [positive l_n_det_chunks l_n_samp_chunks l_n_dets l_n_samps];
    intros Hp1 Hp2 Hp3 Hp4;
    unfold resolve, step_det_count, step_samp_count,
      step_det_size, step_samp_size;
    cbn [l_n_det_chunks l_n_samp_chunks l_n_dets l_n_samps
         l_det_chunks l_samp_chunks bind];
    repeat ceil_step;
    unfold final_chunks; cbn [l_det_chunks l_samp_chunks];
    eexists; eexists; (split; [reflexivity |]);
    (split;
     [ first [ not_given
             | intros _; eexists;
               split; [apply det_ranges_as_range |];
               apply samp_ranges_chain; first [lia | nia] ]
     | first [ not_given
             | intros _; apply samp_ranges_chain; first [lia | nia] ] ]).
Qed.

(** For an observation with at least one detector and one sample,
    counts and sizes of at least 1 and a [ram_limit] of at least 4
    bytes, the controls resolve, to partitions. *)
Lemma plan_positive_partition (fuel : nat) (od os : Z) (c : controls) :
  1 <= od -> 1 <= os ->
  positive (n_det_chunks c) -> positive (n_samp_chunks c) ->
  positive (n_dets c) -> positive (n_samps c) ->
  (forall r, ram_limit c = Some r -> 4 <= r /\ (Z.to_nat os <= fuel)%nat) ->
  exists D S,
    plan fuel od os c = Ok (D, S) /\
    (given (ram_limit c) \/ given (n_det_chunks c) \/ given (n_dets c) ->
     exists R, D = map as_range R /\ is_partition 0 od R) /\
    (given (ram_limit c) \/ given (n_samp_chunks c) \/ given (n_samps c) ->
     is_partition 0 os S).
Proof.
  intros Hod Hos Hp1 Hp2 Hp3 Hp4 Hram.
  destruct c as [ram ndc nsc nd ns dcs scs]; cbn in *.
  destruct ram as [r |].
  - destruct (Hram r eq_refl) as [Hr Hfuel].
    destruct (ram_search_exits r os Hr Hos)
      as (c1 & s1 & d1 & Hrun & Hc1 & _ & _ & Hs1 & Hd1).
    unfold plan, step_ram. cbn [ram_limit].
    rewrite (Hrun fuel Hfuel). cbn [bind].
    destruct (ceildiv_spec od d1 ltac:(lia)) as (k & Hk & Hb).
    rewrite Hk. cbn [bind].
    destruct (resolve_partition od os
                (mkLocals (Some k) (Some c1) (Some d1) (Some s1) dcs scs))
      as (D & S & HDS & HD & HS); cbn; try lia; try nia.
    exists D, S. split; [exact HDS | split].
    + intros _. destruct HD as (R & -> & Hch); [left; discriminate |].
      exists R. split; [reflexivity | apply chain_partition; exact Hch].
    + intros _. apply chain_partition. apply HS. left; discriminate.
  - unfold plan, step_ram. cbn [ram_limit bind].
    destruct (resolve_partition od os
                (locals_of (mkControls None ndc nsc nd ns dcs scs)))
      as (D & S & HDS & HD & HS); cbn; try assumption.
    exists D, S. split; [exact HDS | split].
    + intros [H | H]; [exfalso; apply H; reflexivity |].
      destruct (HD H) as (R & -> & Hch).
      exists R. split; [reflexivity | apply chain_partition; exact Hch].
    + intros [H | H]; [exfalso; apply H; reflexivity |].
      apply chain_partition. apply HS. exact H.
Qed.

Ltac ceil_step_in H :=
  match type of H with
  | context [ceildiv ?x ?y] =>
      let k := fresh "k" in
      let Hk := fresh "Hk" in
      let Hb := fresh "Hb" in
      let Hz := fresh "Hz" in
      destruct (Z.eq_dec y 0) as [Hz | Hz];
      [ rewrite Hz, ceildiv_zero in H; cbn [bind] in H; discriminate H
      | assert (0 <= y) by (first [lia | nia]);
        destruct (ceildiv_spec x y) as (k & Hk & Hb); [lia |];
        rewrite Hk in H;
        cbn [bind l_n_det_chunks l_n_samp_chunks l_n_dets l_n_samps
             l_det_chunks l_samp_chunks] in H ]
  end.

(** The same for any call that returns, down to empty observations:
    whenever the controls are natural numbers and resolve, the chunk
    lists computed from them are chains over the whole axis. *)
Lemma resolve_returns_partition od os l D S :
  0 <= od -> 0 <= os ->
  nonneg (l_n_det_chunks l) -> nonneg (l_n_samp_chunks l) ->
  nonneg (l_n_dets l) -> nonneg (l_n_samps l) ->
  resolve od os l = Ok (D, S) ->
  (given (l_n_det_chunks l) \/ given (l_n_dets l) ->
   exists R, D = map as_range R /\ chain 0 od R) /\
  (given (l_n_samp_chunks l) \/ given (l_n_samps l) -> chain 0 os S).
Proof.
  intros Hod Hos.
  destruct l as [ndc nsc nd ns dcs scs].
  destruct ndc as [ndc |], nsc as [nsc |], nd as [nd |], ns as [ns |];
    cbn [nonneg l_n_det_chunks l_n_samp_chunks l_n_dets l_n_samps];
    intros Hp1 Hp2 Hp3 Hp4 H;
    unfold resolve, step_det_count, step_samp_count,
      step_det_size, step_samp_size in H;
    cbn [l_n_det_chunks l_n_samp_chunks l_n_dets l_n_samps
         l_det_chunks l_samp_chunks bind] in H;
    repeat ceil_step_in H;
    unfold final_chunks in H; cbn [l_det_chunks l_samp_chunks] in H;
    injection H as <- <-;
    (split;
     [ first [ not_given
             | intros _; eexists;
               split; [apply det_ranges_as_range |];
               apply samp_ranges_chain; first [lia | nia] ]
     | first [ not_given
             | intros _; apply samp_ranges_chain; first [lia | nia] ] ]).
Qed.

Lemma ram_while_positive pts os :
  0 <= pts -> 0 <= os ->
  forall fuel nsc ns nd a b c,
    1 <= nsc -> 1 <= ns -> 0 <= nd ->
    ram_while fuel pts os nsc ns nd = Ok (a, b, c) ->
    1 <= a /\ 1 <= b /\ 1 <= c.
Proof.
  intros Hpts Hos. induction fuel as [| fuel IH];
    intros nsc ns nd a b c Hnsc Hns Hnd H; cbn [ram_while] in H;
    destruct (Z.eqb_spec nd 0) as [Hz | Hz];
    try discriminate H; try (injection H as <- <- <-; lia).
  rewrite (floordiv_ok os (nsc + 1)) in H by lia. cbn [bind] in H.
  assert (0 <= os / (nsc + 1)) by (apply Z.div_pos; lia).
  destruct (Z.eq_dec (os / (nsc + 1)) 0) as [Hq | Hq].
  - rewrite Hq in H. discriminate H.
  - rewrite floordiv_ok in H by exact Hq. cbn [bind] in H.
    refine (IH _ _ _ a b c _ _ _ H); [lia | lia | apply Z.div_pos; lia].
Qed.

Lemma ram_search_positive fuel ram os a b c :
  0 <= ram -> 0 <= os ->
  ram_search fuel ram os = Ok (a, b, c) ->
  1 <= a /\ 1 <= b /\ 1 <= c.
Proof.
  intros Hram Hos H. unfold ram_search in H.
  assert (0 <= ram / 4) by (apply Z.div_pos; lia).
  destruct (Z.eq_dec os 0) as [Hz | Hz].
  - rewrite Hz in H. discriminate H.
  - rewrite floordiv_ok in H by exact Hz. cbn [bind] in H.
    refine (ram_while_positive (ram / 4) os _ Hos _ _ _ _ a b c _ _ _ H);
      [lia | lia | lia | apply Z.div_pos; lia].
Qed.

(** C8. Chunk lists that are computed are partitions.  Take controls
    that are natural numbers.  Whenever [get_batch] resolves them, the
    detector chunks, if they come from [ram_limit], [n_det_chunks] or
    [n_dets], are ranges [range(lo, hi)], none empty, each ending where
    the next starts, each wholly before the later ones, whose union is
    exactly [0, obs_dets); likewise the sample chunks that come from
    [ram_limit], [n_samp_chunks] or [n_samps], over [0, obs_samps).
    And the controls do resolve when the observation has a detector and
    a sample, the counts and sizes are at least 1 and [ram_limit] is at
    least 4 bytes. *)
Theorem derived_chunks_partition (fuel : nat) (od os : Z) (c : controls) :
  (forall D S,
     0 <= od -> 0 <= os ->
     nonneg (ram_limit c) ->
     nonneg (n_det_chunks c) -> nonneg (n_samp_chunks c) ->
     nonneg (n_dets c) -> nonneg (n_samps c) ->
     plan fuel od os c = Ok (D, S) ->
     (given (ram_limit c) \/ given (n_det_chunks c) \/ given (n_dets c) ->
      exists R, D = map as_range R /\ is_partition 0 od R) /\
     (given (ram_limit c) \/ given (n_samp_chunks c) \/ given (n_samps c) ->
      is_partition 0 os S)) /\
  (1 <= od -> 1 <= os ->
   positive (n_det_chunks c) -> positive (n_samp_chunks c) ->
   positive (n_dets c) -> positive (n_samps c) ->
   (forall r, ram_limit c = Some r -> 4 <= r /\ (Z.to_nat os <= fuel)%nat) ->
   exists D S, plan fuel od os c = Ok (D, S)).
Proof.
  split.
  - intros D S Hod Hos Hram Hp1 Hp2 Hp3 Hp4 Hplan.
    destruct c as [ram ndc nsc nd ns dcs scs]; cbn in *.
    unfold plan, step_ram in Hplan. cbn [ram_limit locals_of] in Hplan.
    destruct ram as [r |].
    + destruct (ram_search fuel r os) as [[[c1 s1] d1] | e |] eqn:Hsearch;
        cbn [bind] in Hplan; try discriminate Hplan.
      destruct (ram_search_positive fuel r os c1 s1 d1 Hram Hos Hsearch)
        as (Hc1 & Hs1 & Hd1).
      destruct (ceildiv_spec od d1 Hd1) as (k & Hk & Hb).
      rewrite Hk in Hplan. cbn [bind] in Hplan.
      apply resolve_returns_partition in Hplan; cbn; try lia; try nia.
      destruct Hplan as [HD HS]. cbn in HD, HS. split.
      * intros _. destruct HD as (R & -> & Hch); [left; discriminate |].
        exists R. split; [reflexivity | apply chain_partition; exact Hch].
      * intros _. apply chain_partition. apply HS. left; discriminate.
    + cbn [bind] in Hplan.
      apply resolve_returns_partition in Hplan; cbn; try assumption.
      destruct Hplan as [HD HS]. cbn in HD, HS. split.
      * intros [H | H]; [exfalso; apply H; reflexivity |].
        destruct (HD H) as (R & -> & Hch).
        exists R. split; [reflexivity | apply chain_partition; exact Hch].
      * intros [H | H]; [exfalso; apply H; reflexivity |].
        apply chain_partition. apply HS. exact H.
  - intros Hod Hos Hp1 Hp2 Hp3 Hp4 Hram.
    destruct (plan_positive_partition fuel od os c Hod Hos Hp1 Hp2 Hp3 Hp4 Hram)
      as (D & S & HDS & _).
    exists D, S. exact HDS.
Qed.

Lemma derived_chunks_partition_witness :
  ((exists R, [DRange 0 1; DRange 1 2; DRange 2 3; DRange 3 4;
               DRange 4 5; DRange 5 6; DRange 6 7] = map as_range R /\
              is_partition 0 7 R) /\
   is_partition 0 10 [(0, 4); (4, 8); (8, 10)]) /\
  (exists D S,
     plan 10 7 10 (mkControls (Some 12) None None None None None None)
     = Ok (D, S)).
Proof.
  split;
    [| apply (proj2 (derived_chunks_partition 10 7 10
                       (mkControls (Some 12) None None None None None None)));
       cbn; try lia;
       intros r Hr; injection Hr as <-; split; lia ].
  destruct (proj1 (derived_chunks_partition 10 7 10
                     (mkControls (Some 12) None None None None None None))
              [DRange 0 1; DRange 1 2; DRange 2 3; DRange 3 4;
               DRange 4 5; DRange 5 6; DRange 6 7]
              [(0, 4); (4, 8); (8, 10)])
    as [HD HS]; cbn; try lia; try reflexivity.
  split; [apply HD | apply HS]; left; discriminate.
Defined.

(** C8, without the condition on the controls, fails: the size
    [n_dets = -3] on an observation of ten detectors gives
    [n_det_chunks = ceil(10 / -3) = -3], [range(-3)] is empty, and
    [get_batch] computes no detector chunk at all; the union of no
    ranges is not [0, 10). *)
Lemma derived_chunks_negative_size :
  plan 0 10 10 (mkControls None None None (Some (-3)) None None None)
  = Ok ([], [(0, 10)]) /\
  given (n_dets (mkControls None None None (Some (-3)) None None None)) /\
  ~ (forall D S,
       plan 0 10 10 (mkControls None None None (Some (-3)) None None None)
       = Ok (D, S) ->
       exists R, D = map as_range R /\
                 contiguous R /\ ordered_disjoint R /\ covers 0 10 R).
Proof.
  split; [reflexivity | split; [discriminate |]].
  intros H.
  destruct (H [] [(0, 10)] eq_refl) as (R & HR & _ & _ & Hcov).
  destruct R as [| r R]; [| discriminate HR].
  destruct (proj1 (Hcov 0) ltac:(lia)) as (r & [] & _).
Qed.

(* ------------------------------------------------------------------ *)
(** ** Which control decides *)

Ltac split_ifs :=
  repeat match goal with
         | |- context [if ?b then _ else _] => destruct b
         end.

Ltac run_resolve :=
  unfold resolve, step_det_count, step_samp_count,
    step_det_size, step_samp_size, final_chunks, ceildiv;
  cbn [l_n_det_chunks l_n_samp_chunks l_n_dets l_n_samps
       l_det_chunks l_samp_chunks bind].

(** Once the controls are resolved, the detector chunks are a function
    of the detector controls, the sample chunks of the sample controls. *)
Lemma resolve_split od os l D S :
  resolve od os l = Ok (D, S) ->
  D = dets_only od (l_n_det_chunks l) (l_n_dets l) (l_det_chunks l) /\
  S = samps_only os (l_n_samp_chunks l) (l_n_samps l) (l_samp_chunks l).
Proof.
  destruct l as [ndc nsc nd ns dcs scs].
  destruct ndc, nsc, nd, ns, dcs, scs; run_resolve;
    unfold dets_only, samps_only;
    repeat (progress (split_ifs;
                      cbn [bind l_n_det_chunks l_n_samp_chunks l_n_dets
                           l_n_samps l_det_chunks l_samp_chunks]));
    intros H; try discriminate H; injection H as <- <-; split; reflexivity.
Qed.

Lemma resolve_count_over_dets od os k nsc nd ns dcs scs :
  resolve od os (mkLocals (Some k) nsc nd ns dcs scs)
  = resolve od os (mkLocals (Some k) nsc None ns None scs).
Proof. run_resolve. split_ifs; reflexivity. Qed.

Lemma resolve_count_over_samps od os ndc k nd ns dcs scs :
  resolve od os (mkLocals ndc (Some k) nd ns dcs scs)
  = resolve od os (mkLocals ndc (Some k) nd None dcs None).
Proof.
  destruct ndc; run_resolve; split_ifs;
    cbn [bind l_n_det_chunks l_n_samp_chunks l_n_dets l_n_samps
         l_det_chunks l_samp_chunks];
    split_ifs; reflexivity.
Qed.

Lemma resolve_size_over_dets od os nsc n ns dcs scs :
  resolve od os (mkLocals None nsc (Some n) ns dcs scs)
  = resolve od os (mkLocals None nsc (Some n) ns None scs).
Proof.
  destruct nsc; run_resolve; split_ifs;
    cbn [bind l_n_det_chunks l_n_samp_chunks l_n_dets l_n_samps
         l_det_chunks l_samp_chunks];
    split_ifs; reflexivity.
Qed.

Lemma resolve_size_over_samps od os ndc nd n dcs scs :
  resolve od os (mkLocals ndc None nd (Some n) dcs scs)
  = resolve od os (mkLocals ndc None nd (Some n) dcs None).
Proof.
  destruct ndc, nd; run_resolve; split_ifs;
    cbn [bind l_n_det_chunks l_n_samp_chunks l_n_dets l_n_samps
         l_det_chunks l_samp_chunks];
    split_ifs;
    cbn [bind l_n_det_chunks l_n_samp_chunks l_n_dets l_n_samps
         l_det_chunks l_samp_chunks];
    split_ifs; reflexivity.
Qed.

Lemma plan_ram_only fuel od os r ndc nsc nd ns dcs scs :
  plan fuel od os (mkControls (Some r) ndc nsc nd ns dcs scs)
  = plan fuel od os (mkControls (Some r) None None None None None None).
Proof.
  unfold plan, step_ram. cbn [ram_limit locals_of].
  destruct (ram_search fuel r os) as [[[c1 s1] d1] | e |]; cbn [bind];
    try reflexivity.
  destruct (ceildiv od d1) as [k | e |]; cbn [bind]; try reflexivity.
  cbn [det_chunks samp_chunks l_det_chunks l_samp_chunks].
  rewrite resolve_count_over_dets.
  rewrite resolve_count_over_samps.
  symmetry.
  rewrite resolve_count_over_dets.
  rewrite resolve_count_over_samps.
  reflexivity.
Qed.

(** C1. Precedence of the chunking controls.
    (1) With a [ram_limit] the plan is the one [ram_limit] alone gives,
    whatever the other six controls are.
    (2) Without [ram_limit], a chunk count ([n_det_chunks],
    [n_samp_chunks]) makes the size and the list of its axis
    irrelevant.
    (3) Without [ram_limit] and without a count, a size ([n_dets],
    [n_samps]) makes the list of its axis irrelevant.
    (4) For all inputs, two calls that differ in sample controls only
    and both return produce the same detector chunks, and two calls that
    differ in detector controls only produce the same sample chunks. *)
Theorem control_precedence :
  (forall fuel od os r ndc nsc nd ns dcs scs,
     plan fuel od os (mkControls (Some r) ndc nsc nd ns dcs scs)
     = plan fuel od os (mkControls (Some r) None None None None None None))
  /\
  (forall fuel od os k nsc nd ns dcs scs,
     plan fuel od os (mkControls None (Some k) nsc nd ns dcs scs)
     = plan fuel od os (mkControls None (Some k) nsc None ns None scs))
  /\
  (forall fuel od os ndc k nd ns dcs scs,
     plan fuel od os (mkControls None ndc (Some k) nd ns dcs scs)
     = plan fuel od os (mkControls None ndc (Some k) nd None dcs None))
  /\
  (forall fuel od os nsc n ns dcs scs,
     plan fuel od os (mkControls None None nsc (Some n) ns dcs scs)
     = plan fuel od os (mkControls None None nsc (Some n) ns None scs))
  /\
  (forall fuel od os ndc nd n dcs scs,
     plan fuel od os (mkControls None ndc None nd (Some n) dcs scs)
     = plan fuel od os (mkControls None ndc None nd (Some n) dcs None))
  /\
  (forall fuel od os ram ndc nd dcs nsc ns scs nsc' ns' scs' D S D' S',
     plan fuel od os (mkControls ram ndc nsc nd ns dcs scs) = Ok (D, S) ->
     plan fuel od os (mkControls ram ndc nsc' nd ns' dcs scs') = Ok (D', S') ->
     D = D')
  /\
  (forall fuel od os ram nsc ns scs ndc nd dcs ndc' nd' dcs' D S D' S',
     plan fuel od os (mkControls ram ndc nsc nd ns dcs scs) = Ok (D, S) ->
     plan fuel od os (mkControls ram ndc' nsc nd' ns dcs' scs) = Ok (D', S') ->
     S = S').
Proof.
  repeat apply conj.
  - intros. apply plan_ram_only.
  - intros. unfold plan, step_ram. cbn [ram_limit locals_of bind].
    apply resolve_count_over_dets.
  - intros. unfold plan, step_ram. cbn [ram_limit locals_of bind].
    apply resolve_count_over_samps.
  - intros. unfold plan, step_ram. cbn [ram_limit locals_of bind].
    apply resolve_size_over_dets.
  - intros. unfold plan, step_ram. cbn [ram_limit locals_of bind].
    apply resolve_size_over_samps.
  - intros fuel od os ram ndc nd dcs nsc ns scs nsc' ns' scs' D S D' S' H H'.
    destruct ram as [r |].
    + rewrite plan_ram_only in H. rewrite plan_ram_only in H'. congruence.
    + unfold plan, step_ram in H, H'. cbn [ram_limit locals_of bind] in H, H'.
      apply resolve_split in H. apply resolve_split in H'.
      cbn in H, H'. destruct H as [-> _]. destruct H' as [-> _]. reflexivity.
  - intros fuel od os ram nsc ns scs ndc nd dcs ndc' nd' dcs' D S D' S' H H'.
    destruct ram as [r |].
    + rewrite plan_ram_only in H. rewrite plan_ram_only in H'. congruence.
    + unfold plan, step_ram in H, H'. cbn [ram_limit locals_of bind] in H, H'.
      apply resolve_split in H. apply resolve_split in H'.
      cbn in H, H'. destruct H as [_ ->]. destruct H' as [_ ->]. reflexivity.
Qed.

Lemma control_precedence_witness :
  [DRange 0 4; DRange 4 8; DRange 8 10]
  = [DRange 0 4; DRange 4 8; DRange 8 10] /\
  [(0, 5); (5, 10)] = [(0, 5); (5, 10)].
Proof.
  destruct control_precedence as (_ & _ & _ & _ & _ & Hd & Hs).
  split.
  - apply (Hd 0%nat 10 10 None None (Some 4) None
              (Some 2) None None None (Some 3) (Some [(0, 1)])
              _ [(0, 5); (5, 10)] _ [(0, 3); (3, 6); (6, 9); (9, 10)]);
      reflexivity.
  - apply (Hs 0%nat 10 10 None (Some 2) None None
              None (Some 4) None (Some 5) None (Some [DList [1; 2]])
              [DRange 0 4; DRange 4 8; DRange 8 10] _
              [DRange 0 2; DRange 2 4; DRange 4 6; DRange 6 8; DRange 8 10] _);
      reflexivity.
Defined.

(* ------------------------------------------------------------------ *)
(** ** The generator walks the product of the two chunk lists *)

Lemma loads_app t u : loads (t ++ u) = loads t ++ loads u.
Proof.
  induction t as [| e t IH]; [reflexivity |].
  destruct e; simpl; rewrite IH; reflexivity.
Qed.

Lemma outer_loop_reaches ds sall :
  reaches (outer_loop ds sall) (list_prod ds sall).
Proof.
  induction ds as [| d ds IH]; simpl; [reflexivity |].
  destruct sall as [| s ss]; simpl.
  - exact IH.
  - split; [reflexivity | discriminate].
Qed.

Lemma inner_loop_reaches d ds ss sall :
  reaches (inner_loop d ds ss sall) (rest_of (Suspended d ds ss sall)).
Proof.
  destruct ss as [| s ss]; simpl.
  - apply outer_loop_reaches.
  - split; [reflexivity | discriminate].
Qed.

Lemma pending_rest fr : pending fr = List.length (rest_of fr).
Proof.
  destruct fr as [| d ds ss sall |]; simpl; try reflexivity.
  rewrite length_app, length_map, length_prod. reflexivity.
Qed.

Lemma nth_error_list_prod {A B} (D : list A) (S : list B) :
  forall i j d s,
    nth_error D i = Some d -> nth_error S j = Some s ->
    nth_error (list_prod D S) (i * List.length S + j)%nat = Some (d, s).
Proof.
  induction D as [| d0 D IH]; intros i j d s Hi Hj.
  - destruct i; discriminate.
  - simpl list_prod. destruct i as [| i]; simpl in Hi.
    + injection Hi as ->. simpl.
      rewrite nth_error_app1
        by (rewrite length_map; apply nth_error_Some; congruence).
      rewrite nth_error_map, Hj. reflexivity.
    + rewrite nth_error_app2 by (rewrite length_map; simpl; lia).
      rewrite length_map.
      replace (Datatypes.S i * List.length S + j - List.length S)%nat
        with (i * List.length S + j)%nat by (simpl; lia).
      apply IH; assumption.
Qed.

Section WalkProduct.

Variable aman : Type.
Variable ld : det_chunk -> samp_chunk -> aman.
Variable fuel : nat.
Variable c : call.

Let load_file := fun d s => Ok (ld d s).

Lemma emit_loaded t nxt :
  emit aman load_file (test c) t nxt
  = match nxt with
    | None => (StopIteration, Finished, t)
    | Some (d, s, fr) =>
        (Yield (item_for (test c) ld (d, s)), fr,
         t ++ events_for (test c) [(d, s)])
    end.
Proof.
  destruct nxt as [[[d s] fr] |]; [| reflexivity].
  unfold emit, item_for, events_for, load_file.
  destruct (test c); simpl; [rewrite app_nil_r |]; reflexivity.
Qed.

Lemma events_for_cons p R :
  events_for (test c) (p :: R)
  = events_for (test c) [p] ++ events_for (test c) R.
Proof. unfold events_for. destruct (test c); reflexivity. Qed.

Lemma iterate_all :
  forall k fr t,
    fr <> Created -> (List.length (rest_of fr) < k)%nat ->
    iterate aman load_file k fuel c fr t
    = (map (item_for (test c) ld) (rest_of fr), Some StopIteration,
       Finished, t ++ events_for (test c) (rest_of fr)).
Proof.
  induction k as [| k IH]; intros fr t Hfr Hk; [lia |].
  cbn [iterate]. unfold next.
  destruct fr as [| d ds ss sall |]; [contradiction | |].
  - pose proof (inner_loop_reaches d ds ss sall) as Hr.
    rewrite emit_loaded.
    destruct (inner_loop d ds ss sall) as [[[d' s'] fr'] |];
      unfold reaches in Hr.
    + destruct Hr as [Hr Hfr'].
      rewrite Hr in Hk |- *. simpl in Hk.
      rewrite IH by (assumption || lia).
      rewrite (events_for_cons (d', s') (rest_of fr')), <- app_assoc.
      reflexivity.
    + rewrite Hr. unfold events_for. destruct (test c); simpl;
        rewrite app_nil_r; reflexivity.
  - simpl. unfold events_for. destruct (test c); simpl;
      rewrite app_nil_r; reflexivity.
Qed.

Lemma get_batch_all D S :
  plan fuel (obs_dets c) (obs_samps c) (ctl c) = Ok (D, S) ->
  get_batch aman load_file fuel c
  = (map (item_for (test c) ld) (list_prod D S), Some StopIteration,
     Finished, prologue c ++ events_for (test c) (list_prod D S)).
Proof.
  intros Hplan. unfold get_batch, next. rewrite Hplan.
  rewrite emit_loaded.
  pose proof (outer_loop_reaches D S) as Hr.
  destruct (outer_loop D S) as [[[d s] fr] |]; unfold reaches in Hr.
  - destruct Hr as [Hr Hfr]. rewrite Hr.
    rewrite iterate_all by (assumption || (rewrite pending_rest; lia)).
    rewrite (events_for_cons (d, s) (rest_of fr)).
    rewrite <- app_assoc. unfold prologue.
    destruct (status_given c); reflexivity.
  - rewrite Hr. unfold prologue, events_for.
    destruct (test c), (status_given c); reflexivity.
Qed.

End WalkProduct.

(** C4. The chunks come out as the product of the two chunk lists,
    detector chunks outermost.  Whatever the controls, once they resolve
    to detector chunks [D] and sample chunks [S], a full iteration
    yields one item for each pair of [list_prod D S], in that order,
    and then stops; the item at position [i * len(S) + j] is the one for
    the [i]-th detector chunk and the [j]-th sample chunk, so the sample
    chunks of one detector chunk are consecutive.  The item is the tuple
    itself in test mode, and otherwise what [load_file] returns for it,
    [load_file] being called once for each pair in the same order. *)
Theorem chunks_are_product (aman : Type) (ld : det_chunk -> samp_chunk -> aman)
        (fuel : nat) (c : call) (D : list det_chunk) (S : list samp_chunk) :
  plan fuel (obs_dets c) (obs_samps c) (ctl c) = Ok (D, S) ->
  get_batch aman (fun d s => Ok (ld d s)) fuel c
  = (map (item_for (test c) ld) (list_prod D S), Some StopIteration,
     Finished, prologue c ++ events_for (test c) (list_prod D S)) /\
  (forall i j d s,
     nth_error D i = Some d -> nth_error S j = Some s ->
     nth_error (items_of (get_batch aman (fun d s => Ok (ld d s)) fuel c))
               (i * List.length S + j)%nat
     = Some (item_for (test c) ld (d, s))).
Proof.
  intros Hplan.
  pose proof (get_batch_all aman ld fuel c D S Hplan) as Hall.
  split; [exact Hall |].
  intros i j d s Hi Hj. rewrite Hall. unfold items_of. cbn [fst].
  rewrite nth_error_map.
  rewrite (nth_error_list_prod D S i j d s Hi Hj). reflexivity.
Qed.

Lemma chunks_are_product_witness :
  get_batch unit (fun _ _ => Ok tt) 0
    (mkCall 3 10 (mkControls None (Some 2) (Some 2) None None None None)
            true true)
  = ([Pair (DRange 0 2) (0, 5); Pair (DRange 0 2) (5, 10);
      Pair (DRange 2 3) (0, 5); Pair (DRange 2 3) (5, 10)],
     Some StopIteration, Finished, [EvSessionOpen; EvSessionClose]).
Proof.
  exact (proj1 (chunks_are_product unit (fun _ _ => tt) 0
                  (mkCall 3 10
                     (mkControls None (Some 2) (Some 2) None None None None)
                     true true)
                  [DRange 0 2; DRange 2 3] [(0, 5); (5, 10)] eq_refl)).
Defined.

(** C3. An observation of 1000 detectors and 10000 samples planned
    with [n_dets = 300] and nothing else: the detector chunks are
    [range(0,300)], [range(300,600)], [range(600,900)],
    [range(900,1000)], the only sample chunk is [(0, 10000)], and the
    generator yields the four pairs in that order and stops. *)
Theorem n_dets_300_example (aman : Type)
        (load_file : det_chunk -> samp_chunk -> result aman)
        (fuel : nat) (sg : bool) :
  let c := mkCall 1000 10000
                  (mkControls None None None (Some 300) None None None)
                  true sg in
  plan fuel 1000 10000 (ctl c)
  = Ok ([DRange 0 300; DRange 300 600; DRange 600 900; DRange 900 1000],
        [(0, 10000)]) /\
  get_batch aman load_file fuel c
  = ([Pair (DRange 0 300) (0, 10000); Pair (DRange 300 600) (0, 10000);
      Pair (DRange 600 900) (0, 10000); Pair (DRange 900 1000) (0, 10000)],
     Some StopIteration, Finished, prologue c).
Proof.
  split; [reflexivity |].
  destruct sg; reflexivity.
Qed.

(** C9. With no chunking control at all the generator yields the whole
    observation as its one chunk: in test mode the single pair
    [(range(0, obs_dets), (0, obs_samps))], and otherwise [load_file] is
    called exactly once, on that pair. *)
Theorem no_controls_whole_observation (aman : Type)
        (load_file : det_chunk -> samp_chunk -> result aman)
        (fuel : nat) (od os : Z) (sg : bool) :
  get_batch aman load_file fuel (mkCall od os no_controls true sg)
  = ([Pair (DRange 0 od) (0, os)], Some StopIteration, Finished,
     prologue (mkCall od os no_controls true sg)) /\
  loads (trace_of (get_batch aman load_file fuel
                             (mkCall od os no_controls false sg)))
  = [(DRange 0 od, (0, os))].
Proof.
  split.
  - destruct sg; reflexivity.
  - unfold get_batch, next, plan, no_controls. cbn.
    destruct (load_file (DRange 0 od) (0, os)) as [a | e |];
      [| destruct e |]; destruct sg; reflexivity.
Qed.

(* ------------------------------------------------------------------ *)
(** ** Closing the generator early *)

Lemma open_sessions_app t u :
  open_sessions (t ++ u) = open_sessions t + open_sessions u.
Proof.
  induction t as [| e t IH]; [reflexivity |].
  destruct e; simpl; rewrite IH; lia.
Qed.

Lemma open_sessions_events_for tst R : open_sessions (events_for tst R) = 0.
Proof.
  unfold events_for. destruct tst; [reflexivity |].
  induction R as [| p R IH]; [reflexivity | exact IH].
Qed.

Lemma loads_events_for tst R :
  loads (events_for tst R) = if tst then [] else R.
Proof.
  unfold events_for. destruct tst; [reflexivity |].
  induction R as [| [d s] R IH]; [reflexivity |].
  simpl. rewrite IH. reflexivity.
Qed.

Lemma close_returns aman fr t : close aman fr t = (Returned, Finished, t).
Proof. destruct fr; reflexivity. Qed.

Section Prefix.

Variable aman : Type.
Variable load_file : det_chunk -> samp_chunk -> result aman.
Variable fuel : nat.
Variable c : call.

Lemma iterate_succ k fr t :
  iterate aman load_file (Datatypes.S k) fuel c fr t
  = continue_with load_file k fuel c (next aman load_file fuel c fr t).
Proof. reflexivity. Qed.

Lemma emit_prefix k nxt R t :
  prefix_run load_file fuel c k -> reaches nxt R ->
  exists n, (n <= Datatypes.S k)%nat /\
    trace_of (continue_with load_file k fuel c
                (emit aman load_file (test c) t nxt))
    = t ++ events_for (test c) (firstn n R).
Proof.
  intros IH Hr. destruct nxt as [[[d s] fr'] |]; unfold reaches in Hr.
  - destruct Hr as [-> Hfr']. unfold emit.
    destruct (test c) eqn:Htest.
    + destruct (IH fr' t Hfr') as (n & Hn & Hrun).
      exists n. split; [lia |].
      unfold continue_with.
      destruct (iterate aman load_file k fuel c fr' t) as [[[vs sg] f2] t2].
      unfold trace_of in *. cbn [snd] in *. rewrite Hrun, Htest.
      reflexivity.
    + destruct (load_file d s) as [a | e |].
      * destruct (IH fr' (t ++ [EvLoadFile d s]) Hfr') as (n & Hn & Hrun).
        exists (Datatypes.S n). split; [lia |].
        unfold continue_with.
        destruct (iterate aman load_file k fuel c fr' (t ++ [EvLoadFile d s]))
          as [[[vs sg] f2] t2].
        unfold trace_of in *. cbn [snd] in *. rewrite Hrun, Htest.
        unfold events_for. cbn [firstn map fst snd].
        rewrite <- app_assoc. reflexivity.
      * exists 1%nat. split; [lia |]. destruct e; reflexivity.
      * exists 1%nat. split; [lia |]. reflexivity.
  - subst R. exists 0%nat. split; [lia |].
    unfold events_for. destruct (test c); cbn; rewrite app_nil_r; reflexivity.
Qed.

Lemma iterate_prefix : forall k, prefix_run load_file fuel c k.
Proof.
  induction k as [| k IH]; intros fr t Hfr.
  - exists 0%nat. split; [lia |].
    unfold events_for. destruct (test c); cbn; rewrite app_nil_r; reflexivity.
  - rewrite iterate_succ. unfold next.
    destruct fr as [| d ds ss sall |]; [contradiction | |].
    + apply emit_prefix; [exact IH | apply inner_loop_reaches].
    + exists 0%nat. split; [lia |].
      unfold events_for. destruct (test c); cbn; rewrite app_nil_r;
        reflexivity.
Qed.

(** The same from a generator that has not started. *)
Lemma iterate_created_prefix k :
  exists n pre,
    (n <= k)%nat /\
    (pre = [] \/ pre = [EvSessionOpen; EvSessionClose] \/ pre = prologue c) /\
    trace_of (iterate aman load_file k fuel c Created [])
    = pre ++ events_for (test c) (firstn n (planned fuel c)).
Proof.
  destruct k as [| k].
  - exists 0%nat, []. split; [lia | split; [left; reflexivity |]].
    unfold events_for. destruct (test c); reflexivity.
  - rewrite iterate_succ. unfold next, planned.
    destruct (plan fuel (obs_dets c) (obs_samps c) (ctl c))
      as [[D sall] | e |].
    + destruct (emit_prefix k (outer_loop D sall) (list_prod D sall)
                  (prologue c) (iterate_prefix k)
                  (outer_loop_reaches D sall)) as (n & Hn & Hrun).
      exists n, (prologue c). split; [exact Hn |].
      split; [right; right; reflexivity |].
      rewrite <- Hrun. unfold prologue.
      destruct (status_given c); reflexivity.
    + exists 0%nat, [EvSessionOpen; EvSessionClose].
      split; [lia | split; [right; left; reflexivity |]].
      unfold events_for. destruct (test c); reflexivity.
    + exists 0%nat, [EvSessionOpen; EvSessionClose].
      split; [lia | split; [right; left; reflexivity |]].
      unfold events_for. destruct (test c); reflexivity.
Qed.

End Prefix.

(** C7. Closing the generator early has no effect of its own.  After
    any number [k] of calls of [next], on any outcome of [load_file]:
    [close()] returns to its caller without an exception and leaves the
    trace of events as it was; the generator is then finished, and a
    later [next] stops at once, again without an event; the database
    session the body opened is closed; and [load_file] has been called
    on nothing but the first [n <= k] of the planned chunks (on none in
    test mode), so no chunk that was not asked for has left a mark. *)
Theorem close_after_prefix (aman : Type)
        (load_file : det_chunk -> samp_chunk -> result aman)
        (fuel : nat) (c : call) (k : nat) :
  let r := iterate aman load_file k fuel c Created [] in
  close aman (frame_of r) (trace_of r) = (Returned, Finished, trace_of r) /\
  next aman load_file fuel c Finished (trace_of r)
  = (StopIteration, Finished, trace_of r) /\
  open_sessions (trace_of r) = 0 /\
  exists n, (n <= k)%nat /\
    loads (trace_of r) = if test c then [] else firstn n (planned fuel c).
Proof.
  intros r. split; [apply close_returns |]. split; [reflexivity |].
  destruct (iterate_created_prefix aman load_file fuel c k)
    as (n & pre & Hn & Hpre & Hrun).
  fold r in Hrun. rewrite Hrun. split.
  - rewrite open_sessions_app, open_sessions_events_for.
    destruct Hpre as [-> | [-> | ->]]; try reflexivity.
    unfold prologue. destruct (status_given c); reflexivity.
  - exists n. split; [exact Hn |].
    rewrite loads_app, loads_events_for.
    assert (Hl : loads pre = []).
    { destruct Hpre as [-> | [-> | ->]]; try reflexivity.
      unfold prologue. destruct (status_given c); reflexivity. }
    rewrite Hl. reflexivity.
Qed.

(* ------------------------------------------------------------------ *)
(** ** The memory budget *)

(** The search sizes the chunks with the rounded-down sample count:
    [n_samps * n_dets] points fit the budget of [ram_limit // 4]. *)
Lemma ram_search_budget ram os :
  4 <= ram -> 1 <= os ->
  exists nsc ns nd,
    (forall fuel, (Z.to_nat os <= fuel)%nat ->
       ram_search fuel ram os = Ok (nsc, ns, nd)) /\
    ns = os / nsc /\ ns * nd * 4 <= ram.
Proof.
  intros Hram Hos.
  destruct (ram_search_exits ram os Hram Hos)
    as (nsc & ns & nd & Hrun & _ & Hns & Hnd & Hns1 & _).
  exists nsc, ns, nd. split; [exact Hrun | split; [exact Hns |]].
  pose proof (Z.mul_div_le (ram / 4) ns ltac:(lia)).
  pose proof (Z.mul_div_le ram 4 ltac:(lia)).
  subst nd. lia.
Qed.

(** C2, at [obs_dets = 1], [obs_samps = 10], [ram_limit = 12].  The
    search stops at [n_samp_chunks = 3] with [n_samps = 10 // 3 = 3]
    and [n_dets = 3 // 3 = 1]; line 177 then recomputes [n_samps] as
    [ceil(10 / 3) = 4], so the first chunk yielded is
    [(range(0, 1), (0, 4))], charged 16 bytes against a limit of 12. *)
Theorem ram_limit_exceeded (aman : Type)
        (load_file : det_chunk -> samp_chunk -> result aman)
        (fuel : nat) (sg : bool) :
  let c := mkCall 1 10 (mkControls (Some 12) None None None None None None)
                  true sg in
  ram_search (2 + fuel) 12 10 = Ok (3, 3, 1) /\
  plan (2 + fuel) 1 10 (ctl c)
  = Ok ([DRange 0 1], [(0, 4); (4, 8); (8, 10)]) /\
  items_of (get_batch aman load_file (2 + fuel) c)
  = [Pair (DRange 0 1) (0, 4); Pair (DRange 0 1) (4, 8);
     Pair (DRange 0 1) (8, 10)] /\
  chunk_bytes (DRange 0 1) (0, 4) = 16 /\
  12 < chunk_bytes (DRange 0 1) (0, 4).
Proof.
  destruct fuel, sg; repeat split; reflexivity.
Qed.

(* ------------------------------------------------------------------ *)
(** ** The driver loop of [make_level3_hk] *)

Lemma started_app t u : started (t ++ u) = started t ++ started u.
Proof.
  induction t as [| e t IH]; [reflexivity |].
  destruct e; simpl; rewrite IH; reflexivity.
Qed.

Lemma logged_saved_app t u :
  logged_saved (t ++ u) = logged_saved t ++ logged_saved u.
Proof.
  induction t as [| e t IH]; [reflexivity |].
  destruct e; simpl; rewrite IH; reflexivity.
Qed.

Lemma logged_error_app t u :
  logged_error (t ++ u) = logged_error t ++ logged_error u.
Proof.
  induction t as [| e t IH]; [reflexivity |].
  destruct e; simpl; rewrite IH; reflexivity.
Qed.

(** One pass of the [try] body: it ends normally after saving and
    indexing, or it raises what the failing stage raised, before or
    after the save. *)
Lemma try_body_cases fault obs :
  try_body fault obs
  = ([EvGetMeta obs; EvSave obs; EvAddEntry obs; EvLogSaved obs], None) \/
  exists e st evs,
    try_body fault obs = (evs, Some e) /\ fault obs st = Some e /\
    (evs = [EvGetMeta obs] \/ evs = [EvGetMeta obs; EvSave obs]).
Proof.
  unfold try_body.
  destruct (fault obs Resolve) as [e |] eqn:H1;
    [right; exists e, Resolve; eauto |].
  destruct (fault obs Build) as [e |] eqn:H2;
    [right; exists e, Build; eauto |].
  destruct (fault obs Save) as [e |] eqn:H3;
    [right; exists e, Save; eauto |].
  destruct (fault obs Index) as [e |] eqn:H4;
    [right; exists e, Index; eauto |].
  left. reflexivity.
Qed.

Lemma main_loop_runs fault :
  (forall obs st e, fault obs st = Some e -> is_Exception e = true) ->
  forall obs_list t,
  exists u,
    main_loop fault obs_list t = (t ++ u, None) /\
    started u = obs_list /\
    logged_error u = filter (raises fault) obs_list /\
    logged_saved u = filter (fun o => negb (raises fault o)) obs_list.
Proof.
  intros Hexc. induction obs_list as [| obs rest IH]; intros t.
  - exists []. rewrite app_nil_r. repeat split; reflexivity.
  - cbn [main_loop filter].
    destruct (try_body_cases fault obs)
      as [Hok | (e & st & evs & Hfail & Hst & Hevs)].
    + assert (Hr : raises fault obs = false)
        by (unfold raises; rewrite Hok; reflexivity).
      rewrite Hok, Hr. cbn [negb].
      destruct (IH (t ++ [EvGetMeta obs; EvSave obs; EvAddEntry obs;
                          EvLogSaved obs])) as (u & Hrun & Hs & He & Hl).
      exists ([EvGetMeta obs; EvSave obs; EvAddEntry obs; EvLogSaved obs] ++ u).
      rewrite Hrun, <- app_assoc. split; [reflexivity |].
      cbn. rewrite Hs, He, Hl. repeat split; reflexivity.
    + assert (Hr : raises fault obs = true)
        by (unfold raises; rewrite Hfail; reflexivity).
      rewrite Hfail, Hr. cbn [negb]. rewrite (Hexc obs st e Hst).
      destruct (IH (t ++ evs ++ [EvLogError e obs]))
        as (u & Hrun & Hs & He & Hl).
      exists ((evs ++ [EvLogError e obs]) ++ u).
      rewrite Hrun, <- !app_assoc. split; [reflexivity |].
      rewrite !started_app, !logged_error_app, !logged_saved_app, Hs, He, Hl.
      destruct Hevs as [-> | ->]; repeat split; reflexivity.
Qed.

(** C6. The loop over the observations survives every failure of the
    processing of one of them.  Whatever stage (lookup, assembly, save,
    indexing) raises for whatever observations, as long as what is
    raised is an [Exception], the loop returns normally; the processing
    of every observation of the list is started, in order, so each
    observation after a failing one is still processed; each failing
    observation is logged once as an error and each other one once as
    saved. *)
Theorem main_loop_continues (fault : string -> stage -> option exn)
        (obs_list : list string) :
  (forall obs st e, fault obs st = Some e -> is_Exception e = true) ->
  let r := main_loop fault obs_list [] in
  snd r = None /\
  started (fst r) = obs_list /\
  logged_error (fst r) = filter (raises fault) obs_list /\
  logged_saved (fst r) = filter (fun o => negb (raises fault o)) obs_list /\
  (forall before x after y,
     obs_list = before ++ x :: after -> raises fault x = true ->
     In y after -> In y (started (fst r))).
Proof.
  intros Hexc r.
  destruct (main_loop_runs fault Hexc obs_list []) as (u & Hrun & Hs & He & Hl).
  subst r. rewrite Hrun. cbn [fst snd app].
  repeat split; try assumption.
  intros before x after y Hlist _ Hy. rewrite Hs, Hlist.
  apply in_or_app. right. right. exact Hy.
Qed.

Lemma main_loop_continues_witness :
  let fault := fun (obs : string) (st : stage) =>
                 if String.eqb obs "obs_b"
                 then match st with
                      | Index => Some (OtherException "duplicate entry")
                      | _ => None
                      end
                 else None in
  let r := main_loop fault ["obs_a"; "obs_b"; "obs_c"]%string [] in
  snd r = None /\
  started (fst r) = ["obs_a"; "obs_b"; "obs_c"]%string /\
  logged_error (fst r) = ["obs_b"]%string /\
  logged_saved (fst r) = ["obs_a"; "obs_c"]%string.
Proof.
  intros fault r.
  destruct (main_loop_continues fault ["obs_a"; "obs_b"; "obs_c"]%string)
    as (H1 & H2 & H3 & H4 & _).
  - intros obs st e. unfold fault.
    destruct (String.eqb obs "obs_b"); [| discriminate].
    destruct st; try discriminate.
    intros H. injection H as <-. reflexivity.
  - repeat split; assumption.
Defined.

(** A [KeyboardInterrupt] is not an [Exception]: the handler of line 181
    lets it through and the loop ends there. *)
Example main_loop_interrupted :
  main_loop (fun obs st =>
               match st with Resolve => Some KeyboardInterrupt | _ => None end)
            ["obs_a"; "obs_b"]%string []
  = ([EvGetMeta "obs_a"], Some KeyboardInterrupt).
Proof. reflexivity. Qed.

(* ------------------------------------------------------------------ *)
(** ** The observation query *)

Section Query.

Local Open Scope string_scope.

Lemma append_assoc (a b c : string) : (a ++ b) ++ c = a ++ b ++ c.
Proof. induction a as [| ch a IH]; simpl; [| rewrite IH]; reflexivity. Qed.

Lemma length_append (a b : string) :
  String.length (a ++ b) = (String.length a + String.length b)%nat.
Proof. induction a as [| ch a IH]; simpl; [| rewrite IH]; reflexivity. Qed.

Lemma substring_prefix (a b : string) :
  substring 0 (String.length a) (a ++ b) = a.
Proof.
  induction a as [| ch a IH]; simpl.
  - destruct b; reflexivity.
  - rewrite IH. reflexivity.
Qed.

(** The slice takes off the leading ["and "] and the last four
    characters, which are ["and "] again: the blank before the last
    ["and"] stays. *)
Lemma slice_body (y : string) : slice_4_m4 ("and " ++ y ++ "and ") = y.
Proof.
  unfold slice_4_m4.
  replace (String.length ("and " ++ y ++ "and ") - 4 - 4)%nat
    with (String.length y)
    by (rewrite !length_append; simpl; lia).
  simpl. apply substring_prefix.
Qed.

Lemma eqb_blank_end (y : string) : String.eqb (y ++ " ") "" = false.
Proof. destruct y; reflexivity. Qed.

Lemma tot_query_obs_id a o :
  obs_id a = Some o -> tot_query a = "obs_id=='" ++ o ++ "'".
Proof. intros H. unfold tot_query. rewrite H. reflexivity. Qed.

Lemma tot_query_obs_id_config cfg a o :
  obs_id a = Some o ->
  tot_query (with_config cfg a) = "obs_id=='" ++ o ++ "'".
Proof. intros H. apply tot_query_obs_id. exact H. Qed.

Lemma tot_query_nothing :
  tot_query (mkQueryArgs None None None None) = "1".
Proof. reflexivity. Qed.

(** Without [obs_id] and with at least one filter, the query is the
    conjunction of the filters followed by one blank. *)
Lemma tot_query_filters a :
  obs_id a = None -> filters a <> [] ->
  tot_query a = String.concat " and " (filters a) ++ " ".
Proof.
  intros Hid Hne. unfold tot_query. rewrite Hid.
  assert (Hq : forall y,
             (if String.eqb (slice_4_m4 ("and " ++ (y ++ " ") ++ "and ")) ""
              then "1" else slice_4_m4 ("and " ++ (y ++ " ") ++ "and "))
             = y ++ " ").
  { intros y. rewrite slice_body, eqb_blank_end. reflexivity. }
  unfold filters in *.
  destruct (query_text a) as [qt |], (min_ctime a) as [lo |],
    (max_ctime a) as [hi |]; cbn [app String.concat] in *;
    try (exfalso; apply Hne; reflexivity);
    rewrite <- Hq; repeat rewrite append_assoc; reflexivity.
Qed.

End Query.

(** C10, at [query_text = "a"] with no [obs_id], [min_ctime] or
    [max_ctime].  The conjunction of the supplied filters is ["a"]; the
    source builds ["and a and "] and keeps [[4:-4]] of it, which is
    ["a "], with the blank that stood before the last ["and"]. *)
Theorem tot_query_trailing_blank :
  let a := mkQueryArgs (Some "a"%string) None None None in
  String.concat " and " (filters a) = "a"%string /\
  tot_query a = "a "%string /\
  tot_query a <> String.concat " and " (filters a).
Proof.
  repeat split. discriminate.
Qed.


(* ------------------------------------------------------------------ *)
(** ** Controls that cannot be resolved *)

Lemma resolve_raises_only od os l e :
  resolve od os l = Raise e -> e = ZeroDivisionError.
Proof.
  destruct l as [ndc nsc nd ns dcs scs].
  destruct ndc, nsc, nd, ns; run_resolve;
    repeat (progress (split_ifs;
                      cbn [bind l_n_det_chunks l_n_samp_chunks l_n_dets
                           l_n_samps l_det_chunks l_samp_chunks]));
    intros H; try discriminate H; injection H as <-; reflexivity.
Qed.

Lemma resolve_never_out_of_fuel od os l : resolve od os l <> OutOfFuel.
Proof.
  destruct l as [ndc nsc nd ns dcs scs].
  destruct ndc, nsc, nd, ns; run_resolve;
    repeat (progress (split_ifs;
                      cbn [bind l_n_det_chunks l_n_samp_chunks l_n_dets
                           l_n_samps l_det_chunks l_samp_chunks]));
    discriminate.
Qed.

Lemma resolve_zero_control od os l D S :
  resolve od os l = Ok (D, S) ->
  l_n_det_chunks l <> Some 0 /\ l_n_samp_chunks l <> Some 0 /\
  (l_n_det_chunks l = None -> l_n_dets l <> Some 0) /\
  (l_n_samp_chunks l = None -> l_n_samps l <> Some 0).
Proof.
  destruct l as [ndc nsc nd ns dcs scs].
  destruct ndc as [ndc |], nsc as [nsc |], nd as [nd |], ns as [ns |];
    run_resolve;
    repeat match goal with
           | |- context [?x =? 0] =>
               destruct (Z.eqb_spec x 0);
               cbn [bind l_n_det_chunks l_n_samp_chunks l_n_dets
                    l_n_samps l_det_chunks l_samp_chunks]
           end;
    intros H; try discriminate H;
    repeat split; try discriminate; try congruence;
    intros; congruence.
Qed.

(** X1. A count or a size of zero is a division by zero.  Without
    [ram_limit], when [n_det_chunks] or [n_samp_chunks] is 0, or when a
    size ([n_dets], [n_samps]) is 0 and no count is given for its axis,
    the controls do not resolve: the first [next] raises
    [ZeroDivisionError], after the database session was opened and
    closed, and nothing is yielded or loaded. *)
Theorem zero_control_raises (aman : Type)
        (load_file : det_chunk -> samp_chunk -> result aman)
        (fuel : nat) (c : call) :
  ram_limit (ctl c) = None ->
  n_det_chunks (ctl c) = Some 0 \/ n_samp_chunks (ctl c) = Some 0 \/
  (n_det_chunks (ctl c) = None /\ n_dets (ctl c) = Some 0) \/
  (n_samp_chunks (ctl c) = None /\ n_samps (ctl c) = Some 0) ->
  plan fuel (obs_dets c) (obs_samps c) (ctl c) = Raise ZeroDivisionError /\
  get_batch aman load_file fuel c
  = ([], Some (Raised ZeroDivisionError), Finished,
     [EvSessionOpen; EvSessionClose]).
Proof.
  intros Hram Hzero.
  assert (Hplan : plan fuel (obs_dets c) (obs_samps c) (ctl c)
                  = Raise ZeroDivisionError).
  { unfold plan, step_ram. rewrite Hram. cbn [bind].
    destruct (resolve (obs_dets c) (obs_samps c) (locals_of (ctl c)))
      as [[D S] | e |] eqn:Hres.
    - exfalso.
      destruct (resolve_zero_control _ _ _ _ _ Hres) as (H1 & H2 & H3 & H4).
      cbn in H1, H2, H3, H4.
      destruct Hzero as [Hz | [Hz | [[Hn Hz] | [Hn Hz]]]];
        [ apply H1 | apply H2 | apply (H3 Hn) | apply (H4 Hn) ]; exact Hz.
    - rewrite (resolve_raises_only _ _ _ _ Hres). reflexivity.
    - exfalso. exact (resolve_never_out_of_fuel _ _ _ Hres). }
  split; [exact Hplan |].
  unfold get_batch, next. rewrite Hplan. reflexivity.
Qed.

Lemma zero_control_raises_witness :
  get_batch unit (fun _ _ => Ok tt) 0
    (mkCall 8 100 (mkControls None None None (Some 0) None None None)
            false false)
  = ([], Some (Raised ZeroDivisionError), Finished,
     [EvSessionOpen; EvSessionClose]).
Proof.
  apply (zero_control_raises unit (fun _ _ => Ok tt) 0
           (mkCall 8 100 (mkControls None None None (Some 0) None None None)
                   false false)).
  - reflexivity.
  - right. right. left. split; reflexivity.
Defined.

(* ------------------------------------------------------------------ *)
(** ** More on the search for the sample chunk count *)

Lemma ram_while_no_budget os :
  0 <= os ->
  forall (n : nat) (nsc ns : Z),
    1 <= nsc -> (1 <= n)%nat -> (Z.to_nat (os + 1 - nsc) <= n)%nat ->
    forall fuel, (n <= fuel)%nat ->
      ram_while fuel 0 os nsc ns 0 = Raise ZeroDivisionError.
Proof.
  intros Hos. induction n as [| n IH]; intros nsc ns Hnsc H1 Hn fuel Hfuel;
    [lia |].
  destruct fuel as [| fuel]; [lia |]. cbn [ram_while Z.eqb].
  rewrite (floordiv_ok os (nsc + 1)) by lia. cbn [bind].
  destruct (Z.eq_dec (os / (nsc + 1)) 0) as [Hq | Hq].
  - rewrite Hq. reflexivity.
  - rewrite (floordiv_ok 0 (os / (nsc + 1))) by exact Hq. cbn [bind].
    rewrite Z.div_0_l by exact Hq.
    assert (Hbig : nsc + 1 <= os).
    { destruct (Z_lt_le_dec os (nsc + 1)) as [Hlt | Hle]; [| exact Hle].
      exfalso. apply Hq. apply Z.div_small. lia. }
    apply IH; lia.
Qed.

(** X2. A [ram_limit] under 4 bytes, or an observation without
    samples, ends in [ZeroDivisionError], not in an endless loop: the
    budget [ram_limit // 4] is 0 points, [n_dets] stays 0, and after at
    most [obs_samps] rounds [n_samps] reaches 0 and line 169 divides by
    it. *)
Theorem ram_limit_too_small (fuel : nat) (ram od os : Z) (c : controls) :
  0 <= os -> 0 <= ram ->
  ram < 4 \/ os = 0 ->
  (Z.to_nat os + 1 <= fuel)%nat ->
  ram_limit c = Some ram ->
  ram_search fuel ram os = Raise ZeroDivisionError /\
  plan fuel od os c = Raise ZeroDivisionError.
Proof.
  intros Hos Hram Hsmall Hfuel Hc.
  assert (Hsearch : ram_search fuel ram os = Raise ZeroDivisionError).
  { unfold ram_search.
    destruct (Z.eq_dec os 0) as [-> | Hnz]; [reflexivity |].
    destruct Hsmall as [Hlt | Hz]; [| contradiction].
    assert (Hpts : ram / 4 = 0) by (apply Z.div_small; lia).
    rewrite Hpts. rewrite floordiv_ok by exact Hnz. cbn [bind].
    rewrite Z.div_0_l by exact Hnz.
    apply (ram_while_no_budget os Hos (Z.to_nat os + 1)); lia. }
  split; [exact Hsearch |].
  unfold plan, step_ram. rewrite Hc, Hsearch. reflexivity.
Qed.

Lemma ram_limit_too_small_witness :
  ram_search 8 3 7 = Raise ZeroDivisionError /\
  plan 8 5 7 (mkControls (Some 3) None None None None None None)
  = Raise ZeroDivisionError.
Proof.
  apply (ram_limit_too_small 8 3 5 7
           (mkControls (Some 3) None None None None None None));
    lia || reflexivity.
Defined.

(** The loop leaves at the first count that gives a detector. *)
Lemma ram_while_first pts os :
  forall fuel nsc ns nd a b c,
    1 <= nsc ->
    floordiv os nsc = Ok ns -> floordiv pts ns = Ok nd ->
    (forall k, 1 <= k < nsc ->
       exists q, floordiv os k = Ok q /\ floordiv pts q = Ok 0) ->
    ram_while fuel pts os nsc ns nd = Ok (a, b, c) ->
    nsc <= a /\
    floordiv os a = Ok b /\ floordiv pts b = Ok c /\ c <> 0 /\
    (forall k, 1 <= k < a ->
       exists q, floordiv os k = Ok q /\ floordiv pts q = Ok 0).
Proof.
  induction fuel as [| fuel IH];
    intros nsc ns nd a b c Hnsc Hns Hnd Hbelow H; cbn [ram_while] in H;
    destruct (Z.eqb_spec nd 0) as [Hz | Hz]; try discriminate H;
    try (injection H as <- <- <-;
         split; [lia | repeat split; assumption]).
  destruct (floordiv os (nsc + 1)) as [ns' | e |] eqn:Hns';
    cbn [bind] in H; try discriminate H.
  destruct (floordiv pts ns') as [nd' | e |] eqn:Hnd';
    cbn [bind] in H; try discriminate H.
  destruct (IH (nsc + 1) ns' nd' a b c ltac:(lia) Hns' Hnd') as (Ha & Hrest).
  - intros k Hk. destruct (Z.eq_dec k nsc) as [-> | Hne].
    + exists ns. subst nd. split; assumption.
    + apply Hbelow. lia.
  - exact H.
  - split; [lia | exact Hrest].
Qed.

(** X3. The search settles on the smallest number of sample chunks
    that leaves room for a detector: when it returns
    [(n_samp_chunks, n_samps, n_dets)], these are
    [n_samps = obs_samps // n_samp_chunks] and
    [n_dets = (ram_limit // 4) // n_samps], with [n_dets] not 0, and
    every smaller count [k >= 1] gives [(ram_limit // 4) //
    (obs_samps // k) = 0]. *)
Theorem ram_search_smallest (fuel : nat) (ram os a b c : Z) :
  ram_search fuel ram os = Ok (a, b, c) ->
  1 <= a /\
  floordiv os a = Ok b /\ floordiv (ram / 4) b = Ok c /\ c <> 0 /\
  (forall k, 1 <= k < a ->
     exists q, floordiv os k = Ok q /\ floordiv (ram / 4) q = Ok 0).
Proof.
  unfold ram_search. intros H.
  destruct (floordiv (ram / 4) os) as [nd | e |] eqn:Hnd;
    cbn [bind] in H; try discriminate H.
  assert (Hos : floordiv os 1 = Ok os)
    by (unfold floordiv; cbn; rewrite Z.div_1_r; reflexivity).
  destruct (ram_while_first (ram / 4) os fuel 1 os nd a b c
              ltac:(lia) Hos Hnd) as (Ha & Hrest).
  - intros k Hk. lia.
  - exact H.
  - split; [lia | exact Hrest].
Qed.

Lemma ram_search_smallest_witness :
  1 <= 3 /\
  floordiv 10 3 = Ok 3 /\ floordiv (12 / 4) 3 = Ok 1 /\ 1 <> 0 /\
  (forall k, 1 <= k < 3 ->
     exists q, floordiv 10 k = Ok q /\ floordiv (12 / 4) q = Ok 0).
Proof.
  apply (ram_search_smallest 5 12 10 3 3 1). reflexivity.
Defined.

(* ------------------------------------------------------------------ *)
(** ** How many chunks, and how large *)

Lemma range_from_length a k : List.length (range_from a k) = k.
Proof.
  revert a. induction k as [| k IH]; intros a; simpl;
    [| rewrite IH]; reflexivity.
Qed.

Lemma range_from_nth k :
  forall a i, (i < k)%nat ->
    nth_error (range_from a k) i = Some (a + Z.of_nat i).
Proof.
  induction k as [| k IH]; intros a i Hi; [lia |].
  destruct i as [| i]; simpl.
  - f_equal. lia.
  - rewrite IH by lia. f_equal. lia.
Qed.

Lemma samp_ranges_length n total k :
  List.length (samp_ranges n total k) = Z.to_nat k.
Proof.
  unfold samp_ranges, range. rewrite length_map. apply range_from_length.
Qed.

Lemma samp_ranges_nth n total k i r :
  nth_error (samp_ranges n total k) i = Some r ->
  Z.of_nat i < k /\
  r = (Z.of_nat i * n, Z.min ((Z.of_nat i + 1) * n) total).
Proof.
  intros H.
  assert (Hi : (i < Z.to_nat k)%nat).
  { rewrite <- (samp_ranges_length n total k).
    apply nth_error_Some. congruence. }
  split; [lia |].
  unfold samp_ranges, range in H.
  rewrite nth_error_map, (range_from_nth _ 0 i Hi) in H.
  cbn in H. injection H as <-. reflexivity.
Qed.

(** The ranges cut with size [n] out of [total]: all of length [n] but
    the last, which has what is left. *)
Lemma samp_ranges_sizes n total k i r :
  1 <= n -> (k - 1) * n < total <= k * n ->
  nth_error (samp_ranges n total k) i = Some r ->
  r = (Z.of_nat i * n, Z.min ((Z.of_nat i + 1) * n) total) /\
  1 <= samp_len r <= n /\
  (Z.of_nat i + 1 < k -> samp_len r = n).
Proof.
  intros Hn Hk H.
  destruct (samp_ranges_nth _ _ _ _ _ H) as [Hi ->].
  split; [reflexivity |]. unfold samp_len. cbn [fst snd].
  split; [| intros Hlast]; nia.
Qed.

Lemma det_ranges_nth n total k i d :
  nth_error (det_ranges n total k) i = Some d ->
  exists r, nth_error (samp_ranges n total k) i = Some r /\
            d = as_range r /\ (fst r <= snd r -> det_len d = samp_len r).
Proof.
  rewrite det_ranges_as_range, nth_error_map.
  intros H.
  match type of H with
  | option_map _ ?x = _ => destruct x as [r |] eqn:E
  end; cbn [option_map] in H; [| discriminate H].
  injection H as <-. exists r.
  split; [exact E | split; [reflexivity |]].
  unfold as_range, det_len, samp_len. lia.
Qed.

(** X4. Chunks of a given size.  With [n_dets = n >= 1] and neither
    [ram_limit] nor [n_det_chunks], an observation of [obs_dets >= 0]
    detectors is cut into [ceil(obs_dets / n)] chunks; chunk [i] is
    [range(i*n, min((i+1)*n, obs_dets))]; every chunk has between 1 and
    [n] detectors and all but the last have exactly [n].  Likewise for
    [n_samps] on the sample axis. *)
Theorem size_control_chunks (fuel : nat) (od os : Z) (c : controls)
        (D : list det_chunk) (S : list samp_chunk) :
  ram_limit c = None ->
  plan fuel od os c = Ok (D, S) ->
  (forall n, n_det_chunks c = None -> n_dets c = Some n ->
     1 <= n -> 0 <= od ->
     Z.of_nat (List.length D) = - ((- od) / n) /\
     forall i d, nth_error D i = Some d ->
       d = DRange (Z.of_nat i * n) (Z.min ((Z.of_nat i + 1) * n) od) /\
       1 <= det_len d <= n /\
       (Z.of_nat i + 1 < Z.of_nat (List.length D) -> det_len d = n)) /\
  (forall n, n_samp_chunks c = None -> n_samps c = Some n ->
     1 <= n -> 0 <= os ->
     Z.of_nat (List.length S) = - ((- os) / n) /\
     forall i s, nth_error S i = Some s ->
       s = (Z.of_nat i * n, Z.min ((Z.of_nat i + 1) * n) os) /\
       1 <= samp_len s <= n /\
       (Z.of_nat i + 1 < Z.of_nat (List.length S) -> samp_len s = n)).
Proof.
  intros Hram Hplan.
  unfold plan, step_ram in Hplan. rewrite Hram in Hplan.
  cbn [bind] in Hplan. apply resolve_split in Hplan.
  destruct c as [ram ndc nsc nd ns dcs scs]. cbn in *.
  destruct Hplan as [HD HS]. split.
  - intros n -> -> Hn Hod. cbn in HD. subst D.
    destruct (ceildiv_spec od n Hn) as (k & Hk & Hb).
    unfold ceildiv in Hk. destruct (n =? 0); [discriminate |].
    injection Hk as Hk. rewrite Hk.
    assert (0 <= k) by nia.
    rewrite det_ranges_as_range, length_map, samp_ranges_length.
    split; [lia |].
    intros i d Hi. rewrite <- det_ranges_as_range in Hi.
    destruct (det_ranges_nth _ _ _ _ _ Hi) as (r & Hr & -> & Hlen).
    destruct (samp_ranges_sizes n od k i r Hn Hb Hr) as (-> & Hsz & Hfull).
    cbn [as_range fst snd] in *.
    rewrite Hlen by (unfold samp_len in Hsz; cbn in Hsz; lia).
    split; [reflexivity | split; [exact Hsz |]].
    intros Hlast. apply Hfull. lia.
  - intros n -> -> Hn Hos. cbn in HS. subst S.
    destruct (ceildiv_spec os n Hn) as (k & Hk & Hb).
    unfold ceildiv in Hk. destruct (n =? 0); [discriminate |].
    injection Hk as Hk. rewrite Hk.
    assert (0 <= k) by nia.
    rewrite samp_ranges_length.
    split; [lia |].
    intros i s Hi.
    destruct (samp_ranges_sizes n os k i s Hn Hb Hi) as (-> & Hsz & Hfull).
    split; [reflexivity | split; [exact Hsz |]].
    intros Hlast. apply Hfull. lia.
Qed.

Lemma size_control_chunks_witness :
  Z.of_nat (List.length [DRange 0 4; DRange 4 8; DRange 8 10])
  = - ((- 10) / 4) /\
  forall i d, nth_error [DRange 0 4; DRange 4 8; DRange 8 10] i = Some d ->
    d = DRange (Z.of_nat i * 4) (Z.min ((Z.of_nat i + 1) * 4) 10) /\
    1 <= det_len d <= 4 /\
    (Z.of_nat i + 1
     < Z.of_nat (List.length [DRange 0 4; DRange 4 8; DRange 8 10]) ->
     det_len d = 4).
Proof.
  apply (proj1 (size_control_chunks 0 10 20
                  (mkControls None None None (Some 4) None None None)
                  [DRange 0 4; DRange 4 8; DRange 8 10] [(0, 20)]
                  eq_refl eq_refl) 4); lia || reflexivity.
Defined.

Lemma ceil_bounds a b :
  1 <= b -> (- ((- a) / b) - 1) * b < a <= - ((- a) / b) * b.
Proof.
  intros Hb. destruct (ceildiv_spec a b Hb) as (k & Hk & Hbounds).
  unfold ceildiv in Hk. destruct (b =? 0); [discriminate |].
  injection Hk as <-. exact Hbounds.
Qed.

Lemma plan_count_as_size_dets fuel od os k nsc nd ns dcs scs :
  plan fuel od os (mkControls None (Some k) nsc nd ns dcs scs)
  = plan fuel od os
         (mkControls None None nsc (Some (- ((- od) / k))) ns dcs scs).
Proof.
  unfold plan, step_ram, locals_of.
  cbn [ram_limit bind n_det_chunks n_samp_chunks n_dets n_samps
       det_chunks samp_chunks].
  destruct (Z.eq_dec k 0) as [-> | Hk].
  - (* both divide by zero, at line 173 or at line 182 *)
    rewrite Z.div_0_r. cbn [Z.opp].
    destruct nsc, ns; run_resolve; cbn [Z.eqb];
      repeat (progress (split_ifs;
                        cbn [bind l_n_det_chunks l_n_samp_chunks l_n_dets
                             l_n_samps l_det_chunks l_samp_chunks Z.eqb]));
      reflexivity.
  - destruct nsc, ns; run_resolve;
      repeat match goal with
             | |- context [?x =? 0] =>
                 destruct (Z.eqb_spec x 0);
                 cbn [bind l_n_det_chunks l_n_samp_chunks l_n_dets
                      l_n_samps l_det_chunks l_samp_chunks]
             end;
      reflexivity || congruence.
Qed.

(** X5. A count of chunks is turned into a chunk size.  Without
    [ram_limit], [n_det_chunks = k] gives the plan of
    [n_dets = ceil(obs_dets / k)] (the same chunks, or the same
    [ZeroDivisionError]); so for [k >= 1] and a non-empty detector axis
    the number of detector chunks is between 1 and [k], and it can be
    smaller than [k]: 10 detectors asked for in 6 chunks come in 5. *)
Theorem count_control_is_size :
  (forall fuel od os k nsc nd ns dcs scs,
     plan fuel od os (mkControls None (Some k) nsc nd ns dcs scs)
     = plan fuel od os
            (mkControls None None nsc (Some (- ((- od) / k))) ns dcs scs)) /\
  (forall fuel od os k nsc nd ns dcs scs D S,
     1 <= k -> 1 <= od ->
     plan fuel od os (mkControls None (Some k) nsc nd ns dcs scs)
     = Ok (D, S) ->
     1 <= Z.of_nat (List.length D) <= k) /\
  (forall fuel,
     plan fuel 10 10 (mkControls None (Some 6) None None None None None)
     = Ok ([DRange 0 2; DRange 2 4; DRange 4 6; DRange 6 8; DRange 8 10],
           [(0, 10)])).
Proof.
  split; [exact plan_count_as_size_dets | split; [| reflexivity]].
  intros fuel od os k nsc nd ns dcs scs D S Hk Hod Hplan.
  unfold plan, step_ram in Hplan. cbn [ram_limit locals_of bind] in Hplan.
  apply resolve_split in Hplan. destruct Hplan as [-> _].
  unfold locals_of, dets_only.
  cbn [l_n_det_chunks l_n_dets l_det_chunks n_det_chunks n_dets det_chunks].
  pose proof (ceil_bounds od k Hk) as Hn.
  set (n := - (- od / k)) in *.
  assert (Hn1 : 1 <= n) by nia.
  pose proof (ceil_bounds od n Hn1) as Hk'.
  set (k' := - (- od / n)) in *.
  rewrite det_ranges_as_range, length_map, samp_ranges_length.
  assert (1 <= k') by nia.
  assert (k' <= k) by nia.
  lia.
Qed.

Lemma count_control_is_size_witness :
  1 <= Z.of_nat (List.length [DRange 0 4; DRange 4 7]) <= 2.
Proof.
  apply (proj1 (proj2 count_control_is_size) 0%nat 7 9 2
               None None None None None [DRange 0 4; DRange 4 7] [(0, 9)]);
    lia || reflexivity.
Defined.

(* ------------------------------------------------------------------ *)
(** ** What the memory budget does bound *)

Lemma samp_ranges_len_le n total k s :
  1 <= n -> In s (samp_ranges n total k) -> samp_len s <= n.
Proof.
  intros Hn Hin. apply In_nth_error in Hin. destruct Hin as [i Hi].
  destruct (samp_ranges_nth _ _ _ _ _ Hi) as [_ ->].
  unfold samp_len. cbn [fst snd]. lia.
Qed.

Lemma det_ranges_len_le n total k d :
  1 <= n -> In d (det_ranges n total k) -> 0 <= det_len d <= n.
Proof.
  intros Hn Hin. rewrite det_ranges_as_range in Hin.
  apply in_map_iff in Hin. destruct Hin as (r & <- & Hr).
  pose proof (samp_ranges_len_le n total k r Hn Hr) as Hle.
  unfold as_range, det_len, samp_len in *. lia.
Qed.

(** X6. What [ram_limit] does bound.  For [ram_limit >= 4] and a
    non-empty observation the controls resolve, every detector chunk
    has at most the [n_dets] detectors the search found, every sample
    chunk at most one sample more than the [n_samps] it found, and so a
    chunk is charged at most [ram_limit] plus 4 bytes for each of its
    detectors; when the number of sample chunks divides [obs_samps] the
    chunk is within [ram_limit]. *)
Theorem ram_limit_overshoot (fuel : nat) (ram od os : Z) (c : controls) :
  4 <= ram -> 1 <= od -> 1 <= os -> (Z.to_nat os <= fuel)%nat ->
  ram_limit c = Some ram ->
  exists D S nsc ns nd,
    plan fuel od os c = Ok (D, S) /\
    ram_search fuel ram os = Ok (nsc, ns, nd) /\
    forall d s, In d D -> In s S ->
      det_len d <= nd /\ samp_len s <= ns + 1 /\
      chunk_bytes d s <= ram + 4 * det_len d /\
      (os mod nsc = 0 -> chunk_bytes d s <= ram).
Proof.
  intros Hram Hod Hos Hfuel Hc.
  destruct c as [r ndc0 nsc0 nd0 ns0 dcs scs]. cbn in Hc. subst r.
  rewrite plan_ram_only.
  destruct (ram_search_exits ram os Hram Hos)
    as (nsc & ns & nd & Hrun & Hnsc & Hns & Hnd & Hns1 & Hnd1).
  specialize (Hrun fuel Hfuel).
  destruct (plan_positive_partition fuel od os
              (mkControls (Some ram) None None None None None None))
    as (D & S & Hplan & _); try exact I; try assumption.
  { intros r Hr. injection Hr as <-. split; assumption. }
  exists D, S, nsc, ns, nd. split; [exact Hplan | split; [exact Hrun |]].
  unfold plan, step_ram in Hplan. cbn [ram_limit locals_of] in Hplan.
  rewrite Hrun in Hplan. cbn [bind] in Hplan.
  pose proof (ceil_bounds od nd ltac:(lia)) as Hk1.
  unfold ceildiv in Hplan. destruct (Z.eqb_spec nd 0) as [? | _]; [lia |].
  cbn [bind] in Hplan.
  apply resolve_split in Hplan. destruct Hplan as [HD HS].
  unfold dets_only, samps_only in HD, HS.
  cbn [l_n_det_chunks l_n_dets l_det_chunks
       l_n_samp_chunks l_n_samps l_samp_chunks] in HD, HS.
  set (k1 := - (- od / nd)) in *.
  assert (Hk1pos : 1 <= k1) by nia.
  pose proof (ceil_bounds od k1 Hk1pos) as Hn'.
  set (n' := - (- od / k1)) in *.
  pose proof (ceil_bounds os nsc ltac:(lia)) as Hm.
  set (m := - (- os / nsc)) in *.
  assert (Hn'1 : 1 <= n') by nia.
  assert (Hn'le : n' <= nd) by nia.
  assert (Hm1 : 1 <= m) by nia.
  pose proof (Z.mul_div_le os nsc ltac:(lia)) as Hfl1.
  pose proof (Z.mul_succ_div_gt os nsc ltac:(lia)) as Hfl2.
  rewrite <- Hns in Hfl1, Hfl2.
  assert (Hmle : m <= ns + 1) by nia.
  pose proof (Z.mul_div_le (ram / 4) ns ltac:(lia)) as Hb1.
  pose proof (Z.mul_div_le ram 4 ltac:(lia)) as Hb2.
  rewrite <- Hnd in Hb1.
  intros d s Hd Hs. subst D S.
  pose proof (det_ranges_len_le _ _ _ d Hn'1 Hd) as Hld.
  pose proof (samp_ranges_len_le _ _ _ s Hm1 Hs) as Hls.
  unfold chunk_bytes. fold (samp_len s).
  assert (Hfit : det_len d * ns <= ram / 4).
  { apply Z.le_trans with (nd * ns); [| lia].
    apply Z.mul_le_mono_nonneg_r; lia. }
  split; [lia | split; [lia | split]].
  - assert (det_len d * samp_len s <= det_len d * (ns + 1))
      by (apply Z.mul_le_mono_nonneg_l; lia).
    lia.
  - intros Hdiv.
    apply Z.mod_divide in Hdiv; [| lia]. destruct Hdiv as [q Hq].
    assert (Hq' : os / nsc = q) by (rewrite Hq; apply Z.div_mul; lia).
    assert (Hmns : m = ns) by nia.
    assert (det_len d * samp_len s <= det_len d * ns)
      by (apply Z.mul_le_mono_nonneg_l; lia).
    lia.
Qed.

Lemma ram_limit_overshoot_witness :
  exists D S nsc ns nd,
    plan 10 1 10 (mkControls (Some 12) None None None None None None)
    = Ok (D, S) /\
    ram_search 10 12 10 = Ok (nsc, ns, nd) /\
    forall d s, In d D -> In s S ->
      det_len d <= nd /\ samp_len s <= ns + 1 /\
      chunk_bytes d s <= 12 + 4 * det_len d /\
      (10 mod nsc = 0 -> chunk_bytes d s <= 12).
Proof.
  apply (ram_limit_overshoot 10 12 1 10
           (mkControls (Some 12) None None None None None None));
    lia || reflexivity.
Defined.

(* ------------------------------------------------------------------ *)
(** ** Every point of the observation is in one chunk *)

Lemma chain_count a c R :
  chain a c R ->
  forall x, List.length (filter (samp_has x) R)
            = if (a <=? x) && (x <? c) then 1%nat else 0%nat.
Proof.
  induction 1 as [a | a b c R Hab Hch IH]; intros x.
  - cbn. destruct (Z.leb_spec a x), (Z.ltb_spec x a); cbn; lia || reflexivity.
  - cbn [filter].
    change (samp_has x (a, b)) with ((a <=? x) && (x <? b)).
    apply chain_le in Hch.
    destruct (Z.leb_spec a x), (Z.ltb_spec x b); cbn [andb List.length];
      rewrite IH;
      destruct (Z.leb_spec b x), (Z.ltb_spec x c); cbn; lia || reflexivity.
Qed.

Lemma filter_as_range x R :
  List.length (filter (det_has x) (map as_range R))
  = List.length (filter (samp_has x) R).
Proof.
  induction R as [| r R IH]; [reflexivity |].
  cbn [map filter]. change (det_has x (as_range r)) with (samp_has x r).
  destruct (samp_has x r); cbn [List.length]; rewrite IH; reflexivity.
Qed.

Lemma filter_list_prod x y D S :
  List.length (filter (in_chunk x y) (list_prod D S))
  = (List.length (filter (det_has x) D)
     * List.length (filter (samp_has y) S))%nat.
Proof.
  induction D as [| d D IH]; [reflexivity |].
  cbn [list_prod filter]. rewrite filter_app, length_app, IH.
  assert (Hrow : List.length (filter (in_chunk x y)
                                     (map (fun s => (d, s)) S))
                 = if det_has x d
                   then List.length (filter (samp_has y) S) else 0%nat).
  { clear IH. induction S as [| s S IHS]; [destruct (det_has x d); reflexivity |].
    cbn [map filter]. unfold in_chunk at 1. cbn [fst snd].
    destruct (det_has x d); cbn [andb].
    - destruct (samp_has y s); cbn [List.length]; rewrite IHS; reflexivity.
    - exact IHS. }
  rewrite Hrow. destruct (det_has x d); cbn [List.length]; lia.
Qed.

(** When no explicit list is given the chunk lists are chains over the
    two axes, the default single chunk included. *)
Lemma plan_chains (fuel : nat) (od os : Z) (c : controls) :
  1 <= od -> 1 <= os ->
  positive (n_det_chunks c) -> positive (n_samp_chunks c) ->
  positive (n_dets c) -> positive (n_samps c) ->
  (forall r, ram_limit c = Some r -> 4 <= r /\ (Z.to_nat os <= fuel)%nat) ->
  det_chunks c = None -> samp_chunks c = None ->
  exists R S,
    plan fuel od os c = Ok (map as_range R, S) /\
    chain 0 od R /\ chain 0 os S.
Proof.
  intros Hod Hos Hp1 Hp2 Hp3 Hp4 Hram Hdcs Hscs.
  destruct c as [ram ndc nsc nd ns dcs scs]; cbn in *. subst dcs scs.
  destruct ram as [r |].
  - destruct (Hram r eq_refl) as [Hr Hfuel].
    destruct (ram_search_exits r os Hr Hos)
      as (c1 & s1 & d1 & Hrun & Hc1 & _ & _ & Hs1 & Hd1).
    unfold plan, step_ram. cbn [ram_limit].
    rewrite (Hrun fuel Hfuel). cbn [bind].
    destruct (ceildiv_spec od d1 ltac:(lia)) as (k & Hk & Hb).
    rewrite Hk. cbn [bind].
    destruct (resolve_partition od os
                (mkLocals (Some k) (Some c1) (Some d1) (Some s1) None None))
      as (D & S & HDS & HD & HS); cbn; try lia; try nia.
    destruct HD as (R & -> & HR); [left; discriminate |].
    exists R, S. split; [exact HDS | split; [exact HR |]].
    apply HS. left. discriminate.
  - unfold plan, step_ram. cbn [ram_limit bind].
    destruct (resolve_partition od os
                (locals_of (mkControls None ndc nsc nd ns None None)))
      as (D & S & HDS & HD & HS); cbn; try assumption.
    cbn in HD, HS. rewrite HDS.
    pose proof (resolve_split _ _ _ _ _ HDS) as [HD' HS']. cbn in HD', HS'.
    assert (HDch : exists R, D = map as_range R /\ chain 0 od R).
    { destruct ndc as [k |]; [apply HD; left; discriminate |].
      destruct nd as [n |]; [apply HD; right; discriminate |].
      exists [(0, od)]. split; [exact HD' |].
      constructor; [lia | constructor]. }
    assert (HSch : chain 0 os S).
    { destruct nsc as [k |]; [apply HS; left; discriminate |].
      destruct ns as [n |]; [apply HS; right; discriminate |].
      rewrite HS'. constructor; [lia | constructor]. }
    destruct HDch as (R & -> & HR).
    exists R, S. split; [reflexivity | split; assumption].
Qed.

(** X7. Every point is loaded once.  When the chunks are not given as
    explicit lists (counts and sizes at least 1, [ram_limit] at least
    4, a non-empty observation), each detector [x] in [0, obs_dets) at
    each sample [y] in [0, obs_samps) lies in exactly one of the chunks
    the generator walks, and a point outside the observation lies in
    none. *)
Theorem every_point_once (fuel : nat) (c : call) :
  1 <= obs_dets c -> 1 <= obs_samps c ->
  positive (n_det_chunks (ctl c)) -> positive (n_samp_chunks (ctl c)) ->
  positive (n_dets (ctl c)) -> positive (n_samps (ctl c)) ->
  (forall r, ram_limit (ctl c) = Some r ->
             4 <= r /\ (Z.to_nat (obs_samps c) <= fuel)%nat) ->
  det_chunks (ctl c) = None -> samp_chunks (ctl c) = None ->
  forall x y,
    List.length (filter (in_chunk x y) (planned fuel c))
    = if ((0 <=? x) && (x <? obs_dets c))
         && ((0 <=? y) && (y <? obs_samps c))
      then 1%nat else 0%nat.
Proof.
  intros Hod Hos Hp1 Hp2 Hp3 Hp4 Hram Hdcs Hscs x y.
  destruct (plan_chains fuel (obs_dets c) (obs_samps c) (ctl c)
              Hod Hos Hp1 Hp2 Hp3 Hp4 Hram Hdcs Hscs)
    as (R & S & Hplan & HR & HS).
  unfold planned. rewrite Hplan.
  rewrite filter_list_prod, filter_as_range.
  rewrite (chain_count _ _ _ HR x), (chain_count _ _ _ HS y).
  destruct ((0 <=? x) && (x <? obs_dets c)),
    ((0 <=? y) && (y <? obs_samps c)); reflexivity.
Qed.

Lemma every_point_once_witness :
  List.length
    (filter (in_chunk 5 7)
            (planned 0 (mkCall 8 20
                          (mkControls None (Some 3) None None (Some 6)
                                      None None)
                          true true)))
  = 1%nat.
Proof.
  apply (every_point_once 0
           (mkCall 8 20
                   (mkControls None (Some 3) None None (Some 6) None None)
                   true true));
    cbn; try lia; try reflexivity; try discriminate.
Defined.

(* ------------------------------------------------------------------ *)
(** ** Explicit chunk lists, and a loader that fails *)

(** X8. Explicit chunk lists are taken as they are.  With no
    [ram_limit], count or size, the generator walks exactly the product
    of the [det_chunks] and [samp_chunks] it was given (a missing list
    standing for the whole axis), whatever the lists hold: nothing is
    checked against the observation, and an empty list means that
    nothing is yielded and nothing is loaded. *)
Theorem explicit_lists_verbatim (aman : Type)
        (ld : det_chunk -> samp_chunk -> aman) (fuel : nat) (od os : Z)
        (dcs : option (list det_chunk)) (scs : option (list samp_chunk))
        (tst sg : bool) :
  let c := mkCall od os (mkControls None None None None None dcs scs)
                  tst sg in
  let D := match dcs with Some d => d | None => [DRange 0 od] end in
  let S := match scs with Some s => s | None => [(0, os)] end in
  get_batch aman (fun d s => Ok (ld d s)) fuel c
  = (map (item_for tst ld) (list_prod D S), Some StopIteration, Finished,
     prologue c ++ events_for tst (list_prod D S)) /\
  (D = [] \/ S = [] ->
   get_batch aman (fun d s => Ok (ld d s)) fuel c
   = ([], Some StopIteration, Finished, prologue c)).
Proof.
  intros c D S.
  assert (Hall : get_batch aman (fun d s => Ok (ld d s)) fuel c
                 = (map (item_for tst ld) (list_prod D S), Some StopIteration,
                    Finished, prologue c ++ events_for tst (list_prod D S))).
  { apply (get_batch_all aman ld fuel c D S). reflexivity. }
  split; [exact Hall |].
  intros Hempty. rewrite Hall.
  assert (Hnil : list_prod D S = []).
  { destruct Hempty as [-> | ->]; [reflexivity |].
    clear. induction D as [| d D IH]; [reflexivity | exact IH]. }
  rewrite Hnil. unfold events_for. destruct tst; cbn [map];
    rewrite app_nil_r; reflexivity.
Qed.

Lemma explicit_lists_verbatim_witness :
  get_batch unit (fun _ _ => Ok tt) 0
    (mkCall 8 20 (mkControls None None None None None
                             (Some [DList [7; 3]; DRange 100 200]) (Some []))
            false false)
  = ([], Some StopIteration, Finished,
     [EvSessionOpen; EvSessionClose; EvStatusFromFile]).
Proof.
  apply (proj2 (explicit_lists_verbatim unit (fun _ _ => tt) 0 8 20
                  (Some [DList [7; 3]; DRange 100 200]) (Some [])
                  false false)).
  right. reflexivity.
Defined.

Section LoaderFails.

Variable aman : Type.
Variable load_file : det_chunk -> samp_chunk -> result aman.
Variable ld : det_chunk -> samp_chunk -> aman.
Variable fuel : nat.
Variable c : call.
Variables (d : det_chunk) (s : samp_chunk) (e : exn).

Hypothesis not_test : test c = false.
Hypothesis fails_here : load_file d s = Raise e.

Lemma emit_fails t fr :
  emit aman load_file (test c) t (Some (d, s, fr))
  = (match e with
     | Py.GeneratorExit => StopIteration
     | _ => Raised e
     end, Finished, t ++ [EvLoadFile d s]).
Proof.
  unfold emit. rewrite not_test, fails_here. destruct e; reflexivity.
Qed.

Lemma emit_loads t d' s' fr :
  load_file d' s' = Ok (ld d' s') ->
  emit aman load_file (test c) t (Some (d', s', fr))
  = (Yield (Loaded (ld d' s')), fr, t ++ [EvLoadFile d' s']).
Proof.
  intros Hok. unfold emit. rewrite not_test, Hok. reflexivity.
Qed.

Lemma iterate_until_failure :
  forall k pre post fr t,
    fr <> Created ->
    rest_of fr = pre ++ (d, s) :: post ->
    (forall p, In p pre -> load_file (fst p) (snd p) = Ok (ld (fst p) (snd p))) ->
    (List.length pre < k)%nat ->
    iterate aman load_file k fuel c fr t
    = (map (fun p => Loaded (ld (fst p) (snd p))) pre,
       Some (match e with
             | Py.GeneratorExit => StopIteration
             | _ => Raised e
             end),
       Finished,
       t ++ map (fun p => EvLoadFile (fst p) (snd p)) pre ++ [EvLoadFile d s]).
Proof.
  induction k as [| k IH]; intros pre post fr t Hfr Hrest Hpre Hk; [lia |].
  rewrite iterate_succ. unfold next.
  destruct fr as [| d0 ds ss sall |]; [contradiction | | ].
  - pose proof (inner_loop_reaches d0 ds ss sall) as Hr.
    destruct (inner_loop d0 ds ss sall) as [[[d' s'] fr'] |];
      unfold reaches in Hr.
    + destruct Hr as [Hr Hfr']. rewrite Hrest in Hr.
      destruct pre as [| p pre].
      * cbn [app] in Hr. injection Hr as <- <- _.
        rewrite emit_fails. destruct e; reflexivity.
      * cbn [app] in Hr. injection Hr as Hp Hrest'.
        destruct p as [pd ps]. injection Hp as <- <-.
        rewrite (emit_loads t pd ps fr')
          by (apply (Hpre (pd, ps)); left; reflexivity).
        cbn [continue_with fst snd].
        rewrite (IH pre post fr' _ Hfr' (eq_sym Hrest'))
          by (try (intros q Hq; apply Hpre; right; exact Hq); cbn in Hk; lia).
        cbn [map app fst snd]. rewrite <- app_assoc. reflexivity.
    + rewrite Hrest in Hr. destruct pre; discriminate Hr.
  - cbn in Hrest. destruct pre; discriminate Hrest.
Qed.

End LoaderFails.

(** X9. A loader that fails ends the iteration.  Outside test mode,
    when [load_file] returns for the first chunks and raises [e] on the
    next one, the consumer gets the AxisManagers of the first chunks
    and then [e]; the generator is finished and [load_file] is never
    called on a later chunk.  If what [load_file] raised is a
    [GeneratorExit], the handler of line 221 takes it and the iteration
    just stops. *)
Theorem load_failure_stops (aman : Type)
        (load_file : det_chunk -> samp_chunk -> result aman)
        (ld : det_chunk -> samp_chunk -> aman) (fuel : nat) (c : call)
        (D : list det_chunk) (S : list samp_chunk)
        (pre post : list (det_chunk * samp_chunk))
        (d : det_chunk) (s : samp_chunk) (e : exn) :
  test c = false ->
  plan fuel (obs_dets c) (obs_samps c) (ctl c) = Ok (D, S) ->
  list_prod D S = pre ++ (d, s) :: post ->
  (forall p, In p pre -> load_file (fst p) (snd p) = Ok (ld (fst p) (snd p))) ->
  load_file d s = Raise e ->
  get_batch aman load_file fuel c
  = (map (fun p => Loaded (ld (fst p) (snd p))) pre,
     Some (match e with
           | Py.GeneratorExit => StopIteration
           | _ => Raised e
           end),
     Finished,
     prologue c ++ map (fun p => EvLoadFile (fst p) (snd p)) pre
       ++ [EvLoadFile d s]).
Proof.
  intros Htest Hplan Hprod Hpre Hfail.
  unfold get_batch, next. rewrite Hplan.
  assert (Ht0 : (if status_given c
                 then [] ++ [EvSessionOpen; EvSessionClose]
                 else ([] ++ [EvSessionOpen; EvSessionClose])
                        ++ [EvStatusFromFile])
                = prologue c)
    by (unfold prologue; destruct (status_given c); reflexivity).
  rewrite Ht0.
  pose proof (outer_loop_reaches D S) as Hr.
  destruct (outer_loop D S) as [[[d' s'] fr] |]; unfold reaches in Hr.
  - destruct Hr as [Hr Hfr]. rewrite Hprod in Hr.
    destruct pre as [| [pd ps] pre].
    + cbn [app] in Hr. injection Hr as <- <- _.
      rewrite (emit_fails aman load_file c d s e Htest Hfail).
      destruct e; reflexivity.
    + cbn [app] in Hr. injection Hr as <- <- Hrest.
      rewrite (emit_loads aman load_file ld c Htest _ pd ps fr)
        by (apply (Hpre (pd, ps)); left; reflexivity).
      rewrite (iterate_until_failure aman load_file ld fuel c d s e Htest Hfail
                 _ pre post fr _ Hfr (eq_sym Hrest)).
      * cbn [map app fst snd]. rewrite <- app_assoc. reflexivity.
      * intros q Hq. apply Hpre. right. exact Hq.
      * rewrite pending_rest, <- Hrest, length_app. cbn. lia.
  - rewrite Hprod in Hr. destruct pre; discriminate Hr.
Qed.

Lemma load_failure_stops_witness :
  let load_file := fun (d : det_chunk) (s : samp_chunk) =>
                     match d with
                     | DRange 0 _ => Ok tt
                     | _ => Raise (OtherException "unreadable frame")
                     end in
  get_batch unit load_file 0
    (mkCall 4 10 (mkControls None None None (Some 2) None None None)
            false true)
  = ([Loaded tt], Some (Raised (OtherException "unreadable frame")),
     Finished,
     [EvSessionOpen; EvSessionClose;
      EvLoadFile (DRange 0 2) (0, 10); EvLoadFile (DRange 2 4) (0, 10)]).
Proof.
  intros load_file.
  apply (load_failure_stops unit load_file (fun _ _ => tt) 0
           (mkCall 4 10 (mkControls None None None (Some 2) None None None)
                   false true)
           [DRange 0 2; DRange 2 4] [(0, 10)]
           [(DRange 0 2, (0, 10))] [] (DRange 2 4) (0, 10)
           (OtherException "unreadable frame"));
    try reflexivity.
  intros p [<- | []]. reflexivity.
Defined.

(* ------------------------------------------------------------------ *)
(** ** The query text, for every input *)

(** X10. The query text in full.  With [obs_id] the text is
    [obs_id=='<obs_id>'] whatever the filters are; without it and
    without any filter it is ["1"]; otherwise it is the filters joined
    by [" and "], in the order [query_text], [timestamp>=min_ctime],
    [timestamp<=max_ctime], followed by one blank.  It is never the
    empty string. *)
Theorem tot_query_shape (a : query_args) :
  tot_query a
  = match obs_id a with
    | Some o => ("obs_id=='" ++ o ++ "'")%string
    | None =>
        match filters a with
        | [] => "1"%string
        | _ :: _ => (String.concat " and " (filters a) ++ " ")%string
        end
    end /\
  tot_query a <> ""%string.
Proof.
  assert (Hshape :
    tot_query a
    = match obs_id a with
      | Some o => ("obs_id=='" ++ o ++ "'")%string
      | None =>
          match filters a with
          | [] => "1"%string
          | _ :: _ => (String.concat " and " (filters a) ++ " ")%string
          end
      end).
  { destruct (obs_id a) as [o |] eqn:Hid.
    - apply tot_query_obs_id. exact Hid.
    - destruct (filters a) as [| f fs] eqn:Hf.
      + unfold tot_query. rewrite Hid. unfold filters in Hf.
        destruct (query_text a), (min_ctime a), (max_ctime a);
          try discriminate Hf. reflexivity.
      + rewrite <- Hf. apply tot_query_filters; [exact Hid |].
        rewrite Hf. discriminate. }
  split; [exact Hshape |].
  rewrite Hshape.
  destruct (obs_id a); [discriminate |].
  destruct (filters a); [discriminate |].
  intros H. pose proof (eqb_blank_end (String.concat " and " (s :: l))) as Hb.
  rewrite H in Hb. discriminate Hb.
Qed.

(* ------------------------------------------------------------------ *)
(** ** The driver loop, event by event *)

Lemma main_loop_prefix fault :
  forall l rest t,
    (forall obs st e, In obs l -> fault obs st = Some e ->
                      is_Exception e = true) ->
    main_loop fault (l ++ rest) t
    = main_loop fault rest (t ++ flat_map (obs_events fault) l).
Proof.
  induction l as [| obs l IH]; intros rest t Hexc.
  - cbn. rewrite app_nil_r. reflexivity.
  - cbn [app main_loop flat_map]. unfold obs_events at 1.
    destruct (try_body_cases fault obs)
      as [Hok | (e & st & evs & Hfail & Hst & _)].
    + rewrite Hok. cbn [fst snd]. rewrite IH.
      * rewrite app_nil_r, <- app_assoc. reflexivity.
      * intros o st e Ho. apply Hexc. right. exact Ho.
    + rewrite Hfail. cbn [fst snd].
      rewrite (Hexc obs st e (or_introl eq_refl) Hst).
      rewrite IH.
      * rewrite <- !app_assoc. reflexivity.
      * intros o st' e' Ho. apply Hexc. right. exact Ho.
Qed.

Lemma started_obs_events fault l :
  started (flat_map (obs_events fault) l) = l.
Proof.
  induction l as [| obs l IH]; [reflexivity |].
  cbn [flat_map]. rewrite started_app, IH. unfold obs_events.
  destruct (try_body_cases fault obs)
    as [Hok | (e & st & evs & Hfail & _ & [-> | ->])];
    [rewrite Hok | rewrite Hfail | rewrite Hfail]; reflexivity.
Qed.

(** X11. What is not an [Exception] ends the run.  If the processing
    of the observations before [x] raises nothing but [Exception]s and
    the processing of [x] raises [e] that is not one (a
    [KeyboardInterrupt], a [SystemExit]), the loop ends with [e]: the
    observations up to [x] have been started, [x] is not logged as an
    error, and no observation after [x] adds an event. *)
Theorem main_loop_aborts (fault : string -> stage -> option exn)
        (before after : list string) (x : string) (e : exn) :
  (forall obs st e', In obs before -> fault obs st = Some e' ->
                     is_Exception e' = true) ->
  snd (try_body fault x) = Some e ->
  is_Exception e = false ->
  main_loop fault (before ++ x :: after) []
  = (flat_map (obs_events fault) before ++ fst (try_body fault x), Some e) /\
  started (fst (main_loop fault (before ++ x :: after) [])) = before ++ [x] /\
  logged_error (fst (main_loop fault (before ++ x :: after) []))
  = filter (raises fault) before.
Proof.
  intros Hexc Hx He.
  assert (Hrun : main_loop fault (before ++ x :: after) []
                 = (flat_map (obs_events fault) before
                      ++ fst (try_body fault x), Some e)).
  { rewrite (main_loop_prefix fault before (x :: after) [] Hexc).
    cbn [main_loop app].
    destruct (try_body fault x) as [evs r]. cbn in Hx. subst r.
    rewrite He. reflexivity. }
  rewrite Hrun. cbn [fst]. split; [reflexivity | split].
  - rewrite started_app, started_obs_events. f_equal.
    destruct (try_body_cases fault x)
      as [Hok | (e' & st & evs & Hfail & _ & [-> | ->])];
      [rewrite Hok | rewrite Hfail | rewrite Hfail]; reflexivity.
  - rewrite logged_error_app.
    assert (Hx0 : logged_error (fst (try_body fault x)) = []).
    { destruct (try_body_cases fault x)
        as [Hok | (e' & st & evs & Hfail & _ & [-> | ->])];
        [rewrite Hok | rewrite Hfail | rewrite Hfail]; reflexivity. }
    rewrite Hx0, app_nil_r.
    clear. induction before as [| obs l IH]; [reflexivity |].
    cbn [flat_map filter]. rewrite logged_error_app, IH.
    unfold obs_events, raises.
    destruct (try_body_cases fault obs)
      as [Hok | (e' & st & evs & Hfail & _ & [-> | ->])];
      [rewrite Hok | rewrite Hfail | rewrite Hfail]; reflexivity.
Qed.

Lemma main_loop_aborts_witness :
  let fault := fun (obs : string) (st : stage) =>
                 if String.eqb obs "obs_b"
                 then match st with
                      | Build => Some KeyboardInterrupt
                      | _ => None
                      end
                 else None in
  main_loop fault ["obs_a"; "obs_b"; "obs_c"]%string []
  = ([EvGetMeta "obs_a"; EvSave "obs_a"; EvAddEntry "obs_a";
      EvLogSaved "obs_a"; EvGetMeta "obs_b"], Some KeyboardInterrupt).
Proof.
  intros fault.
  apply (proj1 (main_loop_aborts fault ["obs_a"%string] ["obs_c"%string]
                  "obs_b" KeyboardInterrupt
                  ltac:(intros obs st e' [<- | []]; discriminate)
                  eq_refl eq_refl)).
Defined.

Lemma saved_app t u : saved (t ++ u) = saved t ++ saved u.
Proof.
  induction t as [| e t IH]; [reflexivity |].
  destruct e; simpl; rewrite IH; reflexivity.
Qed.

Lemma indexed_app t u : indexed (t ++ u) = indexed t ++ indexed u.
Proof.
  induction t as [| e t IH]; [reflexivity |].
  destruct e; simpl; rewrite IH; reflexivity.
Qed.

Lemma saved_obs_events fault l :
  saved (flat_map (obs_events fault) l) = filter (gets_saved fault) l.
Proof.
  induction l as [| obs l IH]; [reflexivity |].
  cbn [flat_map filter]. rewrite saved_app, IH.
  unfold obs_events, try_body, gets_saved.
  destruct (fault obs Resolve), (fault obs Build), (fault obs Save),
    (fault obs Index); reflexivity.
Qed.

Lemma indexed_obs_events fault l :
  indexed (flat_map (obs_events fault) l)
  = filter (fun o => negb (raises fault o)) l.
Proof.
  induction l as [| obs l IH]; [reflexivity |].
  cbn [flat_map filter]. rewrite indexed_app, IH.
  unfold obs_events, raises, try_body.
  destruct (fault obs Resolve), (fault obs Build), (fault obs Save),
    (fault obs Index); reflexivity.
Qed.

(** X12. A save is not undone.  When nothing but [Exception]s is
    raised, the whole run is the events of the observations one after
    the other; the groups written by [hkman.save] are those of the
    observations that got through lookup, assembly and save, and the
    entries added to the index are those of the observations that
    raised nothing.  So an observation that fails at
    [man_db.add_entry] has its group in the file and no entry in the
    index. *)
Theorem save_is_not_undone (fault : string -> stage -> option exn)
        (obs_list : list string) :
  (forall obs st e, In obs obs_list -> fault obs st = Some e ->
                    is_Exception e = true) ->
  let t := fst (main_loop fault obs_list []) in
  main_loop fault obs_list [] = (flat_map (obs_events fault) obs_list, None) /\
  saved t = filter (gets_saved fault) obs_list /\
  indexed t = filter (fun o => negb (raises fault o)) obs_list /\
  (forall o, In o obs_list ->
     gets_saved fault o = true -> fault o Index <> None ->
     In o (saved t) /\ ~ In o (indexed t)).
Proof.
  intros Hexc t.
  assert (Hrun : main_loop fault obs_list []
                 = (flat_map (obs_events fault) obs_list, None)).
  { rewrite <- (app_nil_r obs_list) at 1.
    rewrite (main_loop_prefix fault obs_list [] [] Hexc). reflexivity. }
  subst t. rewrite Hrun. cbn [fst].
  rewrite saved_obs_events, indexed_obs_events.
  repeat split; try reflexivity.
  - apply filter_In. split; assumption.
  - intros Hin. apply filter_In in Hin. destruct Hin as [_ Hno].
    unfold raises, try_body, gets_saved in *.
    destruct (fault o Resolve), (fault o Build), (fault o Save),
      (fault o Index); try discriminate; congruence.
Qed.

Lemma save_is_not_undone_witness :
  let fault := fun (obs : string) (st : stage) =>
                 if String.eqb obs "obs_b"
                 then match st with
                      | Index => Some (OtherException "duplicate entry")
                      | _ => None
                      end
                 else None in
  let t := fst (main_loop fault ["obs_a"; "obs_b"]%string []) in
  saved t = ["obs_a"; "obs_b"]%string /\ indexed t = ["obs_a"%string].
Proof.
  intros fault t.
  destruct (save_is_not_undone fault ["obs_a"; "obs_b"]%string)
    as (_ & Hs & Hi & _).
  - intros obs st e _. unfold fault.
    destruct (String.eqb obs "obs_b"); [| discriminate].
    destruct st; try discriminate.
    intros H. injection H as <-. reflexivity.
  - split; [exact Hs | exact Hi].
Defined.

(* ------------------------------------------------------------------ *)
(** ** The fields wrapped for one observation *)

Lemma data_fields_of_length fs dfs :
  data_fields_of fs = Ok dfs -> List.length dfs = List.length fs.
Proof.
  revert dfs. induction fs as [| f fs IH]; intros dfs H; cbn in H.
  - injection H as <-. reflexivity.
  - destruct (data_field_of f) as [df | e |]; cbn in H; try discriminate H.
    destruct (data_fields_of fs) as [dfs' | e |]; cbn in H;
      try discriminate H.
    injection H as <-. cbn. rewrite (IH dfs' eq_refl). reflexivity.
Qed.

Lemma data_fields_of_raises fs f :
  In f fs -> data_field_of f = Raise IndexError ->
  data_fields_of fs = Raise IndexError.
Proof.
  induction fs as [| g fs IH]; intros Hin Hf; [destruct Hin |].
  cbn. destruct Hin as [-> | Hin].
  - rewrite Hf. reflexivity.
  - destruct (data_field_of g) as [df | e |] eqn:Hg; cbn.
    + rewrite (IH Hin Hf). reflexivity.
    + unfold data_field_of in Hg.
      destruct (nth_error (split_on "." g) 1); [discriminate Hg |].
      injection Hg as <-. reflexivity.
    + unfold data_field_of in Hg.
      destruct (nth_error (split_on "." g) 1); discriminate Hg.
Qed.

Lemma split_on_no_sep sep s :
  (forall ch, In ch (list_ascii_of_string s) -> ch <> sep) ->
  split_on sep s = [s].
Proof.
  induction s as [| ch s IH]; intros Hno; [reflexivity |].
  cbn [split_on].
  destruct (Ascii.eqb_spec ch sep) as [-> | Hne].
  - exfalso. apply (Hno sep); [left; reflexivity | reflexivity].
  - rewrite IH; [reflexivity |].
    intros c Hc. apply Hno. right. exact Hc.
Qed.

Lemma wrap_loop_length dfs :
  forall items i n, List.length (wrap_loop dfs i n items) = List.length items.
Proof.
  induction items as [| [[f df] al] items IH]; intros i n; [reflexivity |].
  cbn [wrap_loop List.length]. rewrite IH. reflexivity.
Qed.

Lemma zip3_length a :
  forall b c, List.length b = List.length a ->
    List.length (zip3 a b c) = Nat.min (List.length a) (List.length c).
Proof.
  induction a as [| x a IH]; intros b c Hb; [reflexivity |].
  destruct b as [| y b]; [discriminate Hb |].
  destruct c as [| z c]; [reflexivity |].
  cbn [zip3 List.length]. rewrite IH by (cbn in Hb; lia). reflexivity.
Qed.

(** X13. A field name without a dot stops the observation before
    anything is wrapped, and the aliases bound the number of wraps.  If
    one of the configured fields has no ['.'] in it, line 166 raises
    [IndexError] and no [hkman.wrap] of lines 168-172 is made;
    otherwise the number of wraps is the smaller of the numbers of
    fields and of aliases, so fields beyond the last alias are left out
    without a word. *)
Theorem wraps_count_and_failure (full_fields aliases : list string) :
  (forall f, In f full_fields ->
     (forall ch, In ch (list_ascii_of_string f) -> ch <> "."%char) ->
     wraps full_fields aliases = Raise IndexError) /\
  (forall ws, wraps full_fields aliases = Ok ws ->
     List.length ws
     = Nat.min (List.length full_fields) (List.length aliases)).
Proof.
  split.
  - intros f Hin Hno. unfold wraps.
    rewrite (data_fields_of_raises full_fields f Hin); [reflexivity |].
    unfold data_field_of. rewrite (split_on_no_sep _ _ Hno). reflexivity.
  - intros ws H. unfold wraps in H.
    destruct (data_fields_of full_fields) as [dfs | e |] eqn:Hdfs;
      cbn in H; try discriminate H.
    injection H as <-.
    rewrite wrap_loop_length.
    apply zip3_length. apply (data_fields_of_length _ _ Hdfs).
Qed.

Lemma wraps_count_and_failure_witness :
  wraps ["observatory.az.position"; "el"]%string ["az"; "el"]%string
  = Raise IndexError /\
  List.length [mkWrap "az" "az" 0]
  = Nat.min (List.length ["observatory.az.position"; "obs.el.pos"]%string)
            (List.length ["az"%string]).
Proof.
  pose proof (wraps_count_and_failure
                ["observatory.az.position"; "el"]%string
                ["az"; "el"]%string) as [Hfail _].
  pose proof (wraps_count_and_failure
                ["observatory.az.position"; "obs.el.pos"]%string
                ["az"%string]) as [_ Hcount].
  split.
  - apply (Hfail "el"%string); [right; left; reflexivity |].
    intros ch [<- | [<- | []]]; discriminate.
  - apply Hcount. reflexivity.
Defined.

Lemma zip3_data_field a :
  forall b c j f df al,
    nth_error (zip3 a b c) j = Some (f, df, al) ->
    nth j b EmptyString = df.
Proof.
  induction a as [| x a IH]; intros b c j f df al H; [destruct j; discriminate H |].
  destruct b as [| y b]; [destruct j; discriminate H |].
  destruct c as [| z c]; [destruct j; discriminate H |].
  destruct j as [| j]; cbn in H |- *.
  - injection H as _ <- _. reflexivity.
  - apply (IH b c j f df al H).
Qed.

Lemma some_inj {A} (a b : A) : Some a = Some b -> a = b.
Proof. intros H. injection H as H. exact H. Qed.

Lemma wrap_loop_cons dfs i n f df al rest :
  wrap_loop dfs i n ((f, df, al) :: rest)
  = mkWrap al df
           (Z.of_nat i
            - (if (0 <? i)%nat
               then n + (if String.eqb (nth (i - 1) dfs EmptyString) df
                         then 0 else 1)
               else n))
    :: wrap_loop dfs (S i)
         (if (0 <? i)%nat
          then n + (if String.eqb (nth (i - 1) dfs EmptyString) df
                    then 0 else 1)
          else n)
         rest.
Proof. reflexivity. Qed.

Lemma wrap_loop_step dfs :
  forall items i n,
    (forall j f df al, nth_error items j = Some (f, df, al) ->
                       nth (i + j) dfs EmptyString = df) ->
    forall k w w',
      nth_error (wrap_loop dfs i n items) k = Some w ->
      nth_error (wrap_loop dfs i n items) (S k) = Some w' ->
      w_index w'
      = w_index w
        + (if String.eqb (w_data_field w) (w_data_field w') then 1 else 0).
Proof.
  induction items as [| [[f0 df0] al0] items IH]; intros i n Hdf k w w' Hk Hk';
    [destruct k; discriminate Hk |].
  rewrite wrap_loop_cons in Hk, Hk'.
  set (n0 := if (0 <? i)%nat
             then n + (if String.eqb (nth (i - 1) dfs EmptyString) df0
                       then 0 else 1)
             else n) in *.
  destruct k as [| k].
  - assert (Hw : w = mkWrap al0 df0 (Z.of_nat i - n0))
      by (apply some_inj; symmetry; exact Hk).
    destruct items as [| [[f1 df1] al1] items]; [discriminate Hk' |].
    rewrite wrap_loop_cons in Hk'.
    assert (Hw' : w' = mkWrap al1 df1
                         (Z.of_nat (S i)
                          - (n0 + (if String.eqb (nth (S i - 1) dfs EmptyString)
                                                 df1
                                   then 0 else 1))))
      by (apply some_inj; symmetry; exact Hk').
    subst w w'. unfold w_index, w_data_field.
    replace (S i - 1)%nat with i by lia.
    pose proof (Hdf 0%nat f0 df0 al0 eq_refl) as H0.
    rewrite Nat.add_0_r in H0. rewrite H0.
    rewrite Nat2Z.inj_succ.
    destruct (String.eqb df0 df1); lia.
  - cbn [nth_error] in Hk, Hk'.
    apply (IH (S i) n0
              ltac:(intros j f df al Hj;
                    replace (S i + j)%nat with (i + S j)%nat by lia;
                    apply (Hdf (S j) f df al Hj))
              k w w' Hk Hk').
Qed.

(** X14. The index [i_in_same_field] counts repeats and is never
    reset.  In the wraps of one observation the first index is 0; from
    one wrap to the next the index grows by one when the two fields
    have the same [data_field] and stays the same when the
    [data_field] changes.  So it is the position of the field within
    its [data_field] only as long as every earlier [data_field] had a
    single field: for the data fields [a, a, b, b] the indices are
    [0, 1, 1, 2]. *)
Theorem field_index_counts_repeats (full_fields aliases : list string)
        (ws : list wrap_call) :
  wraps full_fields aliases = Ok ws ->
  (forall w, nth_error ws 0 = Some w -> w_index w = 0) /\
  (forall k w w',
     nth_error ws k = Some w -> nth_error ws (S k) = Some w' ->
     w_index w'
     = w_index w
       + (if String.eqb (w_data_field w) (w_data_field w') then 1 else 0)) /\
  map w_index (wrap_loop ["a"; "a"; "b"; "b"]%string 0 0
                 (zip3 ["x.a.1"; "x.a.2"; "x.b.1"; "x.b.2"]%string
                       ["a"; "a"; "b"; "b"]%string
                       ["p"; "q"; "r"; "s"]%string))
  = [0; 1; 1; 2].
Proof.
  intros H. unfold wraps in H.
  destruct (data_fields_of full_fields) as [dfs | e |] eqn:Hdfs;
    cbn in H; try discriminate H.
  injection H as <-. split; [| split; [| reflexivity]].
  - intros w Hw.
    destruct (zip3 full_fields dfs aliases) as [| [[f df] al] items];
      [discriminate Hw |].
    cbn in Hw. injection Hw as <-. reflexivity.
  - apply wrap_loop_step. intros j f df al Hj. cbn [Nat.add].
    apply (zip3_data_field full_fields dfs aliases j f df al Hj).
Qed.

Lemma field_index_counts_repeats_witness :
  w_index (mkWrap "q" "a" 1)
  = w_index (mkWrap "p" "a" 0)
    + (if String.eqb (w_data_field (mkWrap "p" "a" 0))
                     (w_data_field (mkWrap "q" "a" 1)) then 1 else 0) /\
  w_index (mkWrap "r" "b" 1)
  = w_index (mkWrap "q" "a" 1)
    + (if String.eqb (w_data_field (mkWrap "q" "a" 1))
                     (w_data_field (mkWrap "r" "b" 1)) then 1 else 0).
Proof.
  pose proof (proj1 (proj2 (field_index_counts_repeats
                              ["x.a.1"; "x.a.2"; "x.b.1"]%string
                              ["p"; "q"; "r"]%string
                              [mkWrap "p" "a" 0; mkWrap "q" "a" 1;
                               mkWrap "r" "b" 1]
                              eq_refl))) as Hstep.
  split.
  - apply (Hstep 0%nat); reflexivity.
  - apply (Hstep 1%nat); reflexivity.
Defined.

(* ------------------------------------------------------------------ *)
(** ** Paths of an observation *)

Section Paths.

Local Open Scope string_scope.

Lemma join_step_absolute path b :
  starts_with_sep path = true -> starts_with_sep (join_step path b) = true.
Proof.
  intros Habs. unfold join_step.
  destruct (starts_with_sep b) eqn:Hb; [exact Hb |].
  destruct path as [| ch path]; [discriminate Habs |].
  destruct (String.eqb (String ch path) "" || ends_with_sep (String ch path));
    exact Habs.
Qed.

Lemma path_join_absolute p :
  forall a, starts_with_sep a = true -> starts_with_sep (path_join a p) = true.
Proof.
  unfold path_join. induction p as [| b p IH]; intros a Ha; [exact Ha |].
  cbn [fold_left]. apply IH. apply join_step_absolute. exact Ha.
Qed.

Lemma ends_with_sep_app a b :
  b <> "" -> ends_with_sep (a ++ b) = ends_with_sep b.
Proof.
  intros Hb. induction a as [| ch a IH]; [reflexivity |].
  cbn [append ends_with_sep].
  destruct (a ++ b) as [| ch' rest] eqn:Hab.
  - destruct a; cbn in Hab; [contradiction | discriminate Hab].
  - exact IH.
Qed.

Lemma append_nonempty a b : b <> "" -> a ++ b <> "".
Proof. intros Hb. destruct a; [exact Hb | discriminate]. Qed.

(** Appending a plain name [b] to a path: one ['/'] is put between
    them unless the path is empty or ends with one, and the result ends
    as [b] does. *)
Lemma join_step_plain path b :
  b <> "" -> starts_with_sep b = false ->
  (path <> "" -> ends_with_sep path = false ->
   join_step path b = path ++ "/" ++ b) /\
  join_step path b <> "" /\
  ends_with_sep (join_step path b) = ends_with_sep b.
Proof.
  intros Hb Hrel. unfold join_step. rewrite Hrel. split; [| split].
  - intros Hp He. rewrite He.
    destruct path; [contradiction | reflexivity].
  - destruct (String.eqb path "" || ends_with_sep path).
    + apply append_nonempty. exact Hb.
    + apply append_nonempty. discriminate.
  - destruct (String.eqb path "" || ends_with_sep path).
    + apply ends_with_sep_app. exact Hb.
    + rewrite ends_with_sep_app by discriminate.
      apply (ends_with_sep_app "/" b Hb).
Qed.

End Paths.


Section PathTheorems.

Local Open Scope string_scope.

Lemma no_sep_ends s :
  no_sep s = true -> starts_with_sep s = false /\ ends_with_sep s = false.
Proof.
  intros H. split.
  - destruct s as [| ch s]; [reflexivity |]. cbn in H |- *.
    destruct (Ascii.eqb ch "/"); [discriminate H | reflexivity].
  - induction s as [| ch s IH]; [reflexivity |].
    cbn [no_sep] in H. apply andb_prop in H. destruct H as [Hch Hs].
    cbn [ends_with_sep]. destruct s as [| ch' s'].
    + destruct (Ascii.eqb ch "/"); [discriminate Hch | reflexivity].
    + apply IH. exact Hs.
Qed.

Lemma no_sep_substring s :
  no_sep s = true -> forall n, no_sep (substring 0 n s) = true.
Proof.
  induction s as [| ch s IH]; intros H n.
  - destruct n; reflexivity.
  - cbn [no_sep] in H. apply andb_prop in H. destruct H as [Hch Hs].
    destruct n as [| n]; [reflexivity |].
    cbn [substring no_sep]. rewrite Hch, (IH Hs n). reflexivity.
Qed.

Lemma substring_nonempty s n :
  s <> "" -> substring 0 (S n) s <> "".
Proof. intros Hs. destruct s; [contradiction | discriminate]. Qed.

Lemma no_sep_uint d : no_sep (NilEmpty.string_of_uint d) = true.
Proof. induction d; cbn; try rewrite IHd; reflexivity. Qed.

Lemma str_of_int_plain z :
  no_sep (Level3HK.str_of_int z) = true /\ Level3HK.str_of_int z <> "".
Proof.
  unfold Level3HK.str_of_int, NilZero.string_of_int.
  destruct (Z.to_int z) as [d | d]; unfold NilZero.string_of_uint.
  - destruct d; split; try discriminate; try reflexivity;
      cbn [NilEmpty.string_of_uint no_sep]; rewrite no_sep_uint; reflexivity.
  - split; [| discriminate].
    destruct d; cbn [NilEmpty.string_of_uint no_sep]; try reflexivity;
      rewrite no_sep_uint; reflexivity.
Qed.

Lemma query_by_id_single (a : archive) (obs_id : string) (obs : observation) :
  filter (fun o => String.eqb (o_obs_id o) obs_id) (observations a) = [obs] ->
  query_by_id obs_id a = Some obs.
Proof.
  unfold query_by_id. induction (observations a) as [| o l IH]; intros H;
    [discriminate H |].
  cbn [filter find] in H |- *.
  destruct (String.eqb (o_obs_id o) obs_id).
  - injection H as -> _. reflexivity.
  - apply IH. exact H.
Qed.

(** X15. The folder of an observation.  When the table has exactly
    one row for [obs_id], the archive's [meta_path] is not empty and
    does not end with ['/'], and the row's [stream_id] is a plain name
    (not empty, no ['/'] at either end), the folder is
    [<meta_path>/<first five characters of the ctime>/<stream_id>/<ctime>_<action_name>],
    and the session has been opened and closed. *)
Theorem obs_folder_layout (a : archive) (obs_id : string) (obs : observation) :
  filter (fun o => String.eqb (o_obs_id o) obs_id) (observations a) = [obs] ->
  meta_path a <> "" -> ends_with_sep (meta_path a) = false ->
  stream_id obs <> "" ->
  starts_with_sep (stream_id obs) = false ->
  ends_with_sep (stream_id obs) = false ->
  get_obs_folder obs_id a
  = (Ok (meta_path a ++ "/"
         ++ substring 0 5 (Level3HK.str_of_int (action_ctime obs)) ++ "/"
         ++ stream_id obs ++ "/"
         ++ Level3HK.str_of_int (action_ctime obs) ++ "_" ++ action_name obs),
     [DbSessionOpen; DbSessionClose]).
Proof.
  intros Hrow Hmeta Hmeta_end Hstream Hstream_rel Hstream_end.
  unfold get_obs_folder. rewrite (query_by_id_single a obs_id obs Hrow).
  cbn [one].
  f_equal. f_equal. unfold path_join. cbn [fold_left].
  destruct (str_of_int_plain (action_ctime obs)) as [Hplain Hne].
  set (ct := Level3HK.str_of_int (action_ctime obs)) in *.
  pose proof (no_sep_substring ct Hplain 5) as Hc5.
  destruct (no_sep_ends _ Hc5) as [Hc5_rel Hc5_end].
  pose proof (substring_nonempty ct 4 Hne) as Hc5_ne.
  destruct (join_step_plain (meta_path a) (substring 0 5 ct) Hc5_ne Hc5_rel)
    as (H1 & H1ne & H1end).
  rewrite (H1 Hmeta Hmeta_end) in *.
  destruct (join_step_plain (meta_path a ++ "/" ++ substring 0 5 ct)
              (stream_id obs) Hstream Hstream_rel) as (H2 & H2ne & H2end).
  rewrite H2 in * by (assumption || (rewrite H1end; exact Hc5_end)).
  assert (Hlast_ne : ct ++ "_" ++ action_name obs <> "")
    by (destruct ct; [contradiction | discriminate]).
  assert (Hlast_rel : starts_with_sep (ct ++ "_" ++ action_name obs) = false).
  { destruct (no_sep_ends _ Hplain) as [Hrel _].
    destruct ct; [contradiction | exact Hrel]. }
  destruct (join_step_plain
              ((meta_path a ++ "/" ++ substring 0 5 ct) ++ "/" ++ stream_id obs)
              (ct ++ "_" ++ action_name obs) Hlast_ne Hlast_rel)
    as (H3 & _ & _).
  rewrite H3 by (assumption || (rewrite H2end; exact Hstream_end)).
  repeat rewrite append_assoc. reflexivity.
Qed.

Lemma obs_folder_layout_witness :
  get_obs_folder "obs_1700001234"
    (mkArchive "/data/meta"
       [mkObservation "obs_1699999999" 1699999999 "ufm_mv12" "take_noise";
        mkObservation "obs_1700001234" 1700001234 "ufm_mv7" "take_iv"])
  = (Ok "/data/meta/17000/ufm_mv7/1700001234_take_iv",
     [DbSessionOpen; DbSessionClose]).
Proof.
  apply (obs_folder_layout
           (mkArchive "/data/meta"
              [mkObservation "obs_1699999999" 1699999999 "ufm_mv12" "take_noise";
               mkObservation "obs_1700001234" 1700001234 "ufm_mv7" "take_iv"])
           "obs_1700001234"
           (mkObservation "obs_1700001234" 1700001234 "ufm_mv7" "take_iv"));
    reflexivity || discriminate.
Defined.

End PathTheorems.

Section PathResults.

Local Open Scope string_scope.

Variable fs : string -> option node.

(** X16. Absolute in, absolute out.  When the archive's [meta_path]
    is absolute, the folder [get_obs_folder] returns is absolute, and
    so is every path [get_obs_outputs] and [get_obs_plots] return,
    whatever the row and the directory hold. *)
Theorem obs_paths_absolute (a : archive) (obs_id : string) :
  starts_with_sep (meta_path a) = true ->
  (forall p t, get_obs_folder obs_id a = (Ok p, t) ->
               starts_with_sep p = true) /\
  (forall sub l t, get_obs_subfolder fs sub obs_id a = (Ok l, t) ->
                   Forall (fun p => starts_with_sep p = true) l) /\
  (forall l t, get_obs_outputs fs obs_id a = (Ok l, t) ->
               Forall (fun p => starts_with_sep p = true) l) /\
  (forall l t, get_obs_plots fs obs_id a = (Ok l, t) ->
               Forall (fun p => starts_with_sep p = true) l).
Proof.
  intros Habs.
  assert (Hfolder : forall p t, get_obs_folder obs_id a = (Ok p, t) ->
                                starts_with_sep p = true).
  { intros p t H. unfold get_obs_folder in H.
    destruct (one _) as [obs | e |]; try discriminate H.
    injection H as <- _.
    repeat first [apply path_join_absolute | apply join_step_absolute].
    exact Habs. }
  assert (Hsub : forall sub l t,
             get_obs_subfolder fs sub obs_id a = (Ok l, t) ->
             Forall (fun p => starts_with_sep p = true) l).
  { intros sub l t H. unfold get_obs_subfolder in H.
    destruct (get_obs_folder obs_id a) as [[folder | e |] t0] eqn:Hf;
      try discriminate H.
    destruct (negb (exists_path fs (path_join folder [sub])));
      [discriminate H |].
    destruct (listdir fs (path_join folder [sub])) as [files | e |];
      cbn [bind] in H; try discriminate H.
    injection H as <- _.
    apply Forall_forall. intros p Hp.
    apply in_map_iff in Hp. destruct Hp as (f & <- & _).
    repeat first [apply path_join_absolute | apply join_step_absolute].
    apply (Hfolder folder t0 eq_refl). }
  split; [exact Hfolder | split; [exact Hsub | split]].
  - intros l t. apply Hsub.
  - intros l t. apply Hsub.
Qed.

End PathResults.

Lemma obs_paths_absolute_witness :
  let a := mkArchive "/data/meta"
             [mkObservation "obs_1700001234" 1700001234 "ufm_mv7" "take_iv"] in
  let fs := fun p =>
              if String.eqb p
                   "/data/meta/17000/ufm_mv7/1700001234_take_iv/outputs"
              then Some (Dir ["iv.npy"; "log.txt"]%string) else None in
  Forall (fun p => starts_with_sep p = true)
         ["/data/meta/17000/ufm_mv7/1700001234_take_iv/outputs/iv.npy";
          "/data/meta/17000/ufm_mv7/1700001234_take_iv/outputs/log.txt"]%string.
Proof.
  intros a fs.
  apply (proj1 (proj2 (proj2 (obs_paths_absolute fs a "obs_1700001234"
                                eq_refl)))
           _ [DbSessionOpen; DbSessionClose]).
  reflexivity.
Defined.

Section PathFailures.

Local Open Scope string_scope.

Variable fs : string -> option node.

Lemma get_obs_subfolder_lookup_fails sub obs_id a e t :
  get_obs_folder obs_id a = (Raise e, t) ->
  get_obs_subfolder fs sub obs_id a = (Raise e, t).
Proof. intros H. unfold get_obs_subfolder. rewrite H. reflexivity. Qed.

(** X17. How the three functions fail.  When the table has no row for
    [obs_id], [query.one()] raises [NoResultFound] and
    [session.close()] is never reached: the session stays open, in
    [get_obs_folder] and in the two functions that call it.  When the
    folder is found but its [outputs] (or [plots]) directory does not
    exist, the function does not log and list: building the log message
    reads an unbound [obs] and raises [NameError].  When the path is a
    file, [os.listdir] raises [NotADirectoryError]. *)
Theorem obs_paths_failures (a : archive) (obs_id : string) :
  (filter (fun o => String.eqb (o_obs_id o) obs_id) (observations a) = [] ->
   get_obs_folder obs_id a = (Raise NoResultFound, [DbSessionOpen]) /\
   get_obs_outputs fs obs_id a = (Raise NoResultFound, [DbSessionOpen]) /\
   get_obs_plots fs obs_id a = (Raise NoResultFound, [DbSessionOpen])) /\
  (forall folder t sub,
     get_obs_folder obs_id a = (Ok folder, t) ->
     (fs (path_join folder [sub]) = None ->
      get_obs_subfolder fs sub obs_id a = (Raise NameError, t)) /\
     (fs (path_join folder [sub]) = Some File ->
      get_obs_subfolder fs sub obs_id a = (Raise NotADirectoryError, t))).
Proof.
  split.
  - intros Hnone.
    assert (Hf : get_obs_folder obs_id a
                 = (Raise NoResultFound, [DbSessionOpen])).
    { unfold get_obs_folder, query_by_id.
      assert (Hfind : find (fun o => String.eqb (o_obs_id o) obs_id)
                           (observations a) = None).
      { induction (observations a) as [| o l IH]; [reflexivity |].
        cbn [filter find] in Hnone |- *.
        destruct (String.eqb (o_obs_id o) obs_id);
          [discriminate Hnone | apply IH; exact Hnone]. }
      rewrite Hfind. reflexivity. }
    split; [exact Hf | split];
      apply get_obs_subfolder_lookup_fails; exact Hf.
  - intros folder t sub Hf. unfold get_obs_subfolder, exists_path, listdir.
    rewrite Hf. split; intros Hfs; rewrite Hfs; reflexivity.
Qed.

Lemma join_step_relative path b :
  starts_with_sep b = false -> path <> "" -> ends_with_sep path = false ->
  join_step path b = path ++ "/" ++ b.
Proof.
  intros Hb Hp He. unfold join_step. rewrite Hb, He.
  destruct path; [contradiction | reflexivity].
Qed.

(** X18. The listing.  When the folder is found and its [outputs]
    (or [plots]) directory exists, the function returns one path for
    each entry of the directory, in the order [os.listdir] gives them,
    each being the directory, a ['/'] and the entry. *)
Theorem obs_subfolder_listing (a : archive) (obs_id folder sub : string)
        (t : list db_event) (entries : list string) :
  sub <> "" -> starts_with_sep sub = false -> ends_with_sep sub = false ->
  get_obs_folder obs_id a = (Ok folder, t) ->
  fs (path_join folder [sub]) = Some (Dir entries) ->
  Forall (fun f => starts_with_sep f = false) entries ->
  get_obs_subfolder fs sub obs_id a
  = (Ok (map (fun f => path_join folder [sub] ++ "/" ++ f) entries), t).
Proof.
  intros Hsub Hrel Hend Hf Hfs Hentries.
  unfold get_obs_subfolder, exists_path, listdir. rewrite Hf, Hfs.
  cbn [negb bind]. f_equal. f_equal.
  apply map_ext_in. intros f Hin.
  unfold path_join at 1. cbn [fold_left].
  destruct (join_step_plain folder sub Hsub Hrel) as (_ & Hne & Hends).
  apply join_step_relative.
  - apply (proj1 (Forall_forall _ _) Hentries f Hin).
  - exact Hne.
  - unfold path_join. cbn [fold_left]. rewrite Hends. exact Hend.
Qed.

End PathFailures.

Lemma obs_paths_failures_witness :
  get_obs_outputs (fun _ => None) "obs_1700009999"
    (mkArchive "/data/meta"
       [mkObservation "obs_1700001234" 1700001234 "ufm_mv7" "take_iv"])
  = (Raise NoResultFound, [DbSessionOpen]) /\
  get_obs_subfolder (fun _ => None) "outputs" "obs_1700001234"
    (mkArchive "/data/meta"
       [mkObservation "obs_1700001234" 1700001234 "ufm_mv7" "take_iv"])
  = (Raise NameError, [DbSessionOpen; DbSessionClose]).
Proof.
  split.
  - apply (proj1 (obs_paths_failures (fun _ => None)
                    (mkArchive "/data/meta"
                       [mkObservation "obs_1700001234" 1700001234 "ufm_mv7"
                                      "take_iv"])
                    "obs_1700009999")).
    reflexivity.
  - apply (proj2 (obs_paths_failures (fun _ => None)
                    (mkArchive "/data/meta"
                       [mkObservation "obs_1700001234" 1700001234 "ufm_mv7"
                                      "take_iv"])
                    "obs_1700001234")
                 "/data/meta/17000/ufm_mv7/1700001234_take_iv"%string
                 [DbSessionOpen; DbSessionClose] "outputs"%string eq_refl);
      reflexivity.
Defined.

Lemma obs_subfolder_listing_witness :
  let a := mkArchive "/data/meta"
             [mkObservation "obs_1700001234" 1700001234 "ufm_mv7" "take_iv"] in
  let fs := fun p =>
              if String.eqb p
                   "/data/meta/17000/ufm_mv7/1700001234_take_iv/plots"
              then Some (Dir ["iv.png"; "noise.png"]%string) else None in
  get_obs_plots fs "obs_1700001234" a
  = (Ok ["/data/meta/17000/ufm_mv7/1700001234_take_iv/plots/iv.png";
         "/data/meta/17000/ufm_mv7/1700001234_take_iv/plots/noise.png"]%string,
     [DbSessionOpen; DbSessionClose]).
Proof.
  intros a fs.
  apply (obs_subfolder_listing fs a "obs_1700001234"
           "/data/meta/17000/ufm_mv7/1700001234_take_iv" "plots"
           [DbSessionOpen; DbSessionClose] ["iv.png"; "noise.png"]%string);
    try reflexivity; try discriminate.
  repeat constructor.
Defined.

(* ------------------------------------------------------------------ *)
(** ** [replace_none] and the detector map *)

Section DetMapTheorems.

Variable f8 : Type.
Variable isnan : f8 -> bool.
Variable nan zero : f8.
Variable radians : f8 -> f8.
Variable eq_int : Z -> f8 -> bool.
Variable fmt : f8 -> string.
Variable int_of_float : f8 -> option Z.
Variable float_of_int : Z -> option f8.
Variable float_of_str : string -> option f8.
Variable int_of_str : string -> option Z.

Local Abbreviation replace_none := (replace_none f8 isnan).
Local Abbreviation np_isnan := (np_isnan f8 isnan).
Local Abbreviation is_str := (is_str f8).

Lemma replace_none_numeric (val : value f8) (dtype : pytype)
      (replace_val : value f8) :
  dtype = TFloat \/ dtype = TInt ->
  replace_none val dtype replace_val
  = match val with
    | VStr _ => Raise TypeError
    | VFloat x => if isnan x then Ok replace_val else Ok val
    | VInt n => if fits_64_bits n then Ok val else Raise TypeError
    end.
Proof.
  intros [-> | ->]; destruct val as [s | x | n];
    unfold DetMap.replace_none, DetMap.np_isnan; cbn [bind];
    try reflexivity; destruct (fits_64_bits n); reflexivity.
Qed.

(** X19. [replace_none], case by case.  It raises, a [TypeError],
    exactly when [dtype] is [float] or [int] and the value is one
    [np.isnan] is not defined on: a string, or an integer that does not
    fit 64 bits.  Otherwise it returns the replacement or the value
    itself, and what it returns for [dtype = str] is ["null"] or ["NC"]
    only if the replacement is, and for a numeric [dtype] is a NaN only
    if the replacement is.  Applying it again to its result changes
    nothing, as long as that second call does not meet, under a numeric
    [dtype], a replacement [np.isnan] is not defined on. *)
Theorem replace_none_cases (val : value f8) (dtype : pytype)
        (replace_val : value f8) :
  (replace_none val dtype replace_val = Raise TypeError <->
   (dtype = TFloat \/ dtype = TInt) /\
   ((exists s, val = VStr s) \/
    (exists n, val = VInt n /\ fits_64_bits n = false))) /\
  (forall e, replace_none val dtype replace_val = Raise e -> e = TypeError) /\
  replace_none val dtype replace_val <> OutOfFuel /\
  (forall w, replace_none val dtype replace_val = Ok w ->
     (w = replace_val \/ w = val) /\
     (dtype = TStr -> w <> replace_val ->
      is_str w "null" = false /\ is_str w "NC" = false) /\
     (dtype = TFloat \/ dtype = TInt -> w <> replace_val ->
      np_isnan w = Ok false) /\
     (np_isnan replace_val <> Raise TypeError \/ dtype = TStr \/ dtype = TOther ->
      replace_none w dtype replace_val = Ok w)).
Proof.
  assert (Hnum : (dtype = TFloat \/ dtype = TInt)
                 \/ dtype = TStr \/ dtype = TOther)
    by (destruct dtype; auto).
  destruct Hnum as [Hd' | [-> | ->]];
    [rewrite (replace_none_numeric val dtype replace_val Hd');
     destruct val as [s | x | n] | |].
  - (* a string under a numeric dtype *)
    split; [| split; [| split]].
    + split; [intros _; split; [exact Hd' | left; exists s; reflexivity]
             | reflexivity].
    + intros e H. injection H as <-. reflexivity.
    + discriminate.
    + intros w H. discriminate H.
  - (* a double under a numeric dtype *)
    destruct (isnan x) eqn:Hx.
    + split; [| split; [| split]].
      * split; [intros H; discriminate H |].
        intros [_ [[s Hs] | [n [Hn _]]]]; discriminate.
      * intros e H. discriminate H.
      * discriminate.
      * intros w H. injection H as <-.
        split; [left; reflexivity |].
        split; [intros Hs; destruct Hd' as [Hd | Hd]; rewrite Hd in Hs;
                discriminate Hs |].
        split; [intros _ Hne; contradiction |].
        intros [Hr | [Hs | Hs]];
          try (destruct Hd' as [Hd | Hd]; rewrite Hd in Hs; discriminate Hs).
        rewrite (replace_none_numeric replace_val dtype replace_val Hd').
        destruct replace_val as [s | y | n]; unfold DetMap.np_isnan in Hr.
        -- contradiction.
        -- destruct (isnan y); reflexivity.
        -- destruct (fits_64_bits n); [reflexivity | contradiction].
    + split; [| split; [| split]].
      * split; [intros H; discriminate H |].
        intros [_ [[s Hs] | [n [Hn _]]]]; discriminate.
      * intros e H. discriminate H.
      * discriminate.
      * intros w H. injection H as <-.
        split; [right; reflexivity |].
        split; [intros Hs; destruct Hd' as [Hd | Hd]; rewrite Hd in Hs;
                discriminate Hs |].
        split; [intros _ _; unfold DetMap.np_isnan; rewrite Hx; reflexivity |].
        intros _.
        rewrite (replace_none_numeric (VFloat x) dtype replace_val Hd').
        rewrite Hx. reflexivity.
  - (* an integer under a numeric dtype *)
    destruct (fits_64_bits n) eqn:Hn.
    + split; [| split; [| split]].
      * split; [intros H; discriminate H |].
        intros [_ [[s Hs] | [m [Hm Hfit]]]]; [discriminate Hs |].
        injection Hm as <-. rewrite Hn in Hfit. discriminate Hfit.
      * intros e H. discriminate H.
      * discriminate.
      * intros w H. injection H as <-.
        split; [right; reflexivity |].
        split; [intros Hs; destruct Hd' as [Hd | Hd]; rewrite Hd in Hs;
                discriminate Hs |].
        split; [intros _ _; unfold DetMap.np_isnan; rewrite Hn; reflexivity |].
        intros _.
        rewrite (replace_none_numeric (VInt n) dtype replace_val Hd').
        rewrite Hn. reflexivity.
    + split; [| split; [| split]].
      * split; [intros _; split; [exact Hd' |]; right; exists n; split;
                [reflexivity | exact Hn]
               | reflexivity].
      * intros e H. injection H as <-. reflexivity.
      * discriminate.
      * intros w H. discriminate H.
  - (* dtype = str *)
    unfold DetMap.replace_none.
    destruct (is_str val "null" || is_str val "NC") eqn:Hm.
    + split; [| split; [| split]].
      * split; [intros H; discriminate H |].
        intros [[Hd | Hd] _]; discriminate Hd.
      * intros e H. discriminate H.
      * discriminate.
      * intros w H. injection H as <-.
        split; [left; reflexivity |].
        split; [intros _ Hne; contradiction |].
        split; [intros [Hd | Hd]; discriminate Hd |].
        intros _.
        destruct (is_str replace_val "null" || is_str replace_val "NC");
          reflexivity.
    + split; [| split; [| split]].
      * split; [intros H; discriminate H |].
        intros [[Hd | Hd] _]; discriminate Hd.
      * intros e H. discriminate H.
      * discriminate.
      * intros w H. injection H as <-.
        split; [right; reflexivity |].
        split; [intros _ _; apply orb_false_elim in Hm; exact Hm |].
        split; [intros [Hd | Hd]; discriminate Hd |].
        intros _. rewrite Hm. reflexivity.
  - (* any other dtype *)
    unfold DetMap.replace_none.
    split; [| split; [| split]].
    + split; [intros H; discriminate H |].
      intros [[Hd | Hd] _]; discriminate Hd.
    + intros e H. discriminate H.
    + discriminate.
    + intros w H. injection H as <-.
      split; [right; reflexivity |].
      split; [intros Hd; discriminate Hd |].
      split; [intros [Hd | Hd]; discriminate Hd |].
      intros _. reflexivity.
Qed.

Local Abbreviation fill :=
  (fill f8 isnan nan radians fmt int_of_float float_of_int float_of_str
        int_of_str).
Local Abbreviation matching := (matching f8 eq_int).
Local Abbreviation detmap_loop :=
  (detmap_loop f8 isnan nan radians eq_int fmt int_of_float float_of_int
               float_of_str int_of_str).
Local Abbreviation detmap_entries :=
  (detmap_entries f8 isnan nan zero radians eq_int fmt int_of_float
                  float_of_int float_of_str int_of_str).
Local Abbreviation entry_for := (entry_of isnan nan radians int_of_float).
Local Abbreviation blank := (blank f8 zero).
Local Abbreviation det_id_of :=
  (fun r : detmap_row f8 => substring 0 50 (detector_id f8 r)).

Lemma replace_none_float (x : f8) :
  replace_none (VFloat x) TFloat (VFloat nan)
  = Ok (VFloat (if isnan x then nan else x)).
Proof.
  unfold DetMap.replace_none, DetMap.np_isnan. cbn [bind].
  destruct (isnan x); reflexivity.
Qed.

Lemma replace_none_int (x : f8) :
  replace_none (VFloat x) TInt (VInt (-1))
  = Ok (if isnan x then VInt (-1) else VFloat x).
Proof.
  unfold DetMap.replace_none, DetMap.np_isnan. cbn [bind].
  destruct (isnan x); reflexivity.
Qed.

Lemma replace_none_str (s : string) :
  replace_none (VStr s) TStr (VStr "NC") = Ok (VStr (or_nc s)).
Proof.
  unfold DetMap.replace_none, DetMap.is_str, or_nc.
  destruct (String.eqb s "null" || String.eqb s "NC"); reflexivity.
Qed.

Lemma store_int_col (x : f8) :
  store_int f8 isnan int_of_float int_of_str
            (if isnan x then VInt (-1) else VFloat x)
  = match int_col isnan int_of_float x with
    | Some n => Ok n
    | None => Raise OverflowError
    end.
Proof.
  unfold int_col.
  destruct (isnan x) eqn:Hx; cbn [DetMap.store_int].
  - reflexivity.
  - rewrite Hx. unfold to_int64.
    destruct (int_of_float x) as [n |]; [| reflexivity].
    destruct (fits_int64 n); reflexivity.
Qed.

Lemma fill_entry (r : detmap_row f8) :
  fill r = match entry_for r with
           | Some e => Ok e
           | None => Raise OverflowError
           end.
Proof.
  unfold DetMap.fill, entry_of.
  rewrite !replace_none_str, !replace_none_float, !replace_none_int.
  cbn [bind DetMap.store_float].
  rewrite !store_int_col.
  destruct (int_col isnan int_of_float (det_row f8 r)) as [row |];
    cbn [bind]; [| reflexivity].
  destruct (int_col isnan int_of_float (det_col f8 r)) as [col |];
    cbn [bind]; [| reflexivity].
  unfold DetMap.store_str, DetMap.is_str, f_prefixed, str_of_value.
  destruct (String.eqb (or_nc (bandpass f8 r)) "NC") eqn:Hbp;
    cbn [negb];
    [apply String.eqb_eq in Hbp; rewrite Hbp; reflexivity |].
  unfold or_nc in Hbp |- *.
  destruct (String.eqb (bandpass f8 r) "null"
            || String.eqb (bandpass f8 r) "NC"); [discriminate Hbp |].
  reflexivity.
Qed.

Lemma set_nth_length {A} (v : A) :
  forall xs i, List.length (set_nth i v xs) = List.length xs.
Proof.
  induction xs as [| x xs IH]; intros i; [destruct i; reflexivity |].
  destruct i; cbn; [| rewrite IH]; reflexivity.
Qed.

Lemma set_nth_same {A} (v : A) :
  forall xs i, (i < List.length xs)%nat ->
    nth_error (set_nth i v xs) i = Some v.
Proof.
  induction xs as [| x xs IH]; intros i Hi; [cbn in Hi; lia |].
  destruct i; cbn; [reflexivity |]. apply IH. cbn in Hi. lia.
Qed.

Lemma set_nth_other {A} (v : A) :
  forall xs i j, i <> j ->
    nth_error (set_nth i v xs) j = nth_error xs j.
Proof.
  induction xs as [| x xs IH]; intros i j Hij; [destruct i; reflexivity |].
  destruct i, j; cbn; try reflexivity; [contradiction |].
  apply IH. lia.
Qed.

Local Abbreviation loop_post :=
  (loop_post isnan nan radians eq_int int_of_float).

Lemma loop_post_skip detmap d dets i ids entries out :
  (forall r, matching d detmap <> [r]) ->
  loop_post detmap dets (S i) ids entries out ->
  loop_post detmap (d :: dets) i ids entries out.
Proof.
  intros Hno (Hlen & Hlow & Hres).
  assert (Hmatch : forall A (a : detmap_row f8 -> A) (b : A),
            match matching d detmap with [r] => a r | _ => b end = b).
  { intros A a b. destruct (matching d detmap) as [| r [| r' rs]];
      try reflexivity. exfalso. apply (Hno r). reflexivity. }
  split; [exact Hlen | split; [intros j Hj; apply Hlow; lia |]].
  destruct (fst out) as [es | e |]; [| | exact Hres].
  - destruct Hres as (Hles & Hlow' & Hhigh).
    split; [exact Hles | split; [intros j Hj; apply Hlow'; lia |]].
    intros j d' Hj. destruct j as [| j]; cbn [nth_error] in Hj.
    + injection Hj as <-. rewrite Nat.add_0_r, !Hmatch.
      split; [apply Hlow' | apply Hlow]; lia.
    + replace (i + S j)%nat with (S i + j)%nat by lia.
      apply Hhigh. exact Hj.
  - destruct Hres as (He & k & dk & rk & Hk & Hmk & Hrk & Hbefore & Hids).
    split; [exact He |].
    exists (S k), dk, rk.
    split; [exact Hk | split; [exact Hmk | split; [exact Hrk | split]]].
    + intros j d' r' Hj Hd' Hm'. destruct j as [| j]; cbn [nth_error] in Hd'.
      * injection Hd' as <-. exfalso. apply (Hno r'). exact Hm'.
      * apply (Hbefore j d' r'); [lia | exact Hd' | exact Hm'].
    + intros j d' Hj. destruct j as [| j]; cbn [nth_error] in Hj.
      * injection Hj as <-. rewrite Nat.add_0_r, Hmatch. apply Hlow. lia.
      * replace (i + S j)%nat with (S i + j)%nat by lia.
        rewrite (Hids j d' Hj). reflexivity.
Qed.

Lemma loop_post_store detmap d r e dets i ids entries out :
  matching d detmap = [r] ->
  entry_for r = Some e ->
  (i < List.length ids)%nat -> (i < List.length entries)%nat ->
  loop_post detmap dets (S i) (set_nth i (det_id_of r) ids)
            (set_nth i e entries) out ->
  loop_post detmap (d :: dets) i ids entries out.
Proof.
  intros Hm He Hi Hi' (Hlen & Hlow & Hres).
  rewrite set_nth_length in Hlen.
  assert (Hlow_i : nth_error (snd out) i = Some (det_id_of r)).
  { rewrite Hlow by lia. apply set_nth_same. exact Hi. }
  split; [exact Hlen | split].
  { intros j Hj. rewrite Hlow by lia. apply set_nth_other. lia. }
  destruct (fst out) as [es | ex |]; [| | exact Hres].
  - destruct Hres as (Hles & Hlow' & Hhigh).
    rewrite set_nth_length in Hles.
    split; [exact Hles | split].
    { intros j Hj. rewrite Hlow' by lia. apply set_nth_other. lia. }
    intros j d' Hj. destruct j as [| j]; cbn [nth_error] in Hj.
    + injection Hj as <-. rewrite Nat.add_0_r, Hm, He.
      split; [| exact Hlow_i].
      rewrite Hlow' by lia. apply set_nth_same. exact Hi'.
    + replace (i + S j)%nat with (S i + j)%nat by lia.
      destruct (Hhigh j d' Hj) as [Hes Hid]. rewrite Hes, Hid.
      rewrite !set_nth_other by lia. split; reflexivity.
  - destruct Hres as (Hex & k & dk & rk & Hk & Hmk & Hrk & Hbefore & Hids).
    split; [exact Hex |].
    exists (S k), dk, rk.
    split; [exact Hk | split; [exact Hmk | split; [exact Hrk | split]]].
    + intros j d' r' Hj Hd' Hm'. destruct j as [| j]; cbn [nth_error] in Hd'.
      * injection Hd' as <-. rewrite Hm in Hm'. injection Hm' as <-.
        rewrite He. discriminate.
      * apply (Hbefore j d' r'); [lia | exact Hd' | exact Hm'].
    + intros j d' Hj. destruct j as [| j]; cbn [nth_error] in Hj.
      * injection Hj as <-. rewrite Nat.add_0_r, Hm. exact Hlow_i.
      * replace (i + S j)%nat with (S i + j)%nat by lia.
        rewrite (Hids j d' Hj).
        rewrite !set_nth_other by lia. reflexivity.
Qed.

Lemma loop_post_raise detmap d r dets i ids entries :
  matching d detmap = [r] ->
  entry_for r = None ->
  (i < List.length ids)%nat ->
  loop_post detmap (d :: dets) i ids entries
            (Raise OverflowError, set_nth i (det_id_of r) ids).
Proof.
  intros Hm He Hi. unfold loop_post. cbn [fst snd].
  split; [apply set_nth_length | split].
  { intros j Hj. apply set_nth_other. lia. }
  split; [reflexivity |].
  exists 0%nat, d, r.
  split; [reflexivity | split; [exact Hm | split; [exact He | split]]].
  - intros j d' r' Hj. lia.
  - intros j d' Hj. destruct j as [| j]; cbn [nth_error] in Hj.
    + injection Hj as <-. rewrite Nat.add_0_r, Hm. cbn [Nat.leb].
      apply set_nth_same. exact Hi.
    + cbn [Nat.leb]. rewrite set_nth_other by lia.
      destruct (matching d' detmap) as [| r' [| r'' rs]]; reflexivity.
Qed.

Lemma detmap_loop_spec (detmap : list (detmap_row f8)) :
  forall dets i ids entries,
    List.length ids = (i + List.length dets)%nat ->
    List.length entries = (i + List.length dets)%nat ->
    loop_post detmap dets i ids entries (detmap_loop detmap dets i ids entries).
Proof.
  induction dets as [| d dets IH]; intros i ids entries Hids Hentries.
  - cbn [DetMap.detmap_loop]. unfold loop_post. cbn [fst snd].
    split; [reflexivity | split; [reflexivity |]].
    split; [reflexivity | split; [reflexivity |]].
    intros j d Hj. destruct j; discriminate Hj.
  - cbn [DetMap.detmap_loop]. cbn [List.length] in Hids, Hentries.
    destruct (matching d detmap) as [| r [| r' rs]] eqn:Hm.
    + apply loop_post_skip; [rewrite Hm; discriminate |].
      apply IH; lia.
    + change (DetMap.store_str f8 fmt 50 (VStr (detector_id f8 r)))
        with (det_id_of r).
      rewrite fill_entry.
      destruct (entry_for r) as [e |] eqn:He.
      * apply (loop_post_store detmap d r e); try assumption; try lia.
        apply IH; rewrite set_nth_length; lia.
      * apply loop_post_raise; try assumption. lia.
    + apply loop_post_skip; [rewrite Hm; discriminate |].
      apply IH; lia.
Qed.

(** X20. Which detectors are mapped, and when the loop of
    [add_detmap_info] fails.  The loop returns exactly when every
    detector whose band and channel match exactly one row of the
    detector map has a row whose [det_row] and [det_col] are NaN or
    have an integer part that fits 64 bits; else it raises
    [OverflowError], at the first detector whose row has not.  When it
    returns there is one entry for each detector.  A detector with
    exactly one row gets that row's [detector_id], cut to 50
    characters, and that row's values: ["null"] and ["NC"] turned into
    ["NC"], a NaN position or angle kept as NaN, a NaN [det_row] or
    [det_col] turned into -1, any other turned into its integer part,
    the bandpass prefixed with ["f"] unless it is ["NC"], and every
    string cut to the four characters of its column.  A detector that
    matches no row, or more than one, keeps what [wrap_new] put there.
    When the loop raises, [det_id] holds the ids of the detectors up to
    the one whose row failed, that one included. *)
Theorem detmap_entries_spec (detmap : list (detmap_row f8))
        (dets : list detector) :
  let out := detmap_entries detmap dets in
  List.length (snd out) = List.length dets /\
  (forall es, fst out = Ok es ->
     List.length es = List.length dets /\
     forall i d, nth_error dets i = Some d ->
       nth_error es i
       = match matching d detmap with
         | [r] => entry_for r
         | _ => Some blank
         end /\
       nth_error (snd out) i
       = Some (match matching d detmap with
               | [r] => substring 0 50 (detector_id f8 r)
               | _ => ""%string
               end)) /\
  (forall e, fst out = Raise e ->
     e = OverflowError /\
     exists k d r,
       nth_error dets k = Some d /\ matching d detmap = [r] /\
       entry_for r = None /\
       (forall j d' r', (j < k)%nat -> nth_error dets j = Some d' ->
          matching d' detmap = [r'] -> entry_for r' <> None) /\
       forall j d', nth_error dets j = Some d' ->
         nth_error (snd out) j
         = Some (match matching d' detmap with
                 | [r'] => if (j <=? k)%nat
                           then substring 0 50 (detector_id f8 r')
                           else ""%string
                 | _ => ""%string
                 end)) /\
  fst out <> OutOfFuel /\
  ((forall d r, In d dets -> matching d detmap = [r] -> entry_for r <> None)
   <-> exists es, fst out = Ok es).
Proof.
  intros out.
  pose proof (detmap_loop_spec detmap dets 0
                (map (fun _ => ""%string) dets) (map (fun _ => blank) dets)
                ltac:(rewrite length_map; reflexivity)
                ltac:(rewrite length_map; reflexivity)) as Hpost.
  change (DetMap.detmap_loop f8 isnan nan radians eq_int fmt int_of_float
            float_of_int float_of_str int_of_str detmap dets 0
            (map (fun _ => ""%string) dets) (map (fun _ => blank) dets))
    with out in Hpost.
  destruct Hpost as (Hlen & _ & Hres).
  rewrite length_map in Hlen.
  assert (Hok : forall es, fst out = Ok es ->
            List.length es = List.length dets /\
            forall i d, nth_error dets i = Some d ->
              nth_error es i
              = match matching d detmap with
                | [r] => entry_for r
                | _ => Some blank
                end /\
              nth_error (snd out) i
              = Some (match matching d detmap with
                      | [r] => substring 0 50 (detector_id f8 r)
                      | _ => ""%string
                      end)).
  { intros es Hes. rewrite Hes in Hres.
    destruct Hres as (Hles & _ & Hhigh).
    rewrite length_map in Hles. split; [exact Hles |].
    intros i d Hi. destruct (Hhigh i d Hi) as [H1 H2].
    cbn [Nat.add] in H1, H2. rewrite H1, H2.
    rewrite !nth_error_map, Hi. cbn [option_map].
    destruct (matching d detmap) as [| r [| r' rs]]; split; reflexivity. }
  assert (Hraise : forall e, fst out = Raise e ->
            e = OverflowError /\
            exists k d r,
              nth_error dets k = Some d /\ matching d detmap = [r] /\
              entry_for r = None /\
              (forall j d' r', (j < k)%nat -> nth_error dets j = Some d' ->
                 matching d' detmap = [r'] -> entry_for r' <> None) /\
              forall j d', nth_error dets j = Some d' ->
                nth_error (snd out) j
                = Some (match matching d' detmap with
                        | [r'] => if (j <=? k)%nat
                                  then substring 0 50 (detector_id f8 r')
                                  else ""%string
                        | _ => ""%string
                        end)).
  { intros e He. rewrite He in Hres.
    destruct Hres as (Hex & k & dk & rk & Hk & Hmk & Hrk & Hbefore & Hids).
    split; [exact Hex |].
    exists k, dk, rk.
    split; [exact Hk | split; [exact Hmk | split; [exact Hrk | split]]];
      [exact Hbefore |].
    intros j d' Hj. specialize (Hids j d' Hj). cbn [Nat.add] in Hids.
    rewrite Hids. rewrite !nth_error_map, Hj. cbn [option_map].
    destruct (matching d' detmap) as [| r' [| r'' rs]]; try reflexivity.
    destruct (j <=? k)%nat; reflexivity. }
  split; [exact Hlen | split; [exact Hok | split; [exact Hraise | split]]].
  - intros Hfuel. rewrite Hfuel in Hres. exact Hres.
  - split.
    + intros Hall. destruct (fst out) as [es | e |] eqn:Hout.
      * exists es. reflexivity.
      * exfalso.
        destruct (Hraise e eq_refl) as (_ & k & dk & rk & Hk & Hmk & Hrk & _).
        apply (Hall dk rk); [| exact Hmk | exact Hrk].
        apply nth_error_In with (n := k). exact Hk.
      * contradiction.
    + intros [es Hes] d r Hin Hm Hnone.
      destruct (In_nth_error _ _ Hin) as [i Hi].
      destruct (Hok es Hes) as [Hles Hnth].
      destruct (Hnth i d Hi) as [Hentry _].
      rewrite Hm, Hnone in Hentry.
      apply nth_error_None in Hentry.
      assert (i < List.length dets)%nat
        by (apply nth_error_Some; rewrite Hi; discriminate).
      lia.
Qed.

Lemma matching_permutation (detmap detmap' : list (detmap_row f8)) d :
  Permutation detmap detmap' ->
  match matching d detmap with [r] => Some r | _ => None end
  = match matching d detmap' with [r] => Some r | _ => None end.
Proof.
  intros Hperm.
  assert (Hp : Permutation (matching d detmap) (matching d detmap')).
  { unfold DetMap.matching. induction Hperm as [| x l l' _ IH | x y l | l l' l'' _ IH1 _ IH2].
    - constructor.
    - cbn [filter]. destruct (_ && _); [constructor |]; exact IH.
    - cbn [filter].
      destruct (eq_int (band d) (smurf_band f8 y)
                && eq_int (channel d) (smurf_channel f8 y)),
        (eq_int (band d) (smurf_band f8 x)
         && eq_int (channel d) (smurf_channel f8 x));
        try apply Permutation_refl. apply perm_swap.
    - eapply Permutation_trans; eassumption. }
  pose proof (Permutation_length Hp) as Hlen.
  destruct (matching d detmap) as [| r [| r' rs]],
    (matching d detmap') as [| q [| q' qs]];
    cbn in Hlen; try discriminate Hlen; try reflexivity.
  apply Permutation_length_1 in Hp. subst. reflexivity.
Qed.

(** X21. The order of the rows of the detector map does not matter:
    two maps with the same rows in different orders give the same
    entries. *)
Theorem detmap_entries_permutation (detmap detmap' : list (detmap_row f8))
        (dets : list detector) :
  Permutation detmap detmap' ->
  detmap_entries detmap dets = detmap_entries detmap' dets.
Proof.
  intros Hperm. unfold DetMap.detmap_entries.
  generalize (map (fun _ : detector => blank) dets).
  generalize (map (fun _ : detector => ""%string) dets).
  generalize 0%nat.
  induction dets as [| d dets IH]; intros i ids entries; [reflexivity |].
  cbn [DetMap.detmap_loop].
  pose proof (matching_permutation detmap detmap' d Hperm) as Hm.
  destruct (matching d detmap) as [| r [| r' rs]],
    (matching d detmap') as [| q [| q' qs]];
    try discriminate Hm; try apply IH.
  injection Hm as <-.
  destruct (fill r); [apply IH | reflexivity | reflexivity].
Qed.

End DetMapTheorems.

Local Abbreviation toy_replace_none := (replace_none (option Z) toy_isnan).
Local Abbreviation toy_row := (mkRow (option Z)).
Local Abbreviation toy_entries :=
  (detmap_entries (option Z) toy_isnan None (Some 0) (fun x => x)
                  toy_eq_int (fun _ => EmptyString) (fun x => x)
                  (fun n => Some (Some n)) (fun _ => None) (fun _ => None)).

Lemma replace_none_cases_witness :
  toy_replace_none (VFloat None) TInt (VInt (-1)) = Ok (VInt (-1)) /\
  toy_replace_none (VInt (-1)) TInt (VInt (-1)) = Ok (VInt (-1)) /\
  toy_replace_none (VStr "NC") TFloat (VFloat None) = Raise TypeError /\
  toy_replace_none (VInt 18446744073709551616) TInt (VInt (-1))
  = Raise TypeError.
Proof.
  pose proof (replace_none_cases (option Z) toy_isnan
                (VFloat None) TInt (VInt (-1))) as (_ & _ & _ & Hok).
  pose proof (replace_none_cases (option Z) toy_isnan
                (VStr "NC") TFloat (VFloat None)) as (Hstr & _).
  pose proof (replace_none_cases (option Z) toy_isnan
                (VInt 18446744073709551616) TInt (VInt (-1))) as (Hint & _).
  split; [reflexivity | split; [| split]].
  - apply (Hok (VInt (-1)) eq_refl). left. discriminate.
  - apply Hstr. split; [left; reflexivity |].
    left. exists "NC"%string. reflexivity.
  - apply Hint. split; [right; reflexivity |].
    right. exists 18446744073709551616. split; reflexivity.
Defined.

Lemma detmap_entries_spec_witness :
  let r1 := toy_row (Some 2) (Some 17) "A" "1234" None (Some 4)
                    (Some 10) (Some 20) (Some 45) "OPTC" "w25_p017" in
  let r2 := toy_row (Some 3) (Some 5) "null" "090" (Some 1) (Some 2)
                    None (Some 0) (Some 0) "DARK" "w25_p005" in
  let r3 := toy_row (Some 4) (Some 1) "B" "150"
                    (Some 1180591620717411303424) (Some 2)
                    (Some 1) (Some 1) (Some 0) "OPTC" "w25_p001" in
  (exists es,
     toy_entries [r1; r2; r2] [mkDetector 2 17; mkDetector 3 5]
     = (Ok es, ["w25_p017"; ""]%string) /\
     nth_error es 0
     = Some (mkEntry (option Z) "A" (Some 10) (Some 20) (Some 45) (-1) 4
                     "OPTC" "f123") /\
     nth_error es 1 = Some (blank (option Z) (Some 0))) /\
  toy_entries [r1; r3] [mkDetector 2 17; mkDetector 4 1; mkDetector 2 17]
  = (Raise OverflowError, ["w25_p017"; "w25_p001"; ""]%string).
Proof.
  intros r1 r2 r3.
  pose proof (detmap_entries_spec (option Z) toy_isnan None (Some 0)
                (fun x => x) toy_eq_int (fun _ => EmptyString) (fun x => x)
                (fun n => Some (Some n)) (fun _ => None) (fun _ => None)
                [r1; r2; r2] [mkDetector 2 17; mkDetector 3 5])
    as (_ & Hok & _ & _ & Hiff).
  pose proof (detmap_entries_spec (option Z) toy_isnan None (Some 0)
                (fun x => x) toy_eq_int (fun _ => EmptyString) (fun x => x)
                (fun n => Some (Some n)) (fun _ => None) (fun _ => None)
                [r1; r3] [mkDetector 2 17; mkDetector 4 1; mkDetector 2 17])
    as (_ & _ & Hraise & _).
  split.
  - destruct (proj1 Hiff) as [es Hes].
    { intros d r [<- | [<- | []]] Hm; vm_compute in Hm;
        [injection Hm as <-; discriminate | discriminate Hm]. }
    exists es. destruct (Hok es Hes) as [_ Hnth].
    split; [| split].
    + rewrite <- Hes. reflexivity.
    + apply (Hnth 0%nat (mkDetector 2 17) eq_refl).
    + apply (Hnth 1%nat (mkDetector 3 5) eq_refl).
  - destruct (Hraise OverflowError eq_refl) as [_ _]. reflexivity.
Defined.

Lemma detmap_entries_permutation_witness :
  let r1 := toy_row (Some 2) (Some 17) "A" "NC" None (Some 4)
                    (Some 10) (Some 20) (Some 45) "OPTC" "w25_p017" in
  let r2 := toy_row (Some 3) (Some 5) "null" "090" (Some 1) (Some 2)
                    None (Some 0) (Some 0) "DARK" "w25_p005" in
  toy_entries [r1; r2] [mkDetector 3 5]
  = toy_entries [r2; r1] [mkDetector 3 5].
Proof.
  intros r1 r2.
  apply (detmap_entries_permutation (option Z) toy_isnan None (Some 0)
           (fun x => x) toy_eq_int (fun _ => EmptyString) (fun x => x)
           (fun n => Some (Some n)) (fun _ => None) (fun _ => None)).
  apply perm_swap.
Defined.
